(** * Detail form controller (static/scripts/employee_detail.js)

    A shallow embedding of the browser-side controller of the employee
    detail page and of its second variant, with the properties of the
    text normaliser, the tab switcher, the edit/save toggle and the
    submission flow.

    Conventions of the embedding
    - a JavaScript string is the list of its UTF-16 code units ([list N]);
      regular expressions without the [u] flag and [String.prototype.trim]
      both work on code units;
    - an element is identified by its position in the static NodeList that
      a selector returned; DOM attributes the script reads or writes are
      record fields;
    - every listener is a function from the controller state to the next
      state (and, where the source calls [preventDefault], a flag);
    - [autoResize] only writes the inline [height] and [overflow] styles from
      the layout-dependent [scrollHeight]; layout is not modelled, so the
      animation-frame callbacks are kept as a queue of pending resize
      requests and running one changes no modelled attribute;
    - the script only calls [requestSubmit()] or [submit()]; what the browser
      does with the call is part of the page: [submit()] submits the form,
      [requestSubmit()] submits it when the validation of the form and the
      listeners of its [submit] event let it through, which the markup
      decides ([doc_accepts]). *)

From Stdlib Require Import String Ascii List NArith ZArith Bool Arith Lia.
Import ListNotations.

Set Implicit Arguments.

(* ===================================================================== *)
(** ** JavaScript strings *)
(* ===================================================================== *)

Module Js.

Definition jsstring := list N.

Definition LF : N := 10.
Definition CR : N := 13.
Definition COMMA : N := 44.

(** Code units of an ASCII literal. *)
Fixpoint lit (s : string) : jsstring :=
  match s with
  | EmptyString => []
  | String a t => N_of_ascii a :: lit t
  end.

(** ECMAScript [WhiteSpace] and [LineTerminator] code points: the class
    [\s] of regular expressions and the characters [trim] strips. *)
Definition is_space (c : N) : bool :=
  match c with
  | 9 | 10 | 11 | 12 | 13 | 32 => true
  | 160 | 5760 => true
  | 8192 | 8193 | 8194 | 8195 | 8196 | 8197 | 8198 | 8199 | 8200 | 8201 | 8202 => true
  | 8232 | 8233 | 8239 | 8287 | 12288 | 65279 => true
  | _ => false
  end%N.

Definition eqs (a b : jsstring) : bool :=
  if list_eq_dec N.eq_dec a b then true else false.

(** *** [String.prototype.replace] with a global regular expression

    [m s] is the length of the match of the pattern anchored at the head of
    the remaining input [s], if there is one.  The scan goes left to right;
    a match is replaced by [rep] and the scan resumes behind it; an empty
    match advances by one code unit; unmatched code units are copied.
    [skip] counts the code units of the current match still to be passed. *)
Section Replace.
Variable m : jsstring -> option nat.
Variable rep : jsstring.

Fixpoint replace_go (skip : nat) (s : jsstring) : jsstring :=
  match s with
  | [] =>
      match skip, m [] with
      | O, Some _ => rep
      | _, _ => []
      end
  | c :: t =>
      match skip with
      | S k => replace_go k t
      | O =>
          match m s with
          | Some (S len) => rep ++ replace_go len t
          | Some O => rep ++ c :: replace_go O t
          | None => c :: replace_go O t
          end
      end
  end.

Definition replace_all (s : jsstring) : jsstring := replace_go 0 s.
End Replace.

(** [/\r\n/] *)
Definition match_crlf (s : jsstring) : option nat :=
  match s with
  | c :: d :: _ => if ((c =? CR) && (d =? LF))%N then Some 2 else None
  | _ => None
  end.

(** The tail [\s*(?!\n)] of the second pattern, with the backtracking of a
    greedy star: one more [\s] is tried first, and when the rest then fails
    the star gives that code unit back and the lookahead is tested there. *)
Fixpoint match_spaces_not_lf (s : jsstring) : option nat :=
  match s with
  | [] => Some 0
  | c :: t =>
      if is_space c then
        match match_spaces_not_lf t with
        | Some k => Some (S k)
        | None => if (c =? LF)%N then None else Some 0
        end
      else if (c =? LF)%N then None else Some 0
  end.

(** [/,\s*(?!\n)/] *)
Definition match_comma (s : jsstring) : option nat :=
  match s with
  | c :: t =>
      if (c =? COMMA)%N then option_map S (match_spaces_not_lf t) else None
  | [] => None
  end.

(** Length of the run of newlines at the head. *)
Fixpoint lf_run (s : jsstring) : nat :=
  match s with
  | c :: t => if (c =? LF)%N then S (lf_run t) else 0
  | [] => 0
  end.

(** [/\n{3,}/]: at least three newlines, then greedily all that follow. *)
Definition match_lf3 (s : jsstring) : option nat :=
  let k := lf_run s in
  if 3 <=? k then Some k else None.

(** *** [String.prototype.trim] *)
Fixpoint trim_start (s : jsstring) : jsstring :=
  match s with
  | c :: t => if is_space c then trim_start t else s
  | [] => []
  end.

Fixpoint trim_end (s : jsstring) : jsstring :=
  match s with
  | [] => []
  | c :: t =>
      match trim_end t with
      | [] => if is_space c then [] else [c]
      | r => c :: r
      end
  end.

Definition trim (s : jsstring) : jsstring := trim_end (trim_start s).

End Js.

Import Js.

(* ===================================================================== *)
(** ** The text normaliser *)
(* ===================================================================== *)

(** The three assignments to [v] in [normalizeCommaNewlines]; both source
    files have the same function text.  The element's [value] is a string,
    so [el.value || ''] is the value itself. *)
Definition unify_newlines (v : jsstring) : jsstring :=
  replace_all match_crlf [LF] v.

Definition insert_breaks (v : jsstring) : jsstring :=
  replace_all match_comma [COMMA; LF] v.

Definition break_after_commas (v : jsstring) : jsstring :=
  trim (insert_breaks v).

Definition squeeze_blank_lines (v : jsstring) : jsstring :=
  replace_all match_lf3 [LF; LF] v.

(** The value written back to [el.value], as a function of the value read. *)
Definition normalizeCommaNewlines (value : jsstring) : jsstring :=
  let v := unify_newlines value in
  let v := break_after_commas v in
  let v := squeeze_blank_lines v in
  v.

(** *** Shapes of strings used in the statements *)

Definition head_is (c : N) (s : jsstring) : bool :=
  match s with
  | d :: _ => (d =? c)%N
  | [] => false
  end.

Fixpoint last_error (s : jsstring) : option N :=
  match s with
  | [] => None
  | c :: t => match t with [] => Some c | _ => last_error t end
  end.

(** No carriage return is directly followed by a newline. *)
Fixpoint crlf_free (s : jsstring) : bool :=
  match s with
  | c :: t => negb ((c =? CR)%N && head_is LF t) && crlf_free t
  | [] => true
  end.

(** No carriage return at all.  The function is only called on
    [textarea] elements, and the [value] getter of a textarea returns the
    text with its newlines normalised to LF: the values it reads have this
    shape. *)
Definition cr_free (s : jsstring) : bool :=
  forallb (fun c => negb (c =? CR)%N) s.

(** No carriage return is directly followed by a carriage return and a
    newline. *)
Fixpoint crcrlf_free (s : jsstring) : bool :=
  match s with
  | c :: t => negb ((c =? CR)%N && head_is CR t && head_is LF (tl t)) && crcrlf_free t
  | [] => true
  end.

(** Nowhere do three newlines follow each other. *)
Fixpoint no_lf3 (s : jsstring) : bool :=
  match s with
  | c :: t => negb (3 <=? lf_run s) && no_lf3 t
  | [] => true
  end.

(** What may follow a comma: before trimming, one newline and then the end
    or a code unit that is not white space ... *)
Definition after_comma_raw (t : jsstring) : bool :=
  match t with
  | d :: u => (d =? LF)%N && match u with e :: _ => negb (is_space e) | [] => true end
  | [] => false
  end.

(** ... and in the trimmed result, the end, or one newline and then a code
    unit that is not white space. *)
Definition after_comma_trimmed (t : jsstring) : bool :=
  match t with
  | d :: u => (d =? LF)%N && match u with e :: _ => negb (is_space e) | [] => false end
  | [] => true
  end.

Fixpoint commas_followed (ok : jsstring -> bool) (s : jsstring) : bool :=
  match s with
  | c :: t => (negb (c =? COMMA)%N || ok t) && commas_followed ok t
  | [] => true
  end.

(** No white space at either end. *)
Definition trimmed (s : jsstring) : Prop :=
  (forall c, hd_error s = Some c -> is_space c = false) /\
  (forall c, last_error s = Some c -> is_space c = false).

Definition starts_with_space (s : jsstring) : bool :=
  match s with
  | c :: _ => is_space c
  | [] => false
  end.

Definition ends_with_space (s : jsstring) : bool :=
  match last_error s with
  | Some c => is_space c
  | None => false
  end.

(** The newline that the second scan puts behind a comma that ends the
    string (and that [trim] takes away again). *)
Definition closing (s : jsstring) : jsstring :=
  match last_error s with
  | Some c => if (c =? COMMA)%N then [LF] else []
  | None => []
  end.

(** The values that come out of the normaliser. *)
Record normal (s : jsstring) : Prop := {
  normal_crlf : crlf_free s = true;
  normal_commas : commas_followed after_comma_trimmed s = true;
  normal_trimmed : trimmed s;
  normal_blank : no_lf3 s = true
}.

(* ===================================================================== *)
(** ** The page *)
(* ===================================================================== *)

Module Dom.

(** A control of the form: an [input], [select] or [textarea] element. *)
Inductive Tag := INPUT | SELECT | TEXTAREA.

Record FieldEl := {
  f_tag : Tag;
  f_readonly : bool;      (* the readonly attribute is present *)
  f_auto_list : bool;     (* class auto-list *)
  f_auto_grow : bool;     (* class auto-grow *)
  f_value : jsstring;
  f_disabled : bool
}.

(** An element of class [tab]. *)
Record TabEl := {
  t_role : option jsstring;           (* the role attribute *)
  t_target : option jsstring;         (* dataset.target, undefined without data-target *)
  t_active : bool;                    (* classList contains active *)
  t_aria_selected : option jsstring   (* the aria-selected attribute *)
}.

(** An element of class [profile-section]. *)
Record SectionEl := {
  s_id : jsstring;
  s_active : bool;        (* classList contains active *)
  s_hidden : bool         (* the hidden property *)
}.

(** An element with an id that is not of class [profile-section]: its id
    and the number of sections that come before it in tree order. *)
Record OtherEl := {
  o_id : jsstring;
  o_after : nat
}.

(** An element of the document, as [getElementById] returns it: the section
    at a position of [sections], or another element. *)
Inductive Node :=
| SectionNode (i : nat)
| OtherNode (o : OtherEl).

(** Callbacks handed to [setTimeout], by what they do when they run. *)
Inductive Task :=
| NormalizeTask (i : nat)   (* normalizeCommaNewlines(el); autoResize(el) for field i *)
| SubmitTask.               (* form.submit() *)

Record Timer := { delay : nat; task : Task }.

Inductive Submission := ViaRequestSubmit | ViaSubmit.

(** What the markup delivers.  Elements are listed in tree order. *)
Record Document := {
  doc_form : option (list FieldEl);   (* #detail-form and its controls *)
  doc_tabs : list TabEl;
  doc_sections : list SectionEl;
  doc_edit : option jsstring;         (* #edit-btn: its textContent *)
  doc_save : option jsstring;         (* #save-btn: its style.display *)
  doc_loading : option bool;          (* #loading: classList contains active *)
  doc_requestSubmit : bool;           (* the form has a requestSubmit method *)
  doc_accepts : list FieldEl -> bool; (* whether the validation of the form and the
                                         listeners of its submit event let a
                                         requested submission through, for the
                                         controls as they are *)
  doc_others : list OtherEl           (* the other elements that have an id *)
}.

(** The page while the script runs: the attributes it reads and writes,
    the callbacks waiting in the browser, and the submissions made. *)
Record Page := {
  tabs : list TabEl;
  sections : list SectionEl;
  fields : list FieldEl;
  editBtn : option jsstring;
  saveBtn : option jsstring;
  loading : option bool;
  focused : option nat;               (* the tab that has focus *)
  requestSubmit : bool;
  timers : list Timer;                (* setTimeout callbacks not yet run *)
  frames : list (option Node);        (* requestAnimationFrame callbacks not yet
                                         run: the element to resize, if any *)
  submissions : list Submission;      (* calls of requestSubmit() and submit() *)
  sent : list (list FieldEl);         (* submissions of the form the browser has
                                         made: the controls as they went out *)
  accepts : list FieldEl -> bool;
  others : list OtherEl
}.

Definition set_tabs (x : list TabEl) (p : Page) : Page :=
  {| tabs := x; sections := sections p; fields := fields p; editBtn := editBtn p;
     saveBtn := saveBtn p; loading := loading p; focused := focused p;
     requestSubmit := requestSubmit p; timers := timers p; frames := frames p;
     submissions := submissions p; sent := sent p; accepts := accepts p;
     others := others p |}.

Definition set_sections (x : list SectionEl) (p : Page) : Page :=
  {| tabs := tabs p; sections := x; fields := fields p; editBtn := editBtn p;
     saveBtn := saveBtn p; loading := loading p; focused := focused p;
     requestSubmit := requestSubmit p; timers := timers p; frames := frames p;
     submissions := submissions p; sent := sent p; accepts := accepts p;
     others := others p |}.

Definition set_fields (x : list FieldEl) (p : Page) : Page :=
  {| tabs := tabs p; sections := sections p; fields := x; editBtn := editBtn p;
     saveBtn := saveBtn p; loading := loading p; focused := focused p;
     requestSubmit := requestSubmit p; timers := timers p; frames := frames p;
     submissions := submissions p; sent := sent p; accepts := accepts p;
     others := others p |}.

Definition set_editBtn (x : option jsstring) (p : Page) : Page :=
  {| tabs := tabs p; sections := sections p; fields := fields p; editBtn := x;
     saveBtn := saveBtn p; loading := loading p; focused := focused p;
     requestSubmit := requestSubmit p; timers := timers p; frames := frames p;
     submissions := submissions p; sent := sent p; accepts := accepts p;
     others := others p |}.

Definition set_saveBtn (x : option jsstring) (p : Page) : Page :=
  {| tabs := tabs p; sections := sections p; fields := fields p; editBtn := editBtn p;
     saveBtn := x; loading := loading p; focused := focused p;
     requestSubmit := requestSubmit p; timers := timers p; frames := frames p;
     submissions := submissions p; sent := sent p; accepts := accepts p;
     others := others p |}.

Definition set_loading (x : option bool) (p : Page) : Page :=
  {| tabs := tabs p; sections := sections p; fields := fields p; editBtn := editBtn p;
     saveBtn := saveBtn p; loading := x; focused := focused p;
     requestSubmit := requestSubmit p; timers := timers p; frames := frames p;
     submissions := submissions p; sent := sent p; accepts := accepts p;
     others := others p |}.

Definition set_focused (x : option nat) (p : Page) : Page :=
  {| tabs := tabs p; sections := sections p; fields := fields p; editBtn := editBtn p;
     saveBtn := saveBtn p; loading := loading p; focused := x;
     requestSubmit := requestSubmit p; timers := timers p; frames := frames p;
     submissions := submissions p; sent := sent p; accepts := accepts p;
     others := others p |}.

Definition set_timers (x : list Timer) (p : Page) : Page :=
  {| tabs := tabs p; sections := sections p; fields := fields p; editBtn := editBtn p;
     saveBtn := saveBtn p; loading := loading p; focused := focused p;
     requestSubmit := requestSubmit p; timers := x; frames := frames p;
     submissions := submissions p; sent := sent p; accepts := accepts p;
     others := others p |}.

Definition set_frames (x : list (option Node)) (p : Page) : Page :=
  {| tabs := tabs p; sections := sections p; fields := fields p; editBtn := editBtn p;
     saveBtn := saveBtn p; loading := loading p; focused := focused p;
     requestSubmit := requestSubmit p; timers := timers p; frames := x;
     submissions := submissions p; sent := sent p; accepts := accepts p;
     others := others p |}.

Definition set_submissions (x : list Submission) (p : Page) : Page :=
  {| tabs := tabs p; sections := sections p; fields := fields p; editBtn := editBtn p;
     saveBtn := saveBtn p; loading := loading p; focused := focused p;
     requestSubmit := requestSubmit p; timers := timers p; frames := frames p;
     submissions := x; sent := sent p; accepts := accepts p; others := others p |}.

Definition set_sent (x : list (list FieldEl)) (p : Page) : Page :=
  {| tabs := tabs p; sections := sections p; fields := fields p; editBtn := editBtn p;
     saveBtn := saveBtn p; loading := loading p; focused := focused p;
     requestSubmit := requestSubmit p; timers := timers p; frames := frames p;
     submissions := submissions p; sent := x; accepts := accepts p;
     others := others p |}.

(** The page as the browser hands it to the script. *)
Definition open_page (d : Document) (fs : list FieldEl) : Page :=
  {| tabs := doc_tabs d; sections := doc_sections d; fields := fs;
     editBtn := doc_edit d; saveBtn := doc_save d; loading := doc_loading d;
     focused := None; requestSubmit := doc_requestSubmit d;
     timers := []; frames := []; submissions := []; sent := [];
     accepts := doc_accepts d; others := doc_others d |}.

(** *** Writing attributes *)

Definition set_value (v : jsstring) (f : FieldEl) : FieldEl :=
  {| f_tag := f_tag f; f_readonly := f_readonly f; f_auto_list := f_auto_list f;
     f_auto_grow := f_auto_grow f; f_value := v; f_disabled := f_disabled f |}.

Definition set_disabled (b : bool) (f : FieldEl) : FieldEl :=
  {| f_tag := f_tag f; f_readonly := f_readonly f; f_auto_list := f_auto_list f;
     f_auto_grow := f_auto_grow f; f_value := f_value f; f_disabled := b |}.

Definition set_active (b : bool) (t : TabEl) : TabEl :=
  {| t_role := t_role t; t_target := t_target t; t_active := b;
     t_aria_selected := t_aria_selected t |}.

Definition set_aria_selected (v : jsstring) (t : TabEl) : TabEl :=
  {| t_role := t_role t; t_target := t_target t; t_active := t_active t;
     t_aria_selected := Some v |}.

Definition set_section_active (b : bool) (s : SectionEl) : SectionEl :=
  {| s_id := s_id s; s_active := b; s_hidden := s_hidden s |}.

Definition set_hidden (b : bool) (s : SectionEl) : SectionEl :=
  {| s_id := s_id s; s_active := s_active s; s_hidden := b |}.

(** *** Lists of elements *)

Fixpoint mapi_from {A B : Type} (f : nat -> A -> B) (n : nat) (l : list A) : list B :=
  match l with
  | [] => []
  | x :: t => f n x :: mapi_from f (S n) t
  end.

(** [forEach] with a callback that looks at the element's position. *)
Definition mapi {A B : Type} (f : nat -> A -> B) (l : list A) : list B :=
  mapi_from f 0 l.

(** Write to the element at position [i], when there is one. *)
Fixpoint update {A : Type} (i : nat) (f : A -> A) (l : list A) : list A :=
  match l, i with
  | [], _ => []
  | x :: t, O => f x :: t
  | x :: t, S j => x :: update j f t
  end.

Fixpoint find_index {A : Type} (test : A -> bool) (l : list A) : option nat :=
  match l with
  | [] => None
  | x :: t => if test x then Some 0 else option_map S (find_index test t)
  end.

(** *** Selectors

    The script never writes the tag, the classes or the [role] and
    [readonly] attributes that its selectors test, so the NodeLists it
    computes once have the same members at every later point; membership is
    decided on the element itself. *)

(** [.tab[role="tab"]] among the elements of class [tab]. *)
Definition is_tab (t : TabEl) : bool :=
  match t_role t with
  | Some r => eqs r (lit "tab")
  | None => false
  end.

(** [input:not([readonly]), select, textarea] *)
Definition tracked (f : FieldEl) : bool :=
  match f_tag f with
  | INPUT => negb (f_readonly f)
  | SELECT => true
  | TEXTAREA => true
  end.

(** [textarea.auto-list] *)
Definition is_list_area (f : FieldEl) : bool :=
  match f_tag f with
  | TEXTAREA => f_auto_list f
  | _ => false
  end.

(** The static NodeList [inputs]. *)
Definition inputs (p : Page) : list FieldEl := filter tracked (fields p).

(** [document.querySelector('.profile-section.active')] *)
Definition querySelector_active (p : Page) : option nat :=
  find_index s_active (sections p).

(** The section at a position, as an element. *)
Definition section_node (i : option nat) : option Node := option_map SectionNode i.

(** [document.getElementById(id)]: the first element in tree order whose
    id is [id], among the sections and the other elements.  An element whose
    [id] is the empty string has no id, so the empty string finds nothing.
    Of a section and another element that both carry the id, the other
    element comes first when at most [i] sections come before it. *)
Definition getElementById (id : jsstring) (p : Page) : option Node :=
  match id with
  | [] => None
  | _ :: _ =>
      match find_index (fun s => eqs (s_id s) id) (sections p),
            find (fun o => eqs (o_id o) id) (others p) with
      | Some i, Some o => if o_after o <=? i then Some (OtherNode o)
                          else Some (SectionNode i)
      | Some i, None => Some (SectionNode i)
      | None, Some o => Some (OtherNode o)
      | None, None => None
      end
  end.

(** [x === y] for a string [x] and a value [y] that is a string or
    undefined. *)
Definition strict_eq (x : jsstring) (y : option jsstring) : bool :=
  match y with
  | Some s => eqs x s
  | None => false
  end.

(** [String(b)] *)
Definition String_of_bool (b : bool) : jsstring :=
  if b then lit "true" else lit "false".

(** The string an argument is converted to by [getElementById]. *)
Definition ToString (y : option jsstring) : jsstring :=
  match y with
  | Some s => s
  | None => lit "undefined"
  end.

(** *** Pieces shared by the listeners of both files *)

(** [normalizeCommaNewlines(el)]: read [el.value], write it back. *)
Definition normalize_el (f : FieldEl) : FieldEl :=
  set_value (normalizeCommaNewlines (f_value f)) f.

(** [listAreas.forEach((el) => normalizeCommaNewlines(el))] *)
Definition normalize_listAreas (p : Page) : Page :=
  set_fields (map (fun f => if is_list_area f then normalize_el f else f) (fields p)) p.

(** [inputs.forEach((el) => (el.disabled = b))] *)
Definition disable_inputs (b : bool) (p : Page) : Page :=
  set_fields (map (fun f => if tracked f then set_disabled b f else f) (fields p)) p.

(** [requestAnimationFrame(() => resizeTextareasIn(section))] *)
Definition requestAnimationFrame (section : option Node) (p : Page) : Page :=
  set_frames (frames p ++ [section]) p.

(** [setTimeout(callback, ms)] *)
Definition setTimeout (t : Task) (ms : nat) (p : Page) : Page :=
  set_timers (timers p ++ [{| delay := ms; task := t |}]) p.

Definition Task_eqb (a b : Task) : bool :=
  match a, b with
  | NormalizeTask i, NormalizeTask j => i =? j
  | SubmitTask, SubmitTask => true
  | _, _ => false
  end.

Definition Timer_eqb (a b : Timer) : bool :=
  (delay a =? delay b) && Task_eqb (task a) (task b).

Fixpoint remove_first (t : Timer) (l : list Timer) : list Timer :=
  match l with
  | [] => []
  | x :: r => if Timer_eqb t x then r else x :: remove_first t r
  end.

(** The browser submits the form: the controls go out as they are. *)
Definition send (p : Page) : Page := set_sent (sent p ++ [fields p]) p.

(** [form.submit()]: the form is submitted, without validation and without
    a [submit] event. *)
Definition form_submit (p : Page) : Page :=
  send (set_submissions (submissions p ++ [ViaSubmit]) p).

(** [form.requestSubmit()]: the browser validates the form and fires a
    [submit] event, and submits the form when both let it through. *)
Definition form_requestSubmit (p : Page) : Page :=
  let p := set_submissions (submissions p ++ [ViaRequestSubmit]) p in
  if accepts p (fields p) then send p else p.

(** What a timer callback does when the browser runs it. *)
Definition run_task (t : Task) (p : Page) : Page :=
  match t with
  | NormalizeTask i => set_fields (update i normalize_el (fields p)) p
  | SubmitTask => form_submit p
  end.

(** The browser runs the pending timer [t]; nothing happens when no such
    timer is pending. *)
Definition fire (t : Timer) (p : Page) : Page :=
  if existsb (Timer_eqb t) (timers p)
  then run_task (task t) (set_timers (remove_first t (timers p)) p)
  else p.

(** The browser runs the pending animation-frame callbacks.  They write
    inline heights only. *)
Definition animation_frame (p : Page) : Page := set_frames [] p.

(** The [paste] and [blur] listeners of a list area. *)
Definition on_paste (i : nat) (p : Page) : Page :=
  match nth_error (fields p) i with
  | Some f => if is_list_area f then setTimeout (NormalizeTask i) 0 p else p
  | None => p
  end.

Definition on_blur (i : nat) (p : Page) : Page :=
  match nth_error (fields p) i with
  | Some f => if is_list_area f then set_fields (update i normalize_el (fields p)) p else p
  | None => p
  end.

(** The user changes the value of field [i]. *)
Definition type_into (i : nat) (v : jsstring) (p : Page) : Page :=
  set_fields (update i (set_value v) (fields p)) p.

(** The labels of the edit control: U+CDE8 U+C18C and U+C218 U+C815. *)
Definition CANCEL_LABEL : jsstring := [52712; 49548]%N.
Definition EDIT_LABEL : jsstring := [49688; 51221]%N.

(** What happens in the browser. *)
Inductive Event :=
| Click_tab (k : nat)                      (* click on the element k of class tab *)
| Keydown_tab (k : nat) (key : jsstring)   (* keydown on it *)
| Input (i : nat) (v : jsstring)           (* the user gives field i the value v *)
| Paste (i : nat)
| Blur (i : nat)
| Click_edit
| Click_save
| Beforeunload
| Timer_fires (t : Timer)                      (* a pending timer runs *)
| AnimationFrame.

End Dom.

Import Dom.

(* ===================================================================== *)
(** ** static/scripts/employee_detail.js *)
(* ===================================================================== *)

Module Detail.

(** The page together with the closure variable [dirty]. *)
Record State := { page : Page; dirty : bool }.

Definition on_page (f : Page -> Page) (st : State) : State :=
  {| page := f (page st); dirty := dirty st |}.

Definition set_dirty (b : bool) (st : State) : State :=
  {| page := page st; dirty := b |}.

(** [activateTab(tab)] for the element [k] of class [tab]. *)
Definition activateTab (k : nat) (p : Page) : Page :=
  let targetId := match nth_error (tabs p) k with
                  | Some tab => t_target tab
                  | None => None
                  end in
  let p := set_tabs
             (mapi (fun j t =>
                      if is_tab t then
                        let active := j =? k in
                        set_aria_selected (String_of_bool active) (set_active active t)
                      else t)
                   (tabs p)) p in
  let p := set_sections
             (map (fun section =>
                     let active := strict_eq (s_id section) targetId in
                     set_hidden (negb active) (set_section_active active section))
                  (sections p)) p in
  let targetSection := getElementById (ToString targetId) p in
  requestAnimationFrame targetSection p.

(** The click listener of a tab; only the elements of [tabs] have one. *)
Definition tab_click (k : nat) (p : Page) : Page :=
  match nth_error (tabs p) k with
  | Some t => if is_tab t then activateTab k p else p
  | None => p
  end.

(** [Array.from(tabs)]: the elements of class [tab] with [role="tab"]. *)
Definition tab_array (p : Page) : list nat :=
  filter (fun j => match nth_error (tabs p) j with
                   | Some t => is_tab t
                   | None => false
                   end)
         (seq 0 (length (tabs p))).

(** [arr.indexOf(x)] *)
Fixpoint indexOf (arr : list nat) (x : nat) : Z :=
  match arr with
  | [] => (-1)%Z
  | y :: t =>
      if y =? x then 0%Z
      else let r := indexOf t x in if (r <? 0)%Z then (-1)%Z else (r + 1)%Z
  end.

(** [arr[z]] for an integer [z]. *)
Definition at_index (arr : list nat) (z : Z) : option nat :=
  if (z <? 0)%Z then None else nth_error arr (Z.to_nat z).

(** [next.focus(); activateTab(next);] *)
Definition focus_and_activate (next : nat) (p : Page) : Page :=
  activateTab next (set_focused (Some next) p).

(** The keydown listener of the tab [k]; the flag tells whether
    [preventDefault] was called.  When [next] is undefined the call
    [next.focus()] throws and the listener ends there. *)
Definition tab_keydown_listener (k : nat) (key : jsstring) (p : Page) : Page * bool :=
  if (eqs key (lit "ArrowRight") || eqs key (lit "ArrowLeft"))%bool then
    let dir := if eqs key (lit "ArrowRight") then 1%Z else (-1)%Z in
    let arr := tab_array p in
    let idx := indexOf arr k in
    let len := Z.of_nat (length arr) in
    match at_index arr (Z.rem (idx + dir + len) len) with
    | Some next => (focus_and_activate next p, true)
    | None => (p, true)
    end
  else (p, false).

Definition tab_keydown (k : nat) (key : jsstring) (p : Page) : Page * bool :=
  match nth_error (tabs p) k with
  | Some t => if is_tab t then tab_keydown_listener k key p else (p, false)
  | None => (p, false)
  end.

(** [querySelector('.profile-section.active') || getElementById('basic-info')] *)
Definition initialActive (p : Page) : option Node :=
  match querySelector_active p with
  | Some i => Some (SectionNode i)
  | None => getElementById (lit "basic-info") p
  end.

(** The listener of [DOMContentLoaded]; [None] when the form is missing
    and the listener returns at once. *)
Definition DOMContentLoaded (d : Document) : option State :=
  match doc_form d with
  | None => None
  | Some fs =>
      let p := open_page d fs in
      let initial := initialActive p in
      let p := set_sections
                 (map (fun sec => set_hidden (negb (s_active sec)) sec) (sections p)) p in
      let p := requestAnimationFrame initial p in
      let p := normalize_listAreas p in
      let p := disable_inputs true p in
      Some {| page := p; dirty := false |}
  end.

(** The input listener of the form. *)
Definition form_input (st : State) : State :=
  if negb (dirty st) then set_dirty true st else st.

(** The click listener of the edit control. *)
Definition edit_click (st : State) : State :=
  match editBtn (page st) with
  | None => st
  | Some _ =>
      let isDisabled := match inputs (page st) with
                        | el :: _ => f_disabled el
                        | [] => true
                        end in
      let st := on_page (disable_inputs (negb isDisabled)) st in
      if isDisabled then
        let st := on_page (set_editBtn (Some CANCEL_LABEL)) st in
        let st := on_page (fun p => match saveBtn p with
                                    | Some _ => set_saveBtn (Some (lit "inline-block")) p
                                    | None => p
                                    end) st in
        on_page (fun p => requestAnimationFrame (section_node (querySelector_active p)) p) st
      else
        let st := set_dirty false st in
        let st := on_page (set_editBtn (Some EDIT_LABEL)) st in
        on_page (fun p => match saveBtn p with
                          | Some _ => set_saveBtn (Some (lit "none")) p
                          | None => p
                          end) st
  end.

(** [form.requestSubmit ? form.requestSubmit() : form.submit()] *)
Definition submit_now (p : Page) : Page :=
  if requestSubmit p then form_requestSubmit p else form_submit p.

(** The click listener of the save control, with the flag of
    [preventDefault]. *)
Definition save_click (st : State) : State * bool :=
  match saveBtn (page st) with
  | None => (st, false)
  | Some _ =>
      let st := on_page normalize_listAreas st in
      let st := on_page (fun p => match loading p with
                                  | Some _ => set_loading (Some true) p
                                  | None => p
                                  end) st in
      (on_page submit_now st, true)
  end.

(** The [beforeunload] listener of the window. *)
Definition beforeunload (st : State) : State * bool :=
  if dirty st then (st, true) else (st, false).

(** One event, run to completion; the flag tells whether the default
    action was prevented. *)
Definition step (e : Event) (st : State) : State * bool :=
  match e with
  | Click_tab k => (on_page (tab_click k) st, false)
  | Keydown_tab k key =>
      let r := tab_keydown k key (page st) in
      ({| page := fst r; dirty := dirty st |}, snd r)
  | Input i v =>
      match nth_error (fields (page st)) i with
      | Some _ => (form_input (on_page (type_into i v) st), false)
      | None => (st, false)
      end
  | Paste i => (on_page (on_paste i) st, false)
  | Blur i => (on_page (on_blur i) st, false)
  | Click_edit => (edit_click st, false)
  | Click_save => save_click st
  | Beforeunload => beforeunload st
  | Timer_fires t => (on_page (fire t) st, false)
  | AnimationFrame => (on_page animation_frame st, false)
  end.

Definition run (evs : list Event) (st : State) : State :=
  fold_left (fun s e => fst (step e s)) evs st.

End Detail.

(* ===================================================================== *)
(** ** The second source file (the other variant of the script) *)
(* ===================================================================== *)

Module Part000.

(** The click listener of a tab; every element of class [tab] has one. *)
Definition tab_click (k : nat) (p : Page) : Page :=
  match nth_error (tabs p) k with
  | None => p
  | Some tab =>
      let targetId := t_target tab in
      let p := set_tabs (map (set_active false) (tabs p)) p in
      let p := set_tabs (update k (set_active true) (tabs p)) p in
      let p := set_sections
                 (map (fun section =>
                         set_section_active (strict_eq (s_id section) targetId) section)
                      (sections p)) p in
      let targetSection := getElementById (ToString targetId) p in
      requestAnimationFrame targetSection p
  end.

Definition DOMContentLoaded (d : Document) : option Page :=
  match doc_form d with
  | None => None
  | Some fs =>
      let p := open_page d fs in
      let p := normalize_listAreas p in
      let p := match querySelector_active p with
               | Some i => requestAnimationFrame (Some (SectionNode i)) p
               | None => p
               end in
      let p := disable_inputs true p in
      Some p
  end.

Definition edit_click (p : Page) : Page :=
  match editBtn p with
  | None => p
  | Some _ =>
      let isDisabled := match inputs p with
                        | el :: _ => f_disabled el
                        | [] => true
                        end in
      let p := disable_inputs (negb isDisabled) p in
      if isDisabled then
        let p := set_editBtn (Some CANCEL_LABEL) p in
        let p := match saveBtn p with
                 | Some _ => set_saveBtn (Some (lit "inline-block")) p
                 | None => p
                 end in
        requestAnimationFrame (section_node (querySelector_active p)) p
      else
        let p := set_editBtn (Some EDIT_LABEL) p in
        match saveBtn p with
        | Some _ => set_saveBtn (Some (lit "none")) p
        | None => p
        end
  end.

(** [setTimeout(() => form.submit(), 300)] after the normalisation and the
    loading indicator. *)
Definition save_click (p : Page) : Page * bool :=
  match saveBtn p with
  | None => (p, false)
  | Some _ =>
      let p := normalize_listAreas p in
      let p := match loading p with
               | Some _ => set_loading (Some true) p
               | None => p
               end in
      (setTimeout SubmitTask 300 p, true)
  end.

Definition step (e : Event) (p : Page) : Page * bool :=
  match e with
  | Click_tab k => (tab_click k p, false)
  | Keydown_tab _ _ => (p, false)
  | Input i v =>
      match nth_error (fields p) i with
      | Some _ => (type_into i v p, false)
      | None => (p, false)
      end
  | Paste i => (on_paste i p, false)
  | Blur i => (on_blur i p, false)
  | Click_edit => (edit_click p, false)
  | Click_save => save_click p
  | Beforeunload => (p, false)
  | Timer_fires t => (fire t p, false)
  | AnimationFrame => (animation_frame p, false)
  end.

Definition run (evs : list Event) (p : Page) : Page :=
  fold_left (fun s e => fst (step e s)) evs p.

End Part000.

(* ===================================================================== *)
(** ** Notions used in the statements *)
(* ===================================================================== *)

(** Exactly one section has the class [active]; it is not hidden and all
    others are. *)
Definition one_section_shown (ss : list SectionEl) : Prop :=
  length (filter s_active ss) = 1 /\
  Forall (fun s => s_hidden s = negb (s_active s)) ss.

(** The sections a tab target names. *)
Definition named_by (target : option jsstring) (ss : list SectionEl) : list SectionEl :=
  filter (fun s => strict_eq (s_id s) target) ss.

(** The attributes of a tab that the script only reads. *)
Definition tab_key (t : TabEl) : option jsstring * option jsstring :=
  (t_role t, t_target t).

(** What holds of tabs and sections at every stable point of a page that
    was loaded from [d]. *)
Definition tabs_sections_inv (d : Document) (p : Page) : Prop :=
  map s_id (sections p) = map s_id (doc_sections d) /\
  map tab_key (tabs p) = map tab_key (doc_tabs d) /\
  one_section_shown (sections p).

(** Every tab with [role="tab"] names exactly one section. *)
Definition targets_resolve (d : Document) : Prop :=
  forall t, In t (doc_tabs d) -> is_tab t = true ->
            length (named_by (t_target t) (doc_sections d)) = 1.

(** *** Comparing the two files *)

Definition is_submit (t : Timer) : bool :=
  match task t with
  | SubmitTask => true
  | NormalizeTask _ => false
  end.

(** Submissions that the second variant has scheduled and not yet made. *)
Definition pending_submits (p : Page) : nat :=
  length (filter is_submit (timers p)).

(** What both files write in the same way. *)
Definition shared_view (p : Page) :
  list bool * list bool * list FieldEl * option jsstring * option jsstring * option bool :=
  (map t_active (tabs p), map s_active (sections p), fields p,
   editBtn p, saveBtn p, loading p).

Definition arrow_key (key : jsstring) : bool :=
  (eqs key (lit "ArrowRight") || eqs key (lit "ArrowLeft"))%bool.

(** The element [k] of class [tab] has [role="tab"]. *)
Definition tab_at (ts : list TabEl) (k : nat) : bool :=
  match nth_error ts k with
  | Some t => is_tab t
  | None => false
  end.

(** The element [k] of class [tab] has another role (the PDF icon). *)
Definition icon_at (ts : list TabEl) (k : nat) : bool :=
  match nth_error ts k with
  | Some t => negb (is_tab t)
  | None => false
  end.

(** Events other than a click on an element of class [tab] that is not a
    tab, and other than an arrow key pressed on a tab. *)
Definition shared_event (ts : list TabEl) (e : Event) : bool :=
  match e with
  | Click_tab k => negb (icon_at ts k)
  | Keydown_tab k key => negb (arrow_key key && tab_at ts k)
  | _ => true
  end.

(** An element of class [tab] that is a tab, or else does not have the
    class [active]. *)
Definition idle_icon (t : TabEl) : bool := (is_tab t || negb (t_active t))%bool.

(** The page of [employee_detail.js] and the page of the second variant
    after the same events. *)
Record agree (pa pb : Page) : Prop := {
  ag_tab_flags : map t_active (tabs pa) = map t_active (tabs pb);
  ag_tab_keys : map tab_key (tabs pa) = map tab_key (tabs pb);
  ag_icons : forallb idle_icon (tabs pa) = true;
  ag_section_flags : map s_active (sections pa) = map s_active (sections pb);
  ag_section_ids : map s_id (sections pa) = map s_id (sections pb);
  ag_fields : fields pa = fields pb;
  ag_edit : editBtn pa = editBtn pb;
  ag_save : saveBtn pa = saveBtn pb;
  ag_loading : loading pa = loading pb;
  ag_timers : timers pa = filter (fun t => negb (is_submit t)) (timers pb);
  ag_submissions :
    length (submissions pa) = length (submissions pb) + pending_submits pb
}.

(** The edit/save toggle is locked when every tracked field is disabled,
    and in edit mode when there are tracked fields and all are enabled. *)
Definition locked (p : Page) : Prop :=
  Forall (fun f => f_disabled f = true) (inputs p).

Definition editing (p : Page) : Prop :=
  inputs p <> [] /\ Forall (fun f => f_disabled f = false) (inputs p).

(** Events other than an input event. *)
Definition not_input (e : Event) : bool :=
  match e with
  | Input _ _ => false
  | _ => true
  end.

(** *** A small page used to try the statements *)

Definition sample_fields : list FieldEl :=
  [ {| f_tag := INPUT; f_readonly := true; f_auto_list := false; f_auto_grow := false;
       f_value := lit "Kim"; f_disabled := false |};
    {| f_tag := INPUT; f_readonly := false; f_auto_list := false; f_auto_grow := false;
       f_value := lit "010-1234"; f_disabled := false |};
    {| f_tag := TEXTAREA; f_readonly := false; f_auto_list := true; f_auto_grow := true;
       f_value := lit "rocq, js,  c"; f_disabled := false |} ].

Definition sample_tab (target : string) (active : bool) : TabEl :=
  {| t_role := Some (lit "tab"); t_target := Some (lit target); t_active := active;
     t_aria_selected := None |}.

Definition sample_section (id : string) (active : bool) : SectionEl :=
  {| s_id := lit id; s_active := active; s_hidden := false |}.

(** The form, which contains the three sections, and the controls behind
    it. *)
Definition sample_others : list OtherEl :=
  [ {| o_id := lit "detail-form"; o_after := 0 |};
    {| o_id := lit "edit-btn"; o_after := 3 |};
    {| o_id := lit "save-btn"; o_after := 3 |};
    {| o_id := lit "loading"; o_after := 3 |} ].

Definition sample_document : Document :=
  {| doc_form := Some sample_fields;
     doc_tabs := [sample_tab "basic-info" true; sample_tab "career" false;
                  sample_tab "skills" false];
     doc_sections := [sample_section "basic-info" true; sample_section "career" false;
                      sample_section "skills" false];
     doc_edit := Some EDIT_LABEL;
     doc_save := Some (lit "none");
     doc_loading := Some false;
     doc_requestSubmit := true;
     doc_accepts := fun _ => true;
     doc_others := sample_others |}.

(** The state after [DOMContentLoaded] on the sample page. *)
Definition sample_state : Detail.State :=
  match Detail.DOMContentLoaded sample_document with
  | Some st => st
  | None => {| Detail.page := open_page sample_document []; Detail.dirty := false |}
  end.

(** The page of the second variant after [DOMContentLoaded] on the sample
    page. *)
Definition sample_page : Page :=
  match Part000.DOMContentLoaded sample_document with
  | Some p => p
  | None => open_page sample_document []
  end.

(** The same markup with no section and no tab marked active. *)
Definition blank_document : Document :=
  {| doc_form := Some sample_fields;
     doc_tabs := [sample_tab "basic-info" false; sample_tab "career" false];
     doc_sections := [sample_section "basic-info" false; sample_section "career" false];
     doc_edit := Some EDIT_LABEL;
     doc_save := Some (lit "none");
     doc_loading := Some false;
     doc_requestSubmit := true;
     doc_accepts := fun _ => true;
     doc_others := [] |}.

(** The PDF icon: an element of class [tab] with [role="button"]. *)
Definition sample_icon (active : bool) : TabEl :=
  {| t_role := Some (lit "button"); t_target := Some (lit "career");
     t_active := active; t_aria_selected := None |}.

(** The sample markup with the icon behind the three tabs. *)
Definition icon_document (active : bool) : Document :=
  {| doc_form := Some sample_fields;
     doc_tabs := [sample_tab "basic-info" true; sample_tab "career" false;
                  sample_tab "skills" false; sample_icon active];
     doc_sections := [sample_section "basic-info" true; sample_section "career" false;
                      sample_section "skills" false];
     doc_edit := Some EDIT_LABEL;
     doc_save := Some (lit "none");
     doc_loading := Some false;
     doc_requestSubmit := true;
     doc_accepts := fun _ => true;
     doc_others := [] |}.

(** The two files after [DOMContentLoaded] on a page that has the form. *)
Definition loaded (d : Document) : Detail.State :=
  match Detail.DOMContentLoaded d with
  | Some st => st
  | None => {| Detail.page := open_page d []; Detail.dirty := false |}
  end.

Definition loaded_second (d : Document) : Page :=
  match Part000.DOMContentLoaded d with
  | Some p => p
  | None => open_page d []
  end.




(** The sample markup with one more tab, whose target names no section. *)
Definition stray_document : Document :=
  {| doc_form := Some sample_fields;
     doc_tabs := [sample_tab "basic-info" true; sample_tab "awards" false];
     doc_sections := [sample_section "basic-info" true; sample_section "career" false];
     doc_edit := Some EDIT_LABEL;
     doc_save := Some (lit "none");
     doc_loading := Some false;
     doc_requestSubmit := true;
     doc_accepts := fun _ => true;
     doc_others := [] |}.

(* ===================================================================== *)
(** ** Notions used in the further properties *)
(* ===================================================================== *)

(** The code units of a string that are not white space, in order. *)
Definition visible (s : jsstring) : jsstring :=
  filter (fun c => negb (is_space c)) s.

Definition is_empty (s : jsstring) : bool :=
  match s with
  | [] => true
  | _ :: _ => false
  end.

(** The greedy [\s*] with nothing behind it, and the pattern [/,\s*/]: the
    comma pattern of the script without its lookahead. *)
Fixpoint spaces_run (s : jsstring) : nat :=
  match s with
  | c :: t => if is_space c then S (spaces_run t) else 0
  | [] => 0
  end.

Definition match_comma_plain (s : jsstring) : option nat :=
  match s with
  | c :: t => if (c =? COMMA)%N then Some (S (spaces_run t)) else None
  | [] => None
  end.

(** The sample page with one more tab, which has no [data-target]. *)
Definition untargeted_page : Page :=
  set_tabs (tabs (Detail.page sample_state)
            ++ [{| t_role := Some (lit "tab"); t_target := None; t_active := false;
                   t_aria_selected := None |}])
           (Detail.page sample_state).

(** The number of carriage returns in a string. *)
Definition count_cr (s : jsstring) : nat :=
  length (filter (fun c => (c =? CR)%N) s).

(** A value in list format: commas end the string or are followed by one
    newline and a code unit that is not white space, no white space at the
    ends, no three newlines in a row. *)
Definition formatted (s : jsstring) : bool :=
  (commas_followed after_comma_trimmed s
   && negb (starts_with_space s) && negb (ends_with_space s) && no_lf3 s)%bool.

Definition list_format (s : jsstring) : bool :=
  (crlf_free s && formatted s)%bool.

(** The part [proj] of the fields that pass [test], in tree order. *)
Definition select {B : Type} (test : FieldEl -> bool) (proj : FieldEl -> B)
    (fs : list FieldEl) : list B :=
  map proj (filter test fs).

(** The fields outside the NodeList [inputs]. *)
Definition untracked (f : FieldEl) : bool := negb (tracked f).

(** The fields outside the NodeList [listAreas]. *)
Definition not_list_area (f : FieldEl) : bool := negb (is_list_area f).

Definition is_save_click (e : Event) : bool :=
  match e with
  | Click_save => true
  | _ => false
  end.

Definition not_edit_click (e : Event) : bool :=
  match e with
  | Click_edit => false
  | _ => true
  end.

(** The [hidden] property of a section is the negation of its class
    [active]. *)
Definition mirrors (s : SectionEl) : bool := Bool.eqb (s_hidden s) (negb (s_active s)).

Definition has_save (p : Page) : bool :=
  match saveBtn p with
  | Some _ => true
  | None => false
  end.

(** Every pending timer is the deferred normalisation of a list area. *)
Definition pastes_only (p : Page) : bool :=
  forallb (fun t => match task t with
                    | NormalizeTask i =>
                        match nth_error (fields p) i with
                        | Some f => is_list_area f
                        | None => false
                        end
                    | SubmitTask => false
                    end)
          (timers p).

(** Every list area holds a value in list format. *)
Definition areas_formatted (fs : list FieldEl) : bool :=
  forallb (fun f => implb (is_list_area f) (formatted (f_value f))) fs.

(** On every tab with [role="tab"], [aria-selected] says whether the tab
    has the class [active]. *)
Definition aria_synced (ts : list TabEl) : bool :=
  forallb (fun t => implb (is_tab t)
                      (match t_aria_selected t with
                       | Some v => eqs v (String_of_bool (t_active t))
                       | None => false
                       end))
          ts.

(** The tabs with [role="tab"] that have the class [active]. *)
Definition tabs_on (ts : list TabEl) : list TabEl :=
  filter (fun t => (is_tab t && t_active t)%bool) ts.

(* ===================================================================== *)
(** ** Properties of the text normaliser *)
(* ===================================================================== *)

Example normalize_list_example :
  normalizeCommaNewlines (lit "a, b," ++ [LF] ++ lit "c")
  = lit "a," ++ [LF] ++ lit "b," ++ [LF] ++ lit "c".
Proof. reflexivity. Qed.

Example normalize_blank_example :
  normalizeCommaNewlines (lit "a" ++ [LF; LF; LF; LF] ++ lit "b")
  = lit "a" ++ [LF; LF] ++ lit "b".
Proof. reflexivity. Qed.

Example normalize_trailing_comma :
  normalizeCommaNewlines (lit "a,") = lit "a,".
Proof. reflexivity. Qed.

(** The single pass of the first scan on a string that no textarea value
    is: of CR CR LF it leaves CR LF. *)
Example normalize_crcrlf :
  normalizeCommaNewlines (lit "a" ++ [CR; CR; LF] ++ lit "b") = lit "a" ++ [CR; LF] ++ lit "b"
  /\ normalizeCommaNewlines (lit "a" ++ [CR; LF] ++ lit "b") = lit "a" ++ [LF] ++ lit "b".
Proof. split; reflexivity. Qed.

(** *** Code units *)

Lemma space_LF : is_space LF = true.
Proof. reflexivity. Qed.

Lemma space_not_comma c : is_space c = true -> (c =? COMMA)%N = false.
Proof.
  intros H. destruct (N.eqb_spec c COMMA) as [->|]; [discriminate H | reflexivity].
Qed.

Lemma not_space_not_LF c : is_space c = false -> (c =? LF)%N = false.
Proof.
  intros H. destruct (N.eqb_spec c LF) as [->|]; [discriminate H | reflexivity].
Qed.

Lemma LF_not_CR : (LF =? CR)%N = false.
Proof. reflexivity. Qed.

Lemma list_length_ind (P : jsstring -> Prop) :
  (forall s, (forall t, length t < length s -> P t) -> P s) -> forall s, P s.
Proof.
  intros step s.
  assert (H : forall n t, length t < n -> P t).
  { induction n as [|n IH]; intros t Hlt; [lia|].
    apply step. intros u Hu. apply IH. lia. }
  apply (H (S (length s))). lia.
Qed.

(** *** The scan of [replace] *)

Section ReplaceFacts.
Variable m : jsstring -> option nat.
Variable rep : jsstring.
Hypothesis m_nil : m [] = None.

Lemma replace_go_nil k : replace_go m rep k [] = [].
Proof. destruct k; simpl; [rewrite m_nil|]; reflexivity. Qed.

Lemma replace_go_skipn k s :
  replace_go m rep k s = replace_all m rep (skipn k s).
Proof.
  revert s. induction k as [|k IH]; intros s.
  - reflexivity.
  - destruct s as [|c t].
    + simpl. unfold replace_all. simpl. rewrite m_nil. reflexivity.
    + simpl. apply IH.
Qed.

Lemma replace_all_cons c t :
  replace_all m rep (c :: t) =
  match m (c :: t) with
  | Some (S len) => rep ++ replace_all m rep (skipn len t)
  | Some O => rep ++ c :: replace_all m rep t
  | None => c :: replace_all m rep t
  end.
Proof.
  unfold replace_all at 1. simpl.
  destruct (m (c :: t)) as [[|len]|]; try reflexivity.
  rewrite replace_go_skipn. reflexivity.
Qed.
End ReplaceFacts.

Lemma match_spaces_total t :
  exists w, match_spaces_not_lf t = Some w /\ skipn w t = trim_start t.
Proof.
  induction t as [|c t [w [Hw Hs]]].
  - exists 0. split; reflexivity.
  - simpl. destruct (is_space c) eqn:Hc.
    + rewrite Hw. exists (S w). split; [reflexivity | exact Hs].
    + rewrite (not_space_not_LF _ Hc). exists 0. split; reflexivity.
Qed.

(** One step of each of the three scans. *)

Lemma unify_newlines_nil : unify_newlines [] = [].
Proof. reflexivity. Qed.

Lemma unify_newlines_cons c t :
  unify_newlines (c :: t) =
  if ((c =? CR)%N && head_is LF t)%bool then LF :: unify_newlines (tl t)
  else c :: unify_newlines t.
Proof.
  unfold unify_newlines. rewrite replace_all_cons by reflexivity.
  destruct t as [|d u]; simpl.
  - rewrite andb_false_r. reflexivity.
  - destruct ((c =? CR)%N && (d =? LF)%N)%bool; reflexivity.
Qed.

Lemma insert_breaks_nil : insert_breaks [] = [].
Proof. reflexivity. Qed.

Lemma insert_breaks_cons c t :
  insert_breaks (c :: t) =
  if (c =? COMMA)%N then COMMA :: LF :: insert_breaks (trim_start t)
  else c :: insert_breaks t.
Proof.
  unfold insert_breaks. rewrite replace_all_cons by reflexivity.
  unfold match_comma.
  destruct (c =? COMMA)%N; [|reflexivity].
  destruct (match_spaces_total t) as [w [Hw Hs]]. rewrite Hw. simpl.
  rewrite Hs. reflexivity.
Qed.

Lemma squeeze_blank_lines_nil : squeeze_blank_lines [] = [].
Proof. reflexivity. Qed.

Lemma squeeze_blank_lines_cons c t :
  squeeze_blank_lines (c :: t) =
  if 3 <=? lf_run (c :: t)
  then LF :: LF :: squeeze_blank_lines (skipn (lf_run (c :: t)) (c :: t))
  else c :: squeeze_blank_lines t.
Proof.
  unfold squeeze_blank_lines. rewrite replace_all_cons by reflexivity.
  unfold match_lf3.
  destruct (3 <=? lf_run (c :: t)) eqn:H3; [|reflexivity].
  apply Nat.leb_le in H3.
  destruct (lf_run (c :: t)) as [|len] eqn:Hr; [lia|].
  reflexivity.
Qed.

Arguments unify_newlines : simpl never.
Arguments insert_breaks : simpl never.
Arguments squeeze_blank_lines : simpl never.

(** The scans keep the first code unit. *)

Lemma hd_insert_breaks s : hd_error (insert_breaks s) = hd_error s.
Proof.
  destruct s as [|c t]; [reflexivity|].
  rewrite insert_breaks_cons.
  destruct (N.eqb_spec c COMMA) as [->|]; reflexivity.
Qed.

Lemma lf_run_head s : 1 <= lf_run s -> hd_error s = Some LF.
Proof.
  destruct s as [|c t]; simpl; [lia|].
  destruct (N.eqb_spec c LF) as [->|]; [reflexivity | lia].
Qed.

Lemma hd_squeeze_blank_lines s : hd_error (squeeze_blank_lines s) = hd_error s.
Proof.
  destruct s as [|c t]; [reflexivity|].
  rewrite squeeze_blank_lines_cons.
  destruct (3 <=? lf_run (c :: t)) eqn:H3; [|reflexivity].
  apply Nat.leb_le in H3. symmetry. apply lf_run_head. lia.
Qed.

Lemma head_is_hd c s t : hd_error s = hd_error t -> head_is c s = head_is c t.
Proof. destruct s, t; simpl; congruence. Qed.

Lemma head_is_unify_newlines s :
  head_is LF (unify_newlines s) = (head_is LF s || (head_is CR s && head_is LF (tl s)))%bool.
Proof.
  destruct s as [|c t]; [reflexivity|].
  rewrite unify_newlines_cons. simpl.
  destruct (N.eqb_spec c CR) as [->|Hc]; simpl.
  - destruct (head_is LF t); reflexivity.
  - rewrite orb_false_r. reflexivity.
Qed.

(** *** Carriage returns *)

Lemma crlf_free_cons c t :
  crlf_free (c :: t) = (negb ((c =? CR)%N && head_is LF t) && crlf_free t)%bool.
Proof. reflexivity. Qed.

Lemma crlf_free_skipn k s : crlf_free s = true -> crlf_free (skipn k s) = true.
Proof.
  revert s. induction k as [|k IH]; intros s H; [exact H|].
  destruct s as [|c t]; [reflexivity|]. simpl in *.
  apply andb_prop in H. apply IH, H.
Qed.

Lemma crlf_free_trim_start s : crlf_free s = true -> crlf_free (trim_start s) = true.
Proof.
  induction s as [|c t IH]; intros H; [reflexivity|]. simpl.
  destruct (is_space c); [|exact H].
  simpl in H. apply andb_prop in H. apply IH, H.
Qed.

Lemma hd_trim_end s : trim_end s <> [] -> hd_error (trim_end s) = hd_error s.
Proof.
  destruct s as [|c t]; [reflexivity|]. simpl.
  destruct (trim_end t); [destruct (is_space c)|]; intros H; try reflexivity.
  contradiction.
Qed.

Lemma crlf_free_trim_end s : crlf_free s = true -> crlf_free (trim_end s) = true.
Proof.
  induction s as [|c t IH]; intros H; [reflexivity|].
  simpl in H. apply andb_prop in H. destruct H as [Hc Ht].
  specialize (IH Ht). simpl.
  destruct (trim_end t) as [|d r] eqn:Hr.
  - destruct (is_space c); [reflexivity|]. simpl. rewrite andb_false_r. reflexivity.
  - rewrite crlf_free_cons, IH, andb_true_r.
    assert (Hh : hd_error (trim_end t) = hd_error t)
      by (apply hd_trim_end; rewrite Hr; discriminate).
    rewrite Hr in Hh.
    rewrite <- (head_is_hd LF (d :: r) t Hh) in Hc. exact Hc.
Qed.

Lemma crlf_free_trim s : crlf_free s = true -> crlf_free (trim s) = true.
Proof. intros H. apply crlf_free_trim_end, crlf_free_trim_start, H. Qed.

Lemma length_trim_start s : length (trim_start s) <= length s.
Proof.
  induction s as [|c t IH]; simpl; [lia|].
  destruct (is_space c); simpl; lia.
Qed.

Lemma crlf_free_insert_breaks s :
  crlf_free s = true -> crlf_free (insert_breaks s) = true.
Proof.
  induction s as [s IH] using list_length_ind. intros H.
  destruct s as [|c t]; [reflexivity|].
  simpl in H. apply andb_prop in H. destruct H as [Hc Ht].
  rewrite insert_breaks_cons.
  destruct (N.eqb_spec c COMMA) as [->|Hne].
  - simpl. apply IH.
    + simpl. pose proof (length_trim_start t). lia.
    + apply crlf_free_trim_start, Ht.
  - simpl. rewrite (head_is_hd LF _ t (hd_insert_breaks t)), Hc. simpl.
    apply IH; [simpl; lia | exact Ht].
Qed.

Lemma crlf_free_squeeze_blank_lines s :
  crlf_free s = true -> crlf_free (squeeze_blank_lines s) = true.
Proof.
  induction s as [s IH] using list_length_ind. intros H.
  destruct s as [|c t]; [reflexivity|].
  rewrite squeeze_blank_lines_cons.
  destruct (3 <=? lf_run (c :: t)) eqn:H3.
  - apply Nat.leb_le in H3.
    change (crlf_free (squeeze_blank_lines (skipn (lf_run (c :: t)) (c :: t))) = true).
    apply IH.
    + rewrite length_skipn. cbn [length]. lia.
    + apply crlf_free_skipn, H.
  - simpl in H. apply andb_prop in H. destruct H as [Hc Ht].
    simpl. rewrite (head_is_hd LF _ t (hd_squeeze_blank_lines t)), Hc. simpl.
    apply IH; [simpl; lia | exact Ht].
Qed.

Lemma crcrlf_free_tl s : crcrlf_free s = true -> crcrlf_free (tl s) = true.
Proof.
  destruct s as [|c t]; [reflexivity|]. simpl. intros H.
  apply andb_prop in H. apply H.
Qed.

Lemma crlf_free_unify_newlines s :
  crcrlf_free s = true -> crlf_free (unify_newlines s) = true.
Proof.
  induction s as [s IH] using list_length_ind. intros H.
  destruct s as [|c t]; [reflexivity|].
  rewrite unify_newlines_cons.
  pose proof (crcrlf_free_tl _ H) as Ht. simpl in Ht.
  simpl in H. apply andb_prop in H. destruct H as [Hc _].
  destruct ((c =? CR)%N && head_is LF t)%bool eqn:Hm.
  - simpl. apply IH.
    + destruct t; simpl; lia.
    + apply crcrlf_free_tl, Ht.
  - simpl. rewrite IH by (simpl; lia || exact Ht). rewrite andb_true_r.
    rewrite head_is_unify_newlines.
    destruct (c =? CR)%N; [|reflexivity]. simpl in *.
    rewrite Hm. simpl. exact Hc.
Qed.

(** *** Runs of newlines *)

Lemma lf_run_skipn s : lf_run (skipn (lf_run s) s) = 0.
Proof.
  induction s as [|c t IH]; [reflexivity|]. simpl.
  destruct (N.eqb_spec c LF) as [->|Hc]; simpl; [exact IH|].
  destruct (N.eqb_spec c LF); [contradiction | reflexivity].
Qed.

Lemma lf_run_hd a b : hd_error a = hd_error b -> lf_run b = 0 -> lf_run a = 0.
Proof.
  destruct a as [|x a], b as [|y b]; simpl; intros H; try discriminate; auto.
  injection H as ->. destruct (y =? LF)%N; [discriminate | reflexivity].
Qed.

Lemma lf_run_cons c t :
  lf_run (c :: t) = if (c =? LF)%N then S (lf_run t) else 0.
Proof. reflexivity. Qed.

Lemma lf_run_squeeze_blank_lines s :
  lf_run (squeeze_blank_lines s) = if 3 <=? lf_run s then 2 else lf_run s.
Proof.
  induction s as [|c t IH]; [reflexivity|].
  rewrite squeeze_blank_lines_cons.
  destruct (3 <=? lf_run (c :: t)) eqn:H3.
  - assert (Hr : lf_run (squeeze_blank_lines (skipn (lf_run (c :: t)) (c :: t))) = 0).
    { apply (lf_run_hd _ (skipn (lf_run (c :: t)) (c :: t))).
      - apply hd_squeeze_blank_lines.
      - apply lf_run_skipn. }
    set (rest := skipn (lf_run (c :: t)) (c :: t)) in *.
    change (S (S (lf_run (squeeze_blank_lines rest))) = 2).
    rewrite Hr. reflexivity.
  - rewrite lf_run_cons in H3. rewrite !lf_run_cons.
    destruct (c =? LF)%N; [|reflexivity].
    rewrite IH. apply Nat.leb_gt in H3.
    destruct (3 <=? lf_run t) eqn:H4; [apply Nat.leb_le in H4; lia | reflexivity].
Qed.

Lemma no_lf3_cons c t :
  no_lf3 (c :: t) = (negb (3 <=? lf_run (c :: t)) && no_lf3 t)%bool.
Proof. reflexivity. Qed.

Lemma no_lf3_squeeze_blank_lines s : no_lf3 (squeeze_blank_lines s) = true.
Proof.
  induction s as [s IH] using list_length_ind.
  destruct s as [|c t]; [reflexivity|].
  pose proof (lf_run_squeeze_blank_lines (c :: t)) as Hrun.
  rewrite squeeze_blank_lines_cons in *.
  destruct (3 <=? lf_run (c :: t)) eqn:H3.
  - apply Nat.leb_le in H3.
    set (rest := skipn (lf_run (c :: t)) (c :: t)) in *.
    rewrite no_lf3_cons, Hrun. rewrite no_lf3_cons.
    change (lf_run (LF :: LF :: squeeze_blank_lines rest))
      with (S (lf_run (LF :: squeeze_blank_lines rest))) in Hrun.
    injection Hrun as Hrun.
    change (lf_run (LF :: squeeze_blank_lines rest))
      with (S (lf_run (squeeze_blank_lines rest))).
    rewrite Hrun. simpl.
    apply IH. unfold rest. rewrite length_skipn. cbn [length]. lia.
  - rewrite no_lf3_cons, Hrun, H3. simpl. apply IH. simpl. lia.
Qed.

Lemma squeeze_blank_lines_fixed s :
  no_lf3 s = true -> squeeze_blank_lines s = s.
Proof.
  induction s as [|c t IH]; intros H; [reflexivity|].
  rewrite no_lf3_cons in H. apply andb_prop in H. destruct H as [H3 Ht].
  rewrite squeeze_blank_lines_cons.
  destruct (3 <=? lf_run (c :: t)); [discriminate H3|].
  rewrite IH by exact Ht. reflexivity.
Qed.

Lemma no_lf3_nth s i :
  no_lf3 s = true ->
  ~ (nth_error s i = Some LF /\ nth_error s (i + 1) = Some LF
     /\ nth_error s (i + 2) = Some LF).
Proof.
  revert i. induction s as [|c t IH]; intros i H [H0 [H1 H2]].
  - destruct i; discriminate H0.
  - rewrite no_lf3_cons in H. apply andb_prop in H. destruct H as [H3 Ht].
    destruct i as [|i].
    + simpl in H0, H1, H2. injection H0 as ->.
      destruct t as [|d [|e u]]; try discriminate.
      simpl in H1, H2. injection H1 as ->. injection H2 as ->.
      discriminate H3.
    + apply (IH i Ht). simpl in H0, H1, H2. auto.
Qed.

(** *** White space at the ends *)

Lemma hd_trim_start s c : hd_error (trim_start s) = Some c -> is_space c = false.
Proof.
  induction s as [|d t IH]; simpl; [discriminate|].
  destruct (is_space d) eqn:Hd; [exact IH|].
  simpl. intros H. injection H as <-. exact Hd.
Qed.

Lemma last_error_cons c t :
  t <> [] -> last_error (c :: t) = last_error t.
Proof. destruct t; [contradiction | reflexivity]. Qed.

Lemma last_trim_end s c : last_error (trim_end s) = Some c -> is_space c = false.
Proof.
  revert c. induction s as [|d t IH]; intros c; simpl; [discriminate|].
  destruct (trim_end t) as [|e r] eqn:Hr.
  - destruct (is_space d) eqn:Hd; simpl; [discriminate|].
    intros H. injection H as <-. exact Hd.
  - rewrite last_error_cons by discriminate. apply IH.
Qed.

Lemma trimmed_trim s : trimmed (trim s).
Proof.
  unfold trim. split; intros c H.
  - destruct (trim_end (trim_start s)) eqn:Ht; [discriminate|].
    rewrite <- Ht in H. rewrite hd_trim_end in H by (rewrite Ht; discriminate).
    apply (hd_trim_start s), H.
  - apply (last_trim_end _ H).
Qed.

Lemma trim_start_fixed s :
  (forall c, hd_error s = Some c -> is_space c = false) -> trim_start s = s.
Proof.
  destruct s as [|c t]; intros H; [reflexivity|].
  simpl. rewrite (H c eq_refl). reflexivity.
Qed.

Lemma trim_end_fixed s :
  (forall c, last_error s = Some c -> is_space c = false) -> trim_end s = s.
Proof.
  induction s as [|c t IH]; intros H; [reflexivity|]. simpl.
  destruct t as [|d u].
  - simpl. rewrite (H c eq_refl). reflexivity.
  - rewrite IH by (intros e He; apply H; rewrite last_error_cons by discriminate; exact He).
    reflexivity.
Qed.

Lemma trim_end_snoc_LF s : trim_end (s ++ [LF]) = trim_end s.
Proof.
  induction s as [|c t IH]; [reflexivity|].
  simpl. rewrite IH. reflexivity.
Qed.

Lemma squeeze_blank_lines_eq_nil s : squeeze_blank_lines s = [] -> s = [].
Proof.
  intros H. pose proof (hd_squeeze_blank_lines s) as Hh. rewrite H in Hh.
  destruct s; [reflexivity | discriminate].
Qed.

Lemma last_error_skipn k s :
  skipn k s <> [] -> last_error (skipn k s) = last_error s.
Proof.
  revert s. induction k as [|k IH]; intros s H; [reflexivity|].
  destruct s as [|c t]; [reflexivity|].
  simpl in H. rewrite last_error_cons.
  - apply IH, H.
  - intros ->. destruct k; apply H; reflexivity.
Qed.

Lemma last_error_all_lf s :
  s <> [] -> skipn (lf_run s) s = [] -> last_error s = Some LF.
Proof.
  induction s as [|c t IH]; intros Hne H; [contradiction|].
  rewrite lf_run_cons in H.
  destruct (N.eqb_spec c LF) as [->|]; [|discriminate H].
  simpl in H. destruct t as [|d u]; [reflexivity|].
  rewrite last_error_cons by discriminate. apply IH; [discriminate | exact H].
Qed.

Lemma last_squeeze_blank_lines s :
  last_error (squeeze_blank_lines s) = last_error s.
Proof.
  induction s as [s IH] using list_length_ind.
  destruct s as [|c t]; [reflexivity|].
  rewrite squeeze_blank_lines_cons.
  destruct (3 <=? lf_run (c :: t)) eqn:H3.
  - apply Nat.leb_le in H3.
    remember (skipn (lf_run (c :: t)) (c :: t)) as rest eqn:Hrest.
    destruct rest as [|e rest'].
    + symmetry. apply last_error_all_lf; [discriminate | auto].
    + assert (Hsq : squeeze_blank_lines (e :: rest') <> [])
        by (intros Hn; apply squeeze_blank_lines_eq_nil in Hn; discriminate).
      rewrite last_error_cons by discriminate.
      rewrite last_error_cons by exact Hsq.
      rewrite IH.
      * rewrite Hrest. apply last_error_skipn. rewrite <- Hrest. discriminate.
      * assert (Hl : length (e :: rest') = length (c :: t) - lf_run (c :: t))
          by (rewrite Hrest; apply length_skipn).
        rewrite Hl. cbn [length]. lia.
  - destruct t as [|d u]; [reflexivity|].
    rewrite last_error_cons
      by (intros Hn; apply squeeze_blank_lines_eq_nil in Hn; discriminate).
    rewrite last_error_cons by discriminate.
    apply IH. simpl. lia.
Qed.

Lemma trimmed_squeeze_blank_lines s : trimmed s -> trimmed (squeeze_blank_lines s).
Proof.
  intros [Hh Hl]. split; intros c H.
  - apply Hh. rewrite <- hd_squeeze_blank_lines. exact H.
  - apply Hl. rewrite <- last_squeeze_blank_lines. exact H.
Qed.

(** *** Commas *)

Lemma commas_followed_cons ok c t :
  commas_followed ok (c :: t)
  = ((negb (c =? COMMA)%N || ok t) && commas_followed ok t)%bool.
Proof. reflexivity. Qed.

Lemma commas_followed_skipn ok k s :
  commas_followed ok s = true -> commas_followed ok (skipn k s) = true.
Proof.
  revert s. induction k as [|k IH]; intros s H; [exact H|].
  destruct s as [|c t]; [reflexivity|].
  rewrite commas_followed_cons in H. apply andb_prop in H. apply IH, H.
Qed.

Lemma commas_followed_trim_start ok s :
  commas_followed ok s = true -> commas_followed ok (trim_start s) = true.
Proof.
  induction s as [|c t IH]; intros H; [reflexivity|]. simpl.
  destruct (is_space c); [|exact H].
  rewrite commas_followed_cons in H. apply andb_prop in H. apply IH, H.
Qed.

Lemma commas_followed_insert_breaks s :
  commas_followed after_comma_raw (insert_breaks s) = true.
Proof.
  induction s as [s IH] using list_length_ind.
  destruct s as [|c t]; [reflexivity|].
  rewrite insert_breaks_cons.
  destruct (c =? COMMA)%N eqn:Hc.
  - assert (Hlen : length (trim_start t) < length (c :: t))
      by (pose proof (length_trim_start t); simpl; lia).
    rewrite commas_followed_cons, commas_followed_cons, (IH _ Hlen).
    simpl. rewrite andb_true_r.
    pose proof (hd_insert_breaks (trim_start t)) as Hh.
    destruct (insert_breaks (trim_start t)) as [|e u]; [reflexivity|].
    simpl in Hh. symmetry in Hh. apply hd_trim_start in Hh. rewrite Hh. reflexivity.
  - rewrite commas_followed_cons, Hc. simpl. apply IH. simpl. lia.
Qed.

Lemma commas_followed_trim_end s :
  commas_followed after_comma_raw s = true ->
  commas_followed after_comma_trimmed (trim_end s) = true.
Proof.
  induction s as [|c t IH]; intros H; [reflexivity|].
  rewrite commas_followed_cons in H. apply andb_prop in H. destruct H as [Hc Ht].
  specialize (IH Ht). simpl.
  destruct (trim_end t) as [|d r] eqn:Hr.
  - destruct (is_space c); [reflexivity|].
    rewrite commas_followed_cons. simpl. rewrite orb_true_r. reflexivity.
  - rewrite commas_followed_cons, IH, andb_true_r.
    destruct (c =? COMMA)%N; [|reflexivity]. simpl in Hc |- *.
    destruct t as [|x u]; [discriminate Hc|]. simpl in Hc.
    apply andb_prop in Hc. destruct Hc as [Hx Hu].
    apply N.eqb_eq in Hx. subst x.
    simpl in Hr. destruct (trim_end u) as [|e r'] eqn:Hu'; [discriminate Hr|].
    injection Hr as <- <-.
    assert (Hh : hd_error (trim_end u) = hd_error u)
      by (apply hd_trim_end; rewrite Hu'; discriminate).
    rewrite Hu' in Hh. destruct u as [|e' u'']; [discriminate Hh|].
    simpl in Hh. injection Hh as ->.
    change (LF =? LF)%N with true. simpl. exact Hu.
Qed.

Lemma commas_followed_break_after_commas s :
  commas_followed after_comma_trimmed (break_after_commas s) = true.
Proof.
  unfold break_after_commas, trim.
  apply commas_followed_trim_end, commas_followed_trim_start,
    commas_followed_insert_breaks.
Qed.

Lemma squeeze_after_comma t :
  after_comma_trimmed t = true -> after_comma_trimmed (squeeze_blank_lines t) = true.
Proof.
  destruct t as [|d [|e u]]; intros H; [reflexivity | | ].
  { simpl in H. rewrite andb_false_r in H. discriminate H. }
  simpl in H. apply andb_prop in H. destruct H as [Hd He].
  apply N.eqb_eq in Hd. subst d. apply negb_true_iff in He.
  rewrite squeeze_blank_lines_cons.
  rewrite !lf_run_cons, (not_space_not_LF _ He). change (LF =? LF)%N with true.
  cbv iota. simpl Nat.leb. cbv iota.
  pose proof (hd_squeeze_blank_lines (e :: u)) as Hh.
  destruct (squeeze_blank_lines (e :: u)) as [|e' u']; [discriminate Hh|].
  simpl in Hh. injection Hh as ->. simpl. rewrite He. reflexivity.
Qed.

Lemma commas_followed_squeeze_blank_lines s :
  commas_followed after_comma_trimmed s = true ->
  commas_followed after_comma_trimmed (squeeze_blank_lines s) = true.
Proof.
  induction s as [s IH] using list_length_ind. intros H.
  destruct s as [|c t]; [reflexivity|].
  rewrite squeeze_blank_lines_cons.
  destruct (3 <=? lf_run (c :: t)) eqn:H3.
  - apply Nat.leb_le in H3.
    set (rest := skipn (lf_run (c :: t)) (c :: t)).
    rewrite !commas_followed_cons. change (LF =? COMMA)%N with false. simpl.
    apply IH; unfold rest.
    + rewrite length_skipn. cbn [length]. lia.
    + apply commas_followed_skipn, H.
  - rewrite commas_followed_cons in H. apply andb_prop in H. destruct H as [Hc Ht].
    rewrite commas_followed_cons, (IH t) by (simpl; lia || exact Ht).
    rewrite andb_true_r.
    destruct (c =? COMMA)%N; [|reflexivity]. simpl in Hc |- *.
    apply squeeze_after_comma, Hc.
Qed.

Lemma commas_followed_nth s i :
  commas_followed after_comma_trimmed s = true ->
  nth_error s i = Some COMMA ->
  S i = length s \/
  (nth_error s (i + 1) = Some LF /\
   exists c, nth_error s (i + 2) = Some c /\ is_space c = false).
Proof.
  revert i. induction s as [|c t IH]; intros i H Hi.
  - destruct i; discriminate Hi.
  - rewrite commas_followed_cons in H. apply andb_prop in H. destruct H as [Hc Ht].
    destruct i as [|i].
    + simpl in Hi. injection Hi as ->. simpl in Hc.
      destruct t as [|d [|e u]]; simpl in Hc; [left; reflexivity | | ].
      * rewrite andb_false_r in Hc. discriminate Hc.
      * right. apply andb_prop in Hc. destruct Hc as [Hd He].
        apply N.eqb_eq in Hd. subst d. apply negb_true_iff in He.
        split; [reflexivity|]. exists e. split; [reflexivity | exact He].
    + simpl in Hi. destruct (IH i Ht Hi) as [Hl | [H1 [e [H2 He]]]].
      * left. simpl. lia.
      * right. split; [exact H1|]. exists e. split; [exact H2 | exact He].
Qed.

(** *** Values the normaliser leaves alone *)

Lemma unify_newlines_fixed s : crlf_free s = true -> unify_newlines s = s.
Proof.
  induction s as [|c t IH]; intros H; [reflexivity|].
  rewrite crlf_free_cons in H. apply andb_prop in H. destruct H as [Hc Ht].
  rewrite unify_newlines_cons.
  destruct ((c =? CR)%N && head_is LF t)%bool; [discriminate Hc|].
  rewrite IH by exact Ht. reflexivity.
Qed.

Lemma closing_cons c t : t <> [] -> closing (c :: t) = closing t.
Proof. intros H. unfold closing. rewrite last_error_cons by exact H. reflexivity. Qed.

Lemma insert_breaks_closing s :
  commas_followed after_comma_trimmed s = true ->
  insert_breaks s = s ++ closing s.
Proof.
  induction s as [s IH] using list_length_ind. intros H.
  destruct s as [|c t]; [reflexivity|].
  rewrite commas_followed_cons in H. apply andb_prop in H. destruct H as [Hc Ht].
  rewrite insert_breaks_cons.
  destruct (c =? COMMA)%N eqn:Hcc.
  - apply N.eqb_eq in Hcc. subst c. simpl in Hc.
    destruct t as [|d [|e u]]; simpl in Hc; [reflexivity | | ].
    + rewrite andb_false_r in Hc. discriminate Hc.
    + apply andb_prop in Hc. destruct Hc as [Hd He].
      apply N.eqb_eq in Hd. subst d. apply negb_true_iff in He.
      assert (Hts : trim_start (LF :: e :: u) = e :: u) by (simpl; rewrite He; reflexivity).
      rewrite Hts, IH.
      * rewrite (closing_cons COMMA (t := LF :: e :: u)) by discriminate.
        rewrite (closing_cons LF (t := e :: u)) by discriminate. reflexivity.
      * simpl. lia.
      * apply (commas_followed_skipn _ 1 _ Ht).
  - rewrite IH by (simpl; lia || exact Ht).
    destruct t as [|d u].
    + unfold closing. simpl. rewrite Hcc. reflexivity.
    + rewrite (closing_cons c (t := d :: u)) by discriminate. reflexivity.
Qed.

Lemma trim_closing s : trimmed s -> trim (s ++ closing s) = s.
Proof.
  intros [Hh Hl]. unfold trim.
  assert (Hs : trim_start (s ++ closing s) = s ++ closing s).
  { destruct s as [|c t]; [reflexivity|]. simpl.
    rewrite (Hh c eq_refl). reflexivity. }
  rewrite Hs. pose proof (trim_end_fixed s Hl) as Hfix. unfold closing.
  destruct (last_error s) as [c|].
  - destruct (c =? COMMA)%N.
    + rewrite trim_end_snoc_LF. exact Hfix.
    + rewrite app_nil_r. exact Hfix.
  - rewrite app_nil_r. exact Hfix.
Qed.

(** *** The normal form *)

Lemma normal_fixed s : normal s -> normalizeCommaNewlines s = s.
Proof.
  intros [Hcr Hco Htr Hbl]. unfold normalizeCommaNewlines, break_after_commas.
  rewrite (unify_newlines_fixed _ Hcr), (insert_breaks_closing _ Hco),
    (trim_closing Htr).
  apply squeeze_blank_lines_fixed, Hbl.
Qed.

Lemma normalize_commas_followed x :
  commas_followed after_comma_trimmed (normalizeCommaNewlines x) = true.
Proof.
  apply commas_followed_squeeze_blank_lines, commas_followed_break_after_commas.
Qed.

Lemma normalize_trimmed x : trimmed (normalizeCommaNewlines x).
Proof. apply trimmed_squeeze_blank_lines, trimmed_trim. Qed.

Lemma normalize_normal x :
  crcrlf_free x = true -> normal (normalizeCommaNewlines x).
Proof.
  intros H. split.
  - apply crlf_free_squeeze_blank_lines, crlf_free_trim, crlf_free_insert_breaks,
      crlf_free_unify_newlines, H.
  - apply normalize_commas_followed.
  - apply normalize_trimmed.
  - apply no_lf3_squeeze_blank_lines.
Qed.

Lemma no_lf3_skipn s i : no_lf3 s = true -> lf_run (skipn i s) <= 2.
Proof.
  revert i. induction s as [|c t IH]; intros i H.
  - destruct i; simpl; lia.
  - rewrite no_lf3_cons in H. apply andb_prop in H. destruct H as [H3 Ht].
    destruct i as [|i]; [|apply IH, Ht].
    apply negb_true_iff, Nat.leb_gt in H3. simpl skipn. lia.
Qed.

Lemma trimmed_ends s :
  trimmed s -> starts_with_space s = false /\ ends_with_space s = false.
Proof.
  intros [Hh Hl]. unfold starts_with_space, ends_with_space. split.
  - destruct s as [|c t]; [reflexivity | apply Hh; reflexivity].
  - destruct (last_error s) as [c|]; [apply Hl; reflexivity | reflexivity].
Qed.

(** *** The claims about the normaliser *)

(** C2, as amended.  In the value written back, a comma is either the last
    code unit (the result is trimmed after the newlines are put in), or it
    is followed by exactly one newline and then a code unit that is not
    white space: the whole white space behind a comma, newlines included, is
    replaced by one newline.  The list ["a, b,\nc"] becomes ["a,\nb,\nc"]. *)
Theorem C2_comma_then_one_newline :
  forall (x : jsstring) (i : nat),
    nth_error (normalizeCommaNewlines x) i = Some COMMA ->
    (S i = length (normalizeCommaNewlines x) \/
     (nth_error (normalizeCommaNewlines x) (i + 1) = Some LF /\
      exists c, nth_error (normalizeCommaNewlines x) (i + 2) = Some c /\
                is_space c = false))
    /\ normalizeCommaNewlines (lit "a, b," ++ [LF] ++ lit "c")
       = lit "a," ++ [LF] ++ lit "b," ++ [LF] ++ lit "c".
Proof.
  intros x i Hi. split.
  - apply commas_followed_nth; [apply normalize_commas_followed | exact Hi].
  - reflexivity.
Qed.

Lemma C2_comma_then_one_newline_witness :
  nth_error (normalizeCommaNewlines (lit "a, b," ++ [LF] ++ lit "c")) 1 = Some COMMA /\
  nth_error (normalizeCommaNewlines (lit "a, b," ++ [LF] ++ lit "c")) 2 = Some LF.
Proof.
  split; [reflexivity|].
  destruct (C2_comma_then_one_newline (lit "a, b," ++ [LF] ++ lit "c") 1 eq_refl)
    as [[Hlast | [Hlf _]] _].
  - discriminate Hlast.
  - exact Hlf.
Defined.

(** C2 as stated fails: the comma that ends ["a,"] is followed by nothing in
    the value written back; and a comma that a newline already follows is
    not left as it is, the blank line behind it in ["a,\n\nb"] goes. *)
Lemma C2_counterexample :
  (normalizeCommaNewlines (lit "a,") = lit "a," /\
   nth_error (normalizeCommaNewlines (lit "a,")) 1 = Some COMMA /\
   nth_error (normalizeCommaNewlines (lit "a,")) 2 = None) /\
  normalizeCommaNewlines (lit "a," ++ [LF; LF] ++ lit "b")
  = lit "a," ++ [LF] ++ lit "b".
Proof. repeat split. Qed.

(** Normalising twice gives the same value as normalising once for every
    string in which no carriage return is directly followed by a carriage
    return and a newline. *)
Lemma normalize_twice x :
  crcrlf_free x = true ->
  normalizeCommaNewlines (normalizeCommaNewlines x) = normalizeCommaNewlines x.
Proof.
  intros H. apply normal_fixed, normalize_normal, H.
Qed.

Lemma cr_free_crcrlf_free s : cr_free s = true -> crcrlf_free s = true.
Proof.
  induction s as [|c t IH]; intros H; [reflexivity|].
  simpl in H. apply andb_prop in H. destruct H as [Hc Ht].
  simpl. rewrite (IH Ht), andb_true_r.
  apply negb_true_iff in Hc. rewrite Hc. reflexivity.
Qed.

(** C3.  [normalizeCommaNewlines] is idempotent: for every value [x] that
    it can read from a textarea, that is for every string without carriage
    return, normalising twice gives the same value as normalising once. *)
Theorem C3_idempotent :
  forall x : jsstring,
    cr_free x = true ->
    normalizeCommaNewlines (normalizeCommaNewlines x) = normalizeCommaNewlines x.
Proof.
  intros x H. apply normalize_twice, cr_free_crcrlf_free, H.
Qed.

Lemma C3_idempotent_witness :
  cr_free (lit "a, b," ++ [LF; LF; LF] ++ lit "c ") = true /\
  normalizeCommaNewlines
    (normalizeCommaNewlines (lit "a, b," ++ [LF; LF; LF] ++ lit "c "))
  = normalizeCommaNewlines (lit "a, b," ++ [LF; LF; LF] ++ lit "c ").
Proof.
  split; [reflexivity|].
  apply (C3_idempotent (lit "a, b," ++ [LF; LF; LF] ++ lit "c ")).
  reflexivity.
Defined.

(** C4.  The value written back has no three newlines in a row (the run of
    newlines that starts at any position has at most two), begins and ends
    with a code unit that is not white space, and ["a\n\n\n\nb"] becomes
    ["a\n\nb"]. *)
Theorem C4_no_blank_run_no_outer_space :
  forall x : jsstring,
    (forall i, lf_run (skipn i (normalizeCommaNewlines x)) <= 2) /\
    starts_with_space (normalizeCommaNewlines x) = false /\
    ends_with_space (normalizeCommaNewlines x) = false /\
    normalizeCommaNewlines (lit "a" ++ [LF; LF; LF; LF] ++ lit "b")
    = lit "a" ++ [LF; LF] ++ lit "b".
Proof.
  intros x. split; [|split; [|split]].
  - intros i. apply no_lf3_skipn, no_lf3_squeeze_blank_lines.
  - apply trimmed_ends, normalize_trimmed.
  - apply trimmed_ends, normalize_trimmed.
  - reflexivity.
Qed.

(* ===================================================================== *)
(** ** Properties of the edit/save toggle and of the submission *)
(* ===================================================================== *)

Lemma tracked_set_disabled b f : tracked (set_disabled b f) = tracked f.
Proof. reflexivity. Qed.

Lemma inputs_disable_inputs b p :
  inputs (disable_inputs b p) = map (set_disabled b) (inputs p).
Proof.
  unfold inputs, disable_inputs. simpl.
  induction (fields p) as [|f l IH]; [reflexivity|]. simpl.
  destruct (tracked f) eqn:Hf.
  - rewrite tracked_set_disabled, Hf. simpl. rewrite IH. reflexivity.
  - rewrite Hf. exact IH.
Qed.

Lemma values_disable_inputs b p :
  map f_value (fields (disable_inputs b p)) = map f_value (fields p).
Proof.
  unfold disable_inputs. simpl. rewrite map_map. apply map_ext.
  intros f. destruct (tracked f); reflexivity.
Qed.

Lemma Forall_disabled_map b l :
  Forall (fun f => f_disabled f = b) (map (set_disabled b) l).
Proof. induction l; simpl; constructor; auto. Qed.

Lemma Forall_after_disable b p q :
  fields q = fields (disable_inputs b p) ->
  Forall (fun f => f_disabled f = b) (inputs q).
Proof.
  intros H. unfold inputs. rewrite H. fold (inputs (disable_inputs b p)).
  rewrite inputs_disable_inputs. apply Forall_disabled_map.
Qed.

Lemma edit_click_locked st lbl :
  editBtn (Detail.page st) = Some lbl -> locked (Detail.page st) ->
  Detail.edit_click st =
  Detail.on_page (fun p => requestAnimationFrame (section_node (querySelector_active p)) p)
    (Detail.on_page (fun p => match saveBtn p with
                              | Some _ => set_saveBtn (Some (lit "inline-block")) p
                              | None => p
                              end)
       (Detail.on_page (set_editBtn (Some CANCEL_LABEL))
          (Detail.on_page (disable_inputs false) st))).
Proof.
  intros He Hl. unfold Detail.edit_click. rewrite He.
  unfold locked in Hl.
  destruct (inputs (Detail.page st)) as [|el l] eqn:Hin; [reflexivity|].
  inversion Hl as [|? ? Hd _]; subst. rewrite Hd. reflexivity.
Qed.

Lemma edit_click_editing st lbl :
  editBtn (Detail.page st) = Some lbl -> editing (Detail.page st) ->
  Detail.edit_click st =
  Detail.on_page (fun p => match saveBtn p with
                           | Some _ => set_saveBtn (Some (lit "none")) p
                           | None => p
                           end)
    (Detail.on_page (set_editBtn (Some EDIT_LABEL))
       (Detail.set_dirty false (Detail.on_page (disable_inputs true) st))).
Proof.
  intros He [Hne Hl]. unfold Detail.edit_click. rewrite He.
  destruct (inputs (Detail.page st)) as [|el l] eqn:Hin; [contradiction|].
  inversion Hl as [|? ? Hd _]; subst. rewrite Hd. reflexivity.
Qed.

Lemma edit_click_same_page st :
  Part000.edit_click (Detail.page st) = Detail.page (Detail.edit_click st).
Proof.
  unfold Part000.edit_click, Detail.edit_click.
  destruct (editBtn (Detail.page st)); [|reflexivity].
  destruct (match inputs (Detail.page st) with
            | el :: _ => f_disabled el
            | [] => true
            end); reflexivity.
Qed.

Lemma existsb_snoc_self t l : existsb (Timer_eqb t) (l ++ [t]) = true.
Proof.
  rewrite existsb_app. simpl.
  assert (H : Timer_eqb t t = true).
  { unfold Timer_eqb. rewrite Nat.eqb_refl. destruct (task t); simpl;
      [apply Nat.eqb_refl | reflexivity]. }
  rewrite H. rewrite orb_true_r. reflexivity.
Qed.

Lemma filter_tracked_update i g l :
  (forall f, tracked (g f) = tracked f) ->
  (forall f, f_disabled (g f) = f_disabled f) ->
  map f_disabled (filter tracked (update i g l)) = map f_disabled (filter tracked l).
Proof.
  intros Ht Hd. revert i. induction l as [|f l IH]; intros i; [destruct i; reflexivity|].
  destruct i as [|i]; simpl.
  - rewrite Ht. destruct (tracked f); simpl; [rewrite Hd|]; reflexivity.
  - destruct (tracked f); simpl; rewrite IH; reflexivity.
Qed.

Lemma editing_by_flags p q :
  map f_disabled (inputs q) = map f_disabled (inputs p) -> editing p -> editing q.
Proof.
  intros H [Hne Hall]. split.
  - intros Hq. rewrite Hq in H. destruct (inputs p); [contradiction | discriminate H].
  - apply Forall_forall. intros f Hf.
    apply (in_map f_disabled) in Hf. rewrite H in Hf.
    apply in_map_iff in Hf. destruct Hf as [g [Hg Hin]].
    rewrite Forall_forall in Hall. rewrite <- Hg. apply Hall, Hin.
Qed.

Lemma editing_type_into i v p : editing p -> editing (type_into i v p).
Proof.
  apply editing_by_flags. unfold inputs, type_into. simpl.
  apply filter_tracked_update; reflexivity.
Qed.

Lemma dirty_edit_click st :
  Detail.dirty st = false -> Detail.dirty (Detail.edit_click st) = false.
Proof.
  intros H. unfold Detail.edit_click.
  destruct (editBtn (Detail.page st)); [|exact H].
  destruct (match inputs (Detail.page st) with
            | el :: _ => f_disabled el
            | [] => true
            end); [exact H | reflexivity].
Qed.

Lemma dirty_save_click st :
  Detail.dirty (fst (Detail.save_click st)) = Detail.dirty st.
Proof.
  unfold Detail.save_click. destruct (saveBtn (Detail.page st)); reflexivity.
Qed.

Lemma dirty_step_not_input e st :
  not_input e = true -> Detail.dirty st = false ->
  Detail.dirty (fst (Detail.step e st)) = false.
Proof.
  intros He H. destruct e; simpl in *; try discriminate He; try exact H.
  - apply dirty_edit_click, H.
  - rewrite dirty_save_click. exact H.
  - unfold Detail.beforeunload. rewrite H. exact H.
Qed.

Lemma dirty_run_not_input evs st :
  Detail.dirty st = false ->
  Detail.dirty (Detail.run (filter not_input evs) st) = false.
Proof.
  revert st. induction evs as [|e evs IH]; intros st H; [exact H|].
  simpl. destruct (not_input e) eqn:He; [|apply IH, H].
  simpl. apply IH, dirty_step_not_input; assumption.
Qed.

Lemma beforeunload_flag st : snd (Detail.step Beforeunload st) = Detail.dirty st.
Proof. simpl. unfold Detail.beforeunload. destruct (Detail.dirty st); reflexivity. Qed.

(** After [DOMContentLoaded] on the sample page the list area is
    normalised, the tracked fields are disabled and the read-only input is
    left alone. *)
Example sample_state_fields :
  map f_value (fields (Detail.page sample_state))
  = [lit "Kim"; lit "010-1234"; lit "rocq," ++ [LF] ++ lit "js," ++ [LF] ++ lit "c"] /\
  map f_disabled (fields (Detail.page sample_state)) = [false; true; true].
Proof. split; reflexivity. Qed.

(** Without a tracked field the guard [inputs[0] ? inputs[0].disabled : true]
    makes every click take the entering branch. *)
Lemma edit_click_without_inputs st lbl :
  editBtn (Detail.page st) = Some lbl -> inputs (Detail.page st) = [] ->
  editBtn (Detail.page (Detail.edit_click st)) = Some CANCEL_LABEL /\
  Detail.dirty (Detail.edit_click st) = Detail.dirty st.
Proof.
  intros He Hin.
  assert (Hl : locked (Detail.page st)) by (unfold locked; rewrite Hin; constructor).
  rewrite (edit_click_locked st He Hl). simpl.
  destruct (saveBtn (Detail.page st)); split; reflexivity.
Qed.

(** C5.  A click on the edit control while every tracked field is disabled
    enables every tracked field, sets the label to the cancel label and
    shows the save control; a click while the tracked fields are enabled
    disables them all, clears [dirty], sets the label to the edit label and
    hides the save control.  Neither click alters the value of a field.
    The listener of the second variant makes the same changes to the
    page. *)
Theorem C5_edit_toggle :
  forall (a b : Detail.State) (la lb da db : jsstring),
    editBtn (Detail.page a) = Some la ->
    saveBtn (Detail.page a) = Some da ->
    locked (Detail.page a) ->
    editBtn (Detail.page b) = Some lb ->
    saveBtn (Detail.page b) = Some db ->
    editing (Detail.page b) ->
    (Forall (fun f => f_disabled f = false) (inputs (Detail.page (Detail.edit_click a))) /\
     editBtn (Detail.page (Detail.edit_click a)) = Some CANCEL_LABEL /\
     saveBtn (Detail.page (Detail.edit_click a)) = Some (lit "inline-block") /\
     map f_value (fields (Detail.page (Detail.edit_click a)))
     = map f_value (fields (Detail.page a))) /\
    (Forall (fun f => f_disabled f = true) (inputs (Detail.page (Detail.edit_click b))) /\
     Detail.dirty (Detail.edit_click b) = false /\
     editBtn (Detail.page (Detail.edit_click b)) = Some EDIT_LABEL /\
     saveBtn (Detail.page (Detail.edit_click b)) = Some (lit "none") /\
     map f_value (fields (Detail.page (Detail.edit_click b)))
     = map f_value (fields (Detail.page b))) /\
    Part000.edit_click (Detail.page a) = Detail.page (Detail.edit_click a) /\
    Part000.edit_click (Detail.page b) = Detail.page (Detail.edit_click b).
Proof.
  intros a b la lb da db Hea Hsa Hla Heb Hsb Hb.
  split; [|split; [|split; apply edit_click_same_page]].
  - rewrite (edit_click_locked a Hea Hla). simpl. rewrite Hsa. simpl.
    repeat split.
    + apply (Forall_after_disable false (Detail.page a)). reflexivity.
    + apply (values_disable_inputs false (Detail.page a)).
  - rewrite (edit_click_editing b Heb Hb). simpl. rewrite Hsb. simpl.
    repeat split.
    + apply (Forall_after_disable true (Detail.page b)). reflexivity.
    + apply (values_disable_inputs true (Detail.page b)).
Qed.

Lemma C5_edit_toggle_witness :
  locked (Detail.page sample_state) /\
  editing (Detail.page (Detail.edit_click sample_state)) /\
  editBtn (Detail.page (Detail.edit_click sample_state)) = Some CANCEL_LABEL /\
  editBtn (Detail.page (Detail.edit_click (Detail.edit_click sample_state)))
  = Some EDIT_LABEL.
Proof.
  assert (Hl : locked (Detail.page sample_state))
    by (repeat constructor).
  assert (He : editing (Detail.page (Detail.edit_click sample_state)))
    by (split; [discriminate | repeat constructor]).
  split; [exact Hl | split; [exact He|]].
  destruct (C5_edit_toggle sample_state (Detail.edit_click sample_state)
              (la := EDIT_LABEL) (lb := CANCEL_LABEL)
              (da := lit "none") (db := lit "inline-block")
              eq_refl eq_refl Hl eq_refl eq_refl He)
    as [[_ [Hlabel _]] [[_ [_ [Hback _]]] _]].
  split; [exact Hlabel | exact Hback].
Defined.

(** C6.  An input event on a field of the form sets [dirty], in particular
    on a tracked field in edit mode; the [beforeunload] listener prevents
    the default exactly when [dirty] is set; after the cancelling click
    [dirty] is false and, as long as no input event follows, the listener
    never prevents the default. *)
Theorem C6_dirty_and_unload_prompt :
  forall (st : Detail.State) (i : nat) (f : FieldEl) (v lbl : jsstring),
    nth_error (fields (Detail.page st)) i = Some f ->
    tracked f = true ->
    editing (Detail.page st) ->
    editBtn (Detail.page st) = Some lbl ->
    Detail.dirty (fst (Detail.step (Input i v) st)) = true /\
    (forall s, snd (Detail.step Beforeunload s) = Detail.dirty s) /\
    snd (Detail.step Beforeunload (fst (Detail.step (Input i v) st))) = true /\
    Detail.dirty
      (fst (Detail.step Click_edit (fst (Detail.step (Input i v) st)))) = false /\
    (forall evs,
        snd (Detail.step Beforeunload
               (Detail.run (filter not_input evs)
                  (fst (Detail.step Click_edit (fst (Detail.step (Input i v) st))))))
        = false).
Proof.
  intros st i f v lbl Hi Hf Hed Hlbl.
  assert (Hd : Detail.dirty (fst (Detail.step (Input i v) st)) = true).
  { simpl. rewrite Hi. simpl. unfold Detail.form_input. simpl.
    destruct (Detail.dirty st) eqn:E; simpl; [exact E | reflexivity]. }
  assert (Hc : Detail.dirty
                 (fst (Detail.step Click_edit (fst (Detail.step (Input i v) st))))
               = false).
  { simpl. rewrite Hi. simpl.
    set (typed := Detail.form_input (Detail.on_page (type_into i v) st)).
    assert (Hp : Detail.page typed = type_into i v (Detail.page st)).
    { unfold typed, Detail.form_input. simpl. destruct (Detail.dirty st); reflexivity. }
    assert (Hl : editBtn (Detail.page typed) = Some lbl) by (rewrite Hp; exact Hlbl).
    assert (He : editing (Detail.page typed))
      by (rewrite Hp; apply editing_type_into, Hed).
    rewrite (edit_click_editing typed Hl He). reflexivity. }
  split; [exact Hd|]. split; [apply beforeunload_flag|].
  split; [rewrite beforeunload_flag; exact Hd|].
  split; [exact Hc|].
  intros evs. rewrite beforeunload_flag. apply dirty_run_not_input, Hc.
Qed.

Lemma C6_dirty_and_unload_prompt_witness :
  editing (Detail.page (Detail.edit_click sample_state)) /\
  Detail.dirty
    (fst (Detail.step (Input 1 (lit "010-9999")) (Detail.edit_click sample_state)))
  = true.
Proof.
  assert (He : editing (Detail.page (Detail.edit_click sample_state)))
    by (split; [discriminate | repeat constructor]).
  split; [exact He|].
  apply (C6_dirty_and_unload_prompt (Detail.edit_click sample_state) 1
           (f := {| f_tag := INPUT; f_readonly := false; f_auto_list := false;
                    f_auto_grow := false; f_value := lit "010-1234";
                    f_disabled := false |})
           (lit "010-9999") (lbl := CANCEL_LABEL) eq_refl eq_refl He eq_refl).
Defined.

(** C10.  The click listener of the save control leaves [dirty] as it is,
    so a [beforeunload] after the click prevents the default exactly when
    [dirty] was set before the click. *)
Theorem C10_save_keeps_dirty :
  forall st : Detail.State,
    Detail.dirty (fst (Detail.step Click_save st)) = Detail.dirty st /\
    snd (Detail.step Beforeunload (fst (Detail.step Click_save st))) = Detail.dirty st.
Proof.
  intros st. split.
  - apply dirty_save_click.
  - rewrite beforeunload_flag. apply dirty_save_click.
Qed.

(* ===================================================================== *)
(** ** Properties of the tab switcher *)
(* ===================================================================== *)

Lemma nth_error_mapi_from {A B : Type} (f : nat -> A -> B) l n j :
  nth_error (mapi_from f n l) j = option_map (f (n + j)) (nth_error l j).
Proof.
  revert n j. induction l as [|x l IH]; intros n j.
  - destruct j; reflexivity.
  - destruct j as [|j]; simpl.
    + rewrite Nat.add_0_r. reflexivity.
    + rewrite IH. replace (S n + j) with (n + S j) by lia. reflexivity.
Qed.

Lemma nth_error_mapi {A B : Type} (f : nat -> A -> B) l j :
  nth_error (mapi f l) j = option_map (f j) (nth_error l j).
Proof. unfold mapi. rewrite nth_error_mapi_from. reflexivity. Qed.

Lemma length_mapi_from {A B : Type} (f : nat -> A -> B) l n :
  length (mapi_from f n l) = length l.
Proof. revert n. induction l; intros n; simpl; [|rewrite IHl]; reflexivity. Qed.

Lemma tab_array_NoDup p : NoDup (Detail.tab_array p).
Proof. unfold Detail.tab_array. apply NoDup_filter, seq_NoDup. Qed.

Lemma tab_array_In p j :
  In j (Detail.tab_array p) <->
  exists t, nth_error (tabs p) j = Some t /\ is_tab t = true.
Proof.
  unfold Detail.tab_array. rewrite filter_In, in_seq. split.
  - intros [_ H]. destruct (nth_error (tabs p) j) as [t|]; [|discriminate H].
    exists t. split; [reflexivity | exact H].
  - intros [t [Ht Hr]]. split.
    + split; [lia|]. simpl. apply nth_error_Some. rewrite Ht. discriminate.
    + rewrite Ht. exact Hr.
Qed.

Lemma indexOf_nth arr i k :
  NoDup arr -> nth_error arr i = Some k -> Detail.indexOf arr k = Z.of_nat i.
Proof.
  revert i. induction arr as [|y arr IH]; intros i Hnd Hi.
  - destruct i; discriminate Hi.
  - inversion Hnd as [|? ? Hy Hnd']; subst. destruct i as [|i]; simpl in *.
    + injection Hi as ->. rewrite Nat.eqb_refl. reflexivity.
    + destruct (Nat.eqb_spec y k) as [->|Hne].
      * exfalso. apply Hy. apply (nth_error_In _ _ Hi).
      * rewrite (IH i Hnd' Hi).
        destruct (Z.ltb_spec (Z.of_nat i) 0); lia.
Qed.

Lemma at_index_of_nat arr j : Detail.at_index arr (Z.of_nat j) = nth_error arr j.
Proof.
  unfold Detail.at_index.
  destruct (Z.ltb_spec (Z.of_nat j) 0); [lia|]. rewrite Nat2Z.id. reflexivity.
Qed.

Lemma rem_next i n :
  0 < n ->
  Z.rem (Z.of_nat i + 1 + Z.of_nat n) (Z.of_nat n) = Z.of_nat ((i + 1) mod n).
Proof.
  intros Hn. rewrite Z.rem_mod_nonneg by lia.
  replace (Z.of_nat i + 1 + Z.of_nat n)%Z with (Z.of_nat (i + 1 + 1 * n)) by lia.
  rewrite <- Nat2Z.inj_mod. rewrite Nat.Div0.mod_add. reflexivity.
Qed.

Lemma rem_previous i n :
  0 < n ->
  Z.rem (Z.of_nat i + -1 + Z.of_nat n) (Z.of_nat n) = Z.of_nat ((i + n - 1) mod n).
Proof.
  intros Hn. rewrite Z.rem_mod_nonneg by lia.
  replace (Z.of_nat i + -1 + Z.of_nat n)%Z with (Z.of_nat (i + n - 1)) by lia.
  rewrite <- Nat2Z.inj_mod. reflexivity.
Qed.

Lemma eqs_true a b : eqs a b = true <-> a = b.
Proof.
  unfold eqs. destruct (list_eq_dec N.eq_dec a b); split; congruence.
Qed.

Lemma eqs_refl a : eqs a a = true.
Proof. apply eqs_true. reflexivity. Qed.

(** What [activateTab] leaves behind. *)

Lemma activateTab_tab_flags k p :
  map (fun j => option_map t_active (nth_error (tabs (Detail.activateTab k p)) j))
      (Detail.tab_array p)
  = map (fun j => Some (j =? k)) (Detail.tab_array p).
Proof.
  apply map_ext_in. intros j Hj. apply tab_array_In in Hj.
  destruct Hj as [t [Ht Hr]]. unfold Detail.activateTab. simpl.
  rewrite nth_error_mapi, Ht. simpl. rewrite Hr. reflexivity.
Qed.

Lemma activateTab_sections k p :
  sections (Detail.activateTab k p)
  = map (fun s =>
           let active := strict_eq (s_id s)
                           (match nth_error (tabs p) k with
                            | Some tab => t_target tab
                            | None => None
                            end) in
           set_hidden (negb active) (set_section_active active s))
        (sections p).
Proof. reflexivity. Qed.

Lemma activateTab_focused k p :
  focused (Detail.activateTab k p) = focused p.
Proof. reflexivity. Qed.

Lemma tab_keydown_arrow p i k kr kl :
  nth_error (Detail.tab_array p) i = Some k ->
  nth_error (Detail.tab_array p) ((i + 1) mod length (Detail.tab_array p)) = Some kr ->
  nth_error (Detail.tab_array p) ((i + length (Detail.tab_array p) - 1)
                                  mod length (Detail.tab_array p)) = Some kl ->
  forall key,
    Detail.tab_keydown k key p =
    if eqs key (lit "ArrowRight") then (Detail.focus_and_activate kr p, true)
    else if eqs key (lit "ArrowLeft") then (Detail.focus_and_activate kl p, true)
    else (p, false).
Proof.
  intros Hi Hr Hl key.
  assert (Hn : 0 < length (Detail.tab_array p))
    by (apply Nat.le_lt_trans with i; [lia | apply nth_error_Some; rewrite Hi; discriminate]).
  pose proof (@indexOf_nth _ i k (tab_array_NoDup p) Hi) as Hidx.
  destruct (proj1 (tab_array_In p k) (nth_error_In _ _ Hi)) as [t [Ht Htab]].
  unfold Detail.tab_keydown. rewrite Ht, Htab.
  unfold Detail.tab_keydown_listener. rewrite Hidx.
  destruct (eqs key (lit "ArrowRight")) eqn:ER.
  - simpl orb. cbv iota. rewrite (rem_next i Hn), at_index_of_nat, Hr. reflexivity.
  - destruct (eqs key (lit "ArrowLeft")) eqn:EL.
    + simpl orb. cbv iota. rewrite (rem_previous i Hn), at_index_of_nat, Hl. reflexivity.
    + reflexivity.
Qed.



(** *** One section shown *)

Lemma map_mapi_from {A B C : Type} (g : B -> C) (h : A -> C) (f : nat -> A -> B) n l :
  (forall j x, g (f j x) = h x) -> map g (mapi_from f n l) = map h l.
Proof.
  intros H. revert n. induction l as [|x l IH]; intros n; simpl; [reflexivity|].
  rewrite H, IH. reflexivity.
Qed.

Lemma length_filter_map {A B : Type} (f : A -> B) (P : B -> bool) l :
  length (filter P (map f l)) = length (filter (fun x => P (f x)) l).
Proof.
  induction l as [|x l IH]; [reflexivity|]. simpl.
  destruct (P (f x)); simpl; rewrite IH; reflexivity.
Qed.

Lemma activateTab_tab_keys k p :
  map tab_key (tabs (Detail.activateTab k p)) = map tab_key (tabs p).
Proof.
  unfold Detail.activateTab. simpl. unfold mapi. apply map_mapi_from.
  intros j t. destruct (is_tab t); reflexivity.
Qed.

Lemma activateTab_section_ids k p :
  map s_id (sections (Detail.activateTab k p)) = map s_id (sections p).
Proof.
  rewrite activateTab_sections, map_map. reflexivity.
Qed.

Lemma activateTab_one_section_shown k t p :
  nth_error (tabs p) k = Some t ->
  length (named_by (t_target t) (sections p)) = 1 ->
  one_section_shown (sections (Detail.activateTab k p)).
Proof.
  intros Hk Hone. rewrite activateTab_sections, Hk. split.
  - rewrite length_filter_map. exact Hone.
  - apply Forall_forall. intros s Hs. apply in_map_iff in Hs.
    destruct Hs as [s0 [<- _]]. reflexivity.
Qed.

Lemma named_by_ids tgt ss ss' :
  map s_id ss = map s_id ss' ->
  length (named_by tgt ss) = length (named_by tgt ss').
Proof.
  intros H. unfold named_by.
  rewrite <- (length_filter_map s_id (fun id => strict_eq id tgt) ss).
  rewrite <- (length_filter_map s_id (fun id => strict_eq id tgt) ss').
  rewrite H. reflexivity.
Qed.

Lemma tab_keys_lookup ts ts' k t :
  map tab_key ts = map tab_key ts' -> nth_error ts k = Some t ->
  exists t', nth_error ts' k = Some t' /\ tab_key t' = tab_key t.
Proof.
  intros H Hk. apply (map_nth_error tab_key) in Hk. rewrite H in Hk.
  rewrite nth_error_map in Hk.
  destruct (nth_error ts' k) as [t'|]; [|discriminate Hk].
  exists t'. split; [reflexivity|]. simpl in Hk. congruence.
Qed.

Lemma is_tab_key t t' : tab_key t' = tab_key t -> is_tab t' = is_tab t.
Proof. unfold tab_key, is_tab. intros H. injection H as -> _. reflexivity. Qed.

Lemma target_key t t' : tab_key t' = tab_key t -> t_target t' = t_target t.
Proof. unfold tab_key. intros H. injection H as _ ->. reflexivity. Qed.

(** The cases of [form.requestSubmit ? form.requestSubmit() : form.submit()]. *)
Ltac submit_cases :=
  unfold Detail.submit_now, form_requestSubmit, form_submit, send in *;
  cbv zeta in *;
  repeat match goal with
         | |- context [if requestSubmit ?p then _ else _] =>
             destruct (requestSubmit p) eqn:?
         | |- context [if accepts ?p ?fs then _ else _] =>
             destruct (accepts p fs) eqn:?
         end.

(** A submission leaves the elements of the page as they are. *)
Lemma submit_now_fields p : fields (Detail.submit_now p) = fields p.
Proof. submit_cases; reflexivity. Qed.

Lemma submit_now_timers p : timers (Detail.submit_now p) = timers p.
Proof. submit_cases; reflexivity. Qed.

Lemma submit_now_saveBtn p : saveBtn (Detail.submit_now p) = saveBtn p.
Proof. submit_cases; reflexivity. Qed.


Lemma submit_now_requests p :
  submissions (Detail.submit_now p)
  = submissions p ++ [if requestSubmit p then ViaRequestSubmit else ViaSubmit].
Proof. submit_cases; reflexivity. Qed.

(** An event either leaves tabs and sections alone or runs [activateTab] on
    one of the tabs. *)
Lemma step_tabs_sections e st :
  (tabs (Detail.page (fst (Detail.step e st))) = tabs (Detail.page st) /\
   sections (Detail.page (fst (Detail.step e st))) = sections (Detail.page st)) \/
  (exists k t,
      nth_error (tabs (Detail.page st)) k = Some t /\ is_tab t = true /\
      tabs (Detail.page (fst (Detail.step e st)))
      = tabs (Detail.activateTab k (Detail.page st)) /\
      sections (Detail.page (fst (Detail.step e st)))
      = sections (Detail.activateTab k (Detail.page st))).
Proof.
  destruct e as [k|k key|i v|i|i| | | |t|]; simpl.
  - unfold Detail.tab_click.
    destruct (nth_error (tabs (Detail.page st)) k) as [t|] eqn:Hk; [|left; split; reflexivity].
    destruct (is_tab t) eqn:Ht; [|left; split; reflexivity].
    right. exists k, t. repeat split; assumption.
  - unfold Detail.tab_keydown.
    destruct (nth_error (tabs (Detail.page st)) k) as [t|] eqn:Hk; [|left; split; reflexivity].
    destruct (is_tab t) eqn:Ht; [|left; split; reflexivity].
    unfold Detail.tab_keydown_listener.
    destruct (eqs key (lit "ArrowRight") || eqs key (lit "ArrowLeft"))%bool;
      [|left; split; reflexivity].
    match goal with
    | |- context [Detail.at_index ?arr ?z] =>
        destruct (Detail.at_index arr z) as [next|] eqn:Hnext
    end; [|left; split; reflexivity].
    unfold Detail.at_index in Hnext.
    match type of Hnext with
    | (if ?c then _ else _) = _ => destruct c; [discriminate Hnext|]
    end.
    apply nth_error_In, tab_array_In in Hnext. destruct Hnext as [t' [Hk' Ht']].
    right. exists next, t'. repeat split; assumption.
  - destruct (nth_error (fields (Detail.page st)) i); [|left; split; reflexivity].
    unfold Detail.form_input. simpl.
    destruct (negb (Detail.dirty st)); left; split; reflexivity.
  - unfold on_paste. destruct (nth_error (fields (Detail.page st)) i) as [f|];
      [destruct (is_list_area f)|]; left; split; reflexivity.
  - unfold on_blur. destruct (nth_error (fields (Detail.page st)) i) as [f|];
      [destruct (is_list_area f)|]; left; split; reflexivity.
  - rewrite <- edit_click_same_page. unfold Part000.edit_click.
    destruct (editBtn (Detail.page st)); [|left; split; reflexivity].
    destruct (match inputs (Detail.page st) with
              | el :: _ => f_disabled el
              | [] => true
              end); simpl; destruct (saveBtn (Detail.page st));
      left; split; reflexivity.
  - unfold Detail.save_click. destruct (saveBtn (Detail.page st)); simpl;
      [destruct (loading (Detail.page st))|]; submit_cases; left; split; reflexivity.
  - unfold Detail.beforeunload. destruct (Detail.dirty st); left; split; reflexivity.
  - unfold fire. destruct (existsb (Timer_eqb t) (timers (Detail.page st)));
      [destruct (task t)|]; left; split; reflexivity.
  - left; split; reflexivity.
Qed.

Lemma DOMContentLoaded_page d st :
  Detail.DOMContentLoaded d = Some st ->
  tabs (Detail.page st) = doc_tabs d /\
  sections (Detail.page st)
  = map (fun sec => set_hidden (negb (s_active sec)) sec) (doc_sections d) /\
  Detail.dirty st = false.
Proof.
  unfold Detail.DOMContentLoaded. destruct (doc_form d) as [fs|]; [|discriminate].
  intros H. injection H as <-. repeat split.
Qed.

Lemma DOMContentLoaded_inv d st :
  Detail.DOMContentLoaded d = Some st ->
  length (filter s_active (doc_sections d)) = 1 ->
  tabs_sections_inv d (Detail.page st).
Proof.
  intros Hd Hone. destruct (@DOMContentLoaded_page d st Hd) as [Ht [Hs _]].
  unfold tabs_sections_inv. rewrite Ht, Hs. split; [|split; [reflexivity|]].
  - rewrite map_map. reflexivity.
  - split.
    + rewrite length_filter_map. exact Hone.
    + apply Forall_forall. intros s H. apply in_map_iff in H.
      destruct H as [s0 [<- _]]. reflexivity.
Qed.

Lemma activateTab_inv d p k t :
  targets_resolve d -> tabs_sections_inv d p ->
  nth_error (tabs p) k = Some t -> is_tab t = true ->
  tabs_sections_inv d (Detail.activateTab k p).
Proof.
  intros Hres [Hids [Hkeys _]] Hk Ht.
  split; [|split].
  - rewrite activateTab_section_ids. exact Hids.
  - rewrite activateTab_tab_keys. exact Hkeys.
  - apply (@activateTab_one_section_shown k t p Hk).
    destruct (@tab_keys_lookup _ _ k t Hkeys Hk) as [t0 [Hk0 Hkey]].
    rewrite (@named_by_ids _ _ _ Hids).
    rewrite <- (@target_key t t0 Hkey).
    apply Hres.
    + apply (nth_error_In _ _ Hk0).
    + rewrite (@is_tab_key t t0 Hkey). exact Ht.
Qed.

Lemma step_inv d e st :
  targets_resolve d -> tabs_sections_inv d (Detail.page st) ->
  tabs_sections_inv d (Detail.page (fst (Detail.step e st))).
Proof.
  intros Hres Hinv.
  destruct (step_tabs_sections e st) as [[Ht Hs] | [k [t [Hk [Htab [Ht Hs]]]]]].
  - unfold tabs_sections_inv. rewrite Ht, Hs. exact Hinv.
  - pose proof (@activateTab_inv d _ k t Hres Hinv Hk Htab) as H.
    unfold tabs_sections_inv in *. rewrite Ht, Hs. exact H.
Qed.

Lemma run_inv d evs st :
  targets_resolve d -> tabs_sections_inv d (Detail.page st) ->
  tabs_sections_inv d (Detail.page (Detail.run evs st)).
Proof.
  intros Hres. revert st. induction evs as [|e evs IH]; intros st H; [exact H|].
  simpl. apply IH, step_inv; assumption.
Qed.

(** C1, as amended.  When the markup marks exactly one section active and
    every tab names exactly one section, then at every stable point after
    initialisation, and after a call of [activateTab] for any of the tabs,
    exactly one section has the class [active], that section is not hidden
    and every other section is hidden. *)
Theorem C1_one_section_shown :
  forall (d : Document) (st : Detail.State) (evs : list Event),
    Detail.DOMContentLoaded d = Some st ->
    length (filter s_active (doc_sections d)) = 1 ->
    targets_resolve d ->
    one_section_shown (sections (Detail.page (Detail.run evs st))) /\
    Forall (fun k => one_section_shown
                       (sections (Detail.activateTab k (Detail.page (Detail.run evs st)))))
           (Detail.tab_array (Detail.page (Detail.run evs st))).
Proof.
  intros d st evs Hd Hone Hres.
  pose proof (@run_inv d evs st Hres (@DOMContentLoaded_inv d st Hd Hone)) as Hinv.
  split; [apply Hinv|].
  apply Forall_forall. intros k Hk. apply tab_array_In in Hk.
  destruct Hk as [t [Hk Ht]].
  apply (@activateTab_inv d _ k t Hres Hinv Hk Ht).
Qed.

Lemma sample_targets_resolve : targets_resolve sample_document.
Proof.
  intros t Ht _. simpl in Ht.
  destruct Ht as [<- | [<- | [<- | []]]]; reflexivity.
Defined.

Lemma C1_one_section_shown_witness :
  one_section_shown
    (sections (Detail.page
       (Detail.run [Click_tab 1; Keydown_tab 1 (lit "ArrowRight"); Click_edit]
          sample_state))).
Proof.
  apply (@C1_one_section_shown sample_document sample_state
           [Click_tab 1; Keydown_tab 1 (lit "ArrowRight"); Click_edit]
           eq_refl eq_refl sample_targets_resolve).
Defined.

(** C1 as stated fails.  With no section marked active in the markup, no
    section is active after initialisation and the section [basic-info] is
    hidden; and a tab whose target names no section leaves no section
    active. *)
Lemma C1_counterexample :
  (exists st, Detail.DOMContentLoaded blank_document = Some st /\
              ~ one_section_shown (sections (Detail.page st)) /\
              map s_active (sections (Detail.page st)) = [false; false] /\
              map s_hidden (sections (Detail.page st)) = [true; true]) /\
  (exists st, Detail.DOMContentLoaded stray_document = Some st /\
              ~ one_section_shown (sections (Detail.activateTab 1 (Detail.page st))) /\
              map s_active (sections (Detail.activateTab 1 (Detail.page st)))
              = [false; false]).
Proof.
  split; eexists; (split; [reflexivity|]); (split; [|repeat split]);
    intros [H _]; discriminate H.
Qed.

(* ===================================================================== *)
(** ** The two files side by side *)
(* ===================================================================== *)

Lemma map_update {A B : Type} (g : A -> B) (f : A -> A) i l :
  (forall x, g (f x) = g x) -> map g (update i f l) = map g l.
Proof.
  intros H. revert i. induction l as [|x l IH]; intros i; [destruct i; reflexivity|].
  destruct i as [|i]; simpl; [rewrite H | rewrite IH]; reflexivity.
Qed.

Lemma tab_flags_mapi k n l :
  forallb idle_icon l = true ->
  (forall j t, nth_error l j = Some t -> n + j = k -> is_tab t = true) ->
  map t_active
    (mapi_from (fun j t =>
                  if is_tab t then
                    set_aria_selected (String_of_bool (j =? k)) (set_active (j =? k) t)
                  else t) n l)
  = map (fun j => j =? k) (seq n (length l)).
Proof.
  revert n. induction l as [|t l IH]; intros n Hidle Hk; [reflexivity|].
  simpl in Hidle. apply andb_prop in Hidle. destruct Hidle as [Ht Hl].
  simpl. rewrite (IH (S n) Hl).
  - f_equal. destruct (is_tab t) eqn:Etab; [reflexivity|].
    unfold idle_icon in Ht. rewrite Etab in Ht. simpl in Ht.
    apply negb_true_iff in Ht. rewrite Ht.
    destruct (Nat.eqb_spec n k) as [E|]; [|reflexivity].
    rewrite (Hk 0 t eq_refl) in Etab; [discriminate Etab | lia].
  - intros j t' Hj E. apply (Hk (S j) t' Hj). lia.
Qed.

Lemma idle_mapi k n l :
  forallb idle_icon l = true ->
  forallb idle_icon
    (mapi_from (fun j t =>
                  if is_tab t then
                    set_aria_selected (String_of_bool (j =? k)) (set_active (j =? k) t)
                  else t) n l)
  = true.
Proof.
  revert n. induction l as [|t l IH]; intros n H; [reflexivity|].
  simpl in H. apply andb_prop in H. destruct H as [Ht Hl].
  simpl. rewrite (IH (S n) Hl), andb_true_r.
  destruct (is_tab t) eqn:Etab; [|exact Ht].
  unfold idle_icon.
  change (is_tab (set_aria_selected (String_of_bool (n =? k)) (set_active (n =? k) t)))
    with (is_tab t).
  rewrite Etab. reflexivity.
Qed.

Lemma tab_flags_cleared m n l :
  m < n ->
  map t_active (map (set_active false) l) = map (fun j => j =? m) (seq n (length l)).
Proof.
  revert n. induction l as [|x l IH]; intros n Hm; [reflexivity|].
  simpl. rewrite (IH (S n)) by lia.
  destruct (Nat.eqb_spec n m); [lia | reflexivity].
Qed.

Lemma tab_flags_update k n l :
  map t_active (update k (set_active true) (map (set_active false) l))
  = map (fun j => j =? n + k) (seq n (length l)).
Proof.
  revert k n. induction l as [|x l IH]; intros k n; [destruct k; reflexivity|].
  destruct k as [|k]; simpl.
  - rewrite Nat.add_0_r, Nat.eqb_refl. f_equal.
    apply tab_flags_cleared. lia.
  - destruct (Nat.eqb_spec n (n + S k)); [lia|]. f_equal.
    rewrite (IH k (S n)). apply map_ext. intros j.
    replace (S n + k) with (n + S k) by lia. reflexivity.
Qed.

Lemma section_flags_by_ids tgt (f g : bool -> SectionEl -> SectionEl) l l' :
  (forall b s, s_active (f b s) = b) -> (forall b s, s_active (g b s) = b) ->
  map s_id l = map s_id l' ->
  map s_active (map (fun s => f (strict_eq (s_id s) tgt) s) l)
  = map s_active (map (fun s => g (strict_eq (s_id s) tgt) s) l').
Proof.
  intros Hf Hg H. rewrite !map_map.
  rewrite (map_ext _ (fun s => strict_eq (s_id s) tgt) (fun s => Hf _ s)).
  rewrite (map_ext _ (fun s => strict_eq (s_id s) tgt) (fun s => Hg _ s)).
  rewrite <- (map_map s_id (fun id => strict_eq id tgt) l).
  rewrite <- (map_map s_id (fun id => strict_eq id tgt) l').
  rewrite H. reflexivity.
Qed.

Lemma same_length_map {A B C : Type} (f : A -> C) (g : B -> C) l l' :
  map f l = map g l' -> length l = length l'.
Proof. intros H. rewrite <- (length_map f l), H. apply length_map. Qed.

Lemma agree_tab_click k pa pb :
  agree pa pb -> icon_at (tabs pa) k = false ->
  agree (Detail.tab_click k pa) (Part000.tab_click k pb).
Proof.
  intros H Hicon. pose proof H as [Htf Htk Hidle Hsf Hsi Hf He Hs Hl Ht Hsub].
  unfold Detail.tab_click, Part000.tab_click. unfold icon_at in Hicon.
  destruct (nth_error (tabs pa) k) as [t|] eqn:Hk.
  - destruct (@tab_keys_lookup _ _ k t Htk Hk) as [t' [Hk' Hkey]].
    rewrite Hk'.
    assert (Htab : is_tab t = true) by (destruct (is_tab t); [reflexivity | discriminate Hicon]).
    rewrite Htab.
    split; cbn [tabs sections fields editBtn saveBtn loading timers submissions Detail.activateTab set_tabs set_sections requestAnimationFrame set_frames pending_submits]; try assumption.
    + unfold mapi. rewrite (@tab_flags_mapi k 0 (tabs pa) Hidle).
      * rewrite (tab_flags_update k 0).
        rewrite (same_length_map _ _ _ _ Htk). reflexivity.
      * intros j u Hj E. simpl in E. subst j. rewrite Hk in Hj.
        injection Hj as <-. exact Htab.
    + rewrite (map_update tab_key (set_active true)) by reflexivity.
      rewrite map_map. unfold mapi.
      rewrite (map_mapi_from tab_key tab_key); [exact Htk|].
      intros j x. destruct (is_tab x); reflexivity.
    + unfold mapi. apply idle_mapi, Hidle.
    + rewrite Hk. rewrite (@target_key t t' Hkey).
      apply (section_flags_by_ids (t_target t)
               (fun b s => set_hidden (negb b) (set_section_active b s))
               (fun b s => set_section_active b s)); auto.
    + rewrite !map_map. exact Hsi.
  - assert (Hk' : nth_error (tabs pb) k = None).
    { apply nth_error_None. rewrite <- (same_length_map _ _ _ _ Htk).
      apply nth_error_None, Hk. }
    rewrite Hk'. exact H.
Qed.

Ltac page_cbn :=
  cbn [tabs sections fields editBtn saveBtn loading focused requestSubmit timers
       frames submissions sent accepts others
       set_tabs set_sections set_fields set_editBtn set_saveBtn
       set_loading set_focused set_timers set_frames set_submissions set_sent
       requestAnimationFrame setTimeout normalize_listAreas disable_inputs
       type_into animation_frame run_task send form_submit
       Detail.page Detail.dirty Detail.on_page Detail.set_dirty fst snd] in *.

(** Agreement only looks at tabs, sections, fields, the three controls,
    the timers and the submissions. *)
Lemma agree_frame pa pb pa' pb' :
  agree pa pb ->
  tabs pa' = tabs pa -> tabs pb' = tabs pb ->
  sections pa' = sections pa -> sections pb' = sections pb ->
  fields pa' = fields pb' -> editBtn pa' = editBtn pb' ->
  saveBtn pa' = saveBtn pb' -> loading pa' = loading pb' ->
  timers pa' = timers pa -> timers pb' = timers pb ->
  length (submissions pa') = length (submissions pa) ->
  length (submissions pb') = length (submissions pb) ->
  agree pa' pb'.
Proof.
  intros [Htf Htk Hall Hsf Hsi Hf He Hs Hl Ht Hsub] A1 A2 A3 A4 A5 A6 A7 A8 A9 A10 A11 A12.
  split; unfold pending_submits in *; rewrite ?A1, ?A2, ?A3, ?A4, ?A9, ?A10, ?A11, ?A12;
    assumption.
Qed.

Lemma agree_edit_click pa pb :
  agree pa pb -> agree (Part000.edit_click pa) (Part000.edit_click pb).
Proof.
  intros H. pose proof H as [Htf Htk Hall Hsf Hsi Hf He Hs Hl Ht Hsub].
  unfold Part000.edit_click, inputs. rewrite He, Hf.
  destruct (editBtn pb); [|exact H].
  destruct (match filter tracked (fields pb) with
            | el :: _ => f_disabled el
            | [] => true
            end); page_cbn; rewrite Hs; destruct (saveBtn pb) eqn:Hsb;
    apply (@agree_frame _ _ _ _ H); page_cbn; try reflexivity; congruence.
Qed.

Lemma agree_type_into i v pa pb :
  agree pa pb -> agree (type_into i v pa) (type_into i v pb).
Proof.
  intros H. apply (@agree_frame _ _ _ _ H); page_cbn; try reflexivity; try apply H.
  rewrite (ag_fields H). reflexivity.
Qed.

Lemma agree_on_blur i pa pb :
  agree pa pb -> agree (on_blur i pa) (on_blur i pb).
Proof.
  intros H. unfold on_blur. rewrite (ag_fields H).
  destruct (nth_error (fields pb) i) as [f|]; [|exact H].
  destruct (is_list_area f); [|exact H].
  apply (@agree_frame _ _ _ _ H); page_cbn; try reflexivity; try apply H.
Qed.

Lemma agree_animation_frame pa pb :
  agree pa pb -> agree (animation_frame pa) (animation_frame pb).
Proof.
  intros H. apply (@agree_frame _ _ _ _ H); page_cbn; try reflexivity; apply H.
Qed.

Lemma filter_snoc {A : Type} (P : A -> bool) l x :
  filter P (l ++ [x]) = filter P l ++ (if P x then [x] else []).
Proof. rewrite filter_app. reflexivity. Qed.

Lemma agree_on_paste i pa pb :
  agree pa pb -> agree (on_paste i pa) (on_paste i pb).
Proof.
  intros H. unfold on_paste. rewrite (ag_fields H).
  destruct (nth_error (fields pb) i) as [f|]; [|exact H].
  destruct (is_list_area f); [|exact H].
  pose proof H as [Htf Htk Hall Hsf Hsi Hf He Hs Hl Ht Hsub].
  split; unfold pending_submits in *; page_cbn; try assumption.
  - rewrite Ht, filter_snoc. reflexivity.
  - rewrite filter_snoc. simpl. rewrite app_nil_r. exact Hsub.
Qed.

Lemma agree_save_click st pb :
  agree (Detail.page st) pb ->
  agree (Detail.page (fst (Detail.save_click st))) (fst (Part000.save_click pb)).
Proof.
  intros H. pose proof H as [Htf Htk Hall Hsf Hsi Hf He Hs Hl Ht Hsub].
  unfold Detail.save_click, Part000.save_click. rewrite Hs.
  destruct (saveBtn pb) eqn:Hsb; [|exact H]. page_cbn. rewrite Hl.
  destruct (loading pb) eqn:Hlb; submit_cases; split; unfold pending_submits in *;
    page_cbn; try assumption; try congruence;
    try (rewrite Ht, filter_snoc; simpl; rewrite app_nil_r; reflexivity);
    rewrite filter_snoc, !length_app; simpl; lia.
Qed.

(** *** Timers *)

Lemma Task_eqb_eq a b : Task_eqb a b = true <-> a = b.
Proof.
  destruct a as [i|], b as [j|]; simpl; split; intros H;
    try discriminate; try reflexivity.
  - apply Nat.eqb_eq in H. subst. reflexivity.
  - injection H as ->. apply Nat.eqb_refl.
Qed.

Lemma Timer_eqb_eq a b : Timer_eqb a b = true <-> a = b.
Proof.
  unfold Timer_eqb. rewrite andb_true_iff, Nat.eqb_eq, Task_eqb_eq.
  destruct a, b; simpl. split.
  - intros [-> ->]. reflexivity.
  - intros H. injection H as -> ->. split; reflexivity.
Qed.

Lemma existsb_kept t l :
  is_submit t = false ->
  existsb (Timer_eqb t) (filter (fun x => negb (is_submit x)) l)
  = existsb (Timer_eqb t) l.
Proof.
  intros Ht. induction l as [|x l IH]; [reflexivity|]. simpl.
  destruct (is_submit x) eqn:Hx; simpl; rewrite IH; [|reflexivity].
  destruct (Timer_eqb t x) eqn:E; [|reflexivity].
  apply Timer_eqb_eq in E. subst x. congruence.
Qed.

Lemma existsb_dropped t l :
  is_submit t = true ->
  existsb (Timer_eqb t) (filter (fun x => negb (is_submit x)) l) = false.
Proof.
  intros Ht. induction l as [|x l IH]; [reflexivity|]. simpl.
  destruct (is_submit x) eqn:Hx; simpl; [exact IH|]. rewrite IH.
  destruct (Timer_eqb t x) eqn:E; [|reflexivity].
  apply Timer_eqb_eq in E. subst x. congruence.
Qed.

Lemma remove_first_kept t l :
  is_submit t = false ->
  remove_first t (filter (fun x => negb (is_submit x)) l)
  = filter (fun x => negb (is_submit x)) (remove_first t l).
Proof.
  intros Ht. induction l as [|x l IH]; [reflexivity|]. simpl.
  destruct (Timer_eqb t x) eqn:E.
  - apply Timer_eqb_eq in E. subst x. rewrite Ht. simpl.
    rewrite (proj2 (Timer_eqb_eq t t) eq_refl). reflexivity.
  - destruct (is_submit x) eqn:Hx; simpl; rewrite ?E, ?Hx; simpl; rewrite IH; reflexivity.
Qed.

Lemma pending_after_kept t l :
  is_submit t = false ->
  filter is_submit (remove_first t l) = filter is_submit l.
Proof.
  intros Ht. induction l as [|x l IH]; [reflexivity|]. simpl.
  destruct (Timer_eqb t x) eqn:E.
  - apply Timer_eqb_eq in E. subst x. rewrite Ht. reflexivity.
  - simpl. rewrite IH. reflexivity.
Qed.

Lemma kept_after_submit t l :
  is_submit t = true ->
  filter (fun x => negb (is_submit x)) (remove_first t l)
  = filter (fun x => negb (is_submit x)) l.
Proof.
  intros Ht. induction l as [|x l IH]; [reflexivity|]. simpl.
  destruct (Timer_eqb t x) eqn:E.
  - apply Timer_eqb_eq in E. subst x. rewrite Ht. reflexivity.
  - simpl. rewrite IH. reflexivity.
Qed.

Lemma pending_after_submit t l :
  is_submit t = true -> existsb (Timer_eqb t) l = true ->
  S (length (filter is_submit (remove_first t l))) = length (filter is_submit l).
Proof.
  intros Ht. induction l as [|x l IH]; intros H; [discriminate H|]. simpl in *.
  destruct (Timer_eqb t x) eqn:E.
  - apply Timer_eqb_eq in E. subst x. rewrite Ht. reflexivity.
  - simpl in H. simpl. destruct (is_submit x); simpl; rewrite <- (IH H); reflexivity.
Qed.

Lemma agree_fire t pa pb : agree pa pb -> agree (fire t pa) (fire t pb).
Proof.
  intros H. pose proof H as [Htf Htk Hall Hsf Hsi Hf He Hs Hl Ht Hsub].
  unfold fire. rewrite Ht.
  destruct (is_submit t) eqn:Hsubmit.
  - rewrite (@existsb_dropped t _ Hsubmit).
    destruct (existsb (Timer_eqb t) (timers pb)) eqn:Hex; [|exact H].
    unfold is_submit in Hsubmit. destruct (task t) eqn:Htask; [discriminate Hsubmit|].
    assert (Hsub' : is_submit t = true) by (unfold is_submit; rewrite Htask; reflexivity).
    split; unfold pending_submits in *; page_cbn; try assumption.
    + rewrite (@kept_after_submit t _ Hsub'). exact Ht.
    + rewrite length_app. simpl.
      pose proof (@pending_after_submit t _ Hsub' Hex). lia.
  - rewrite (@existsb_kept t _ Hsubmit).
    destruct (existsb (Timer_eqb t) (timers pb)) eqn:Hex; [|exact H].
    unfold is_submit in Hsubmit. destruct (task t) eqn:Htask; [|discriminate Hsubmit].
    assert (Hsub' : is_submit t = false) by (unfold is_submit; rewrite Htask; reflexivity).
    split; unfold pending_submits in *; page_cbn; try assumption.
    + rewrite Hf. reflexivity.
    + apply (@remove_first_kept t _ Hsub').
    + rewrite (@pending_after_kept t _ Hsub'). exact Hsub.
Qed.

(** *** Initialisation and the run *)

Lemma agree_DOMContentLoaded d a b :
  forallb idle_icon (doc_tabs d) = true ->
  Detail.DOMContentLoaded d = Some a ->
  Part000.DOMContentLoaded d = Some b ->
  agree (Detail.page a) b.
Proof.
  intros Hidle. unfold Detail.DOMContentLoaded, Part000.DOMContentLoaded.
  destruct (doc_form d) as [fs|]; [|discriminate].
  intros Ha Hb. injection Ha as <-. injection Hb as <-.
  page_cbn. destruct (querySelector_active (normalize_listAreas (open_page d fs)));
    split; page_cbn; try reflexivity; try exact Hidle.
  - rewrite !map_map. reflexivity.
  - rewrite !map_map. reflexivity.
  - rewrite !map_map. reflexivity.
  - rewrite !map_map. reflexivity.
Qed.

Lemma tab_keydown_other k key p :
  (arrow_key key && tab_at (tabs p) k)%bool = false ->
  Detail.tab_keydown k key p = (p, false).
Proof.
  intros H. unfold Detail.tab_keydown, Detail.tab_keydown_listener.
  fold (arrow_key key). unfold tab_at in H.
  destruct (nth_error (tabs p) k) as [t|]; [|reflexivity].
  destruct (is_tab t); [|reflexivity].
  rewrite andb_true_r in H. rewrite H. reflexivity.
Qed.

Lemma agree_step e a b :
  shared_event (tabs (Detail.page a)) e = true ->
  agree (Detail.page a) b ->
  agree (Detail.page (fst (Detail.step e a))) (fst (Part000.step e b)).
Proof.
  intros He H. destruct e as [k|k key|i v|i|i| | | |t|]; cbn [Detail.step Part000.step fst].
  - simpl in He. apply negb_true_iff in He. apply agree_tab_click; assumption.
  - simpl in He. apply negb_true_iff in He.
    rewrite (@tab_keydown_other k key (Detail.page a) He). exact H.
  - rewrite (ag_fields H).
    destruct (nth_error (fields b) i); [|exact H].
    unfold Detail.form_input.
    destruct (negb (Detail.dirty (Detail.on_page (type_into i v) a)));
      apply agree_type_into, H.
  - apply agree_on_paste, H.
  - apply agree_on_blur, H.
  - rewrite <- edit_click_same_page. apply agree_edit_click, H.
  - apply agree_save_click, H.
  - unfold Detail.beforeunload. destruct (Detail.dirty a); exact H.
  - apply agree_fire, H.
  - apply agree_animation_frame, H.
Qed.

(** The roles of the elements of class [tab] are never written, so which
    events both files treat alike is decided by the markup. *)
Lemma step_tab_keys e st :
  map tab_key (tabs (Detail.page (fst (Detail.step e st))))
  = map tab_key (tabs (Detail.page st)).
Proof.
  destruct (step_tabs_sections e st) as [[Ht _] | [k [t [_ [_ [Ht _]]]]]]; rewrite Ht.
  - reflexivity.
  - apply activateTab_tab_keys.
Qed.

Lemma tab_at_keys ts ts' k :
  map tab_key ts = map tab_key ts' -> tab_at ts k = tab_at ts' k.
Proof.
  intros H. unfold tab_at.
  destruct (nth_error ts k) as [t|] eqn:Hk.
  - destruct (@tab_keys_lookup _ _ k t H Hk) as [t' [Hk' Hkey]].
    rewrite Hk'. symmetry. apply is_tab_key, Hkey.
  - assert (Hk' : nth_error ts' k = None).
    { apply nth_error_None. rewrite <- (same_length_map _ _ _ _ H).
      apply nth_error_None, Hk. }
    rewrite Hk'. reflexivity.
Qed.

Lemma icon_at_keys ts ts' k :
  map tab_key ts = map tab_key ts' -> icon_at ts k = icon_at ts' k.
Proof.
  intros H. unfold icon_at.
  destruct (nth_error ts k) as [t|] eqn:Hk.
  - destruct (@tab_keys_lookup _ _ k t H Hk) as [t' [Hk' Hkey]].
    rewrite Hk'. f_equal. symmetry. apply is_tab_key, Hkey.
  - assert (Hk' : nth_error ts' k = None).
    { apply nth_error_None. rewrite <- (same_length_map _ _ _ _ H).
      apply nth_error_None, Hk. }
    rewrite Hk'. reflexivity.
Qed.

Lemma shared_event_keys ts ts' e :
  map tab_key ts = map tab_key ts' -> shared_event ts e = shared_event ts' e.
Proof.
  intros H. destruct e; simpl; try reflexivity.
  - rewrite (icon_at_keys _ _ _ H). reflexivity.
  - rewrite (tab_at_keys _ _ _ H). reflexivity.
Qed.

Lemma agree_run ts evs a b :
  map tab_key (tabs (Detail.page a)) = map tab_key ts ->
  forallb (shared_event ts) evs = true ->
  agree (Detail.page a) b ->
  agree (Detail.page (Detail.run evs a)) (Part000.run evs b).
Proof.
  revert a b. induction evs as [|e evs IH]; intros a b Hts He H; [exact H|].
  simpl in He. apply andb_prop in He. destruct He as [He Hevs].
  simpl. apply IH; [|exact Hevs|].
  - rewrite step_tab_keys. exact Hts.
  - apply agree_step; [|exact H].
    rewrite (shared_event_keys _ _ e Hts). exact He.
Qed.

Lemma agree_shared_view pa pb : agree pa pb -> shared_view pa = shared_view pb.
Proof.
  intros [Htf Htk Hall Hsf Hsi Hf He Hs Hl Ht Hsub]. unfold shared_view.
  rewrite Htf, Hsf, Hf, He, Hs, Hl. reflexivity.
Qed.

(** C9, as amended.  On a page whose elements of class [tab] that are not
    tabs (the PDF icon with [role="button"]) do not have the class [active]
    in the markup, and under every sequence of events without a click on
    such an element and without an arrow key pressed on a tab, the two
    files keep the same field values and disabled flags, the same [active]
    classes on tabs and sections, the same edit label, save-control display
    and loading class; and the submissions [employee_detail.js] has
    requested are as many as those the second variant has requested or
    still has waiting in a timer. *)
Theorem C9_variants_agree :
  forall (d : Document) (a : Detail.State) (b : Page) (evs : list Event),
    forallb idle_icon (doc_tabs d) = true ->
    Detail.DOMContentLoaded d = Some a ->
    Part000.DOMContentLoaded d = Some b ->
    forallb (shared_event (doc_tabs d)) evs = true ->
    shared_view (Detail.page (Detail.run evs a)) = shared_view (Part000.run evs b) /\
    length (submissions (Detail.page (Detail.run evs a)))
    = length (submissions (Part000.run evs b)) + pending_submits (Part000.run evs b).
Proof.
  intros d a b evs Hidle Ha Hb Hevs.
  assert (Hts : map tab_key (tabs (Detail.page a)) = map tab_key (doc_tabs d)).
  { destruct (DOMContentLoaded_page d Ha) as [Ht _]. rewrite Ht. reflexivity. }
  pose proof (@agree_run (doc_tabs d) evs a b Hts Hevs
                (@agree_DOMContentLoaded d a b Hidle Ha Hb)) as H.
  split; [apply agree_shared_view, H | apply H].
Qed.

Lemma C9_variants_agree_witness :
  shared_view
    (Detail.page
       (Detail.run [Click_tab 1; Keydown_tab 3 (lit "ArrowRight"); Click_edit;
                    Input 2 (lit "x, y"); Blur 2; Click_save]
          (loaded (icon_document false))))
  = shared_view
      (Part000.run [Click_tab 1; Keydown_tab 3 (lit "ArrowRight"); Click_edit;
                    Input 2 (lit "x, y"); Blur 2; Click_save]
         (loaded_second (icon_document false))).
Proof.
  apply (@C9_variants_agree (icon_document false) (loaded (icon_document false))
           (loaded_second (icon_document false))
           [Click_tab 1; Keydown_tab 3 (lit "ArrowRight"); Click_edit;
            Input 2 (lit "x, y"); Blur 2; Click_save]).
  - reflexivity.
  - reflexivity.
  - reflexivity.
  - reflexivity.
Defined.

(** C9 as stated fails.  After initialisation of the sample page
    [employee_detail.js] has hidden the two inactive sections and the
    second variant has hidden none; after a click on the edit control and
    one on the save control the first has requested the submission and the
    second has only started a timer; and ArrowRight on the first tab
    activates the second tab in the first file only.  The icon tells the
    files apart as well: a click on it activates it and the section it
    names in the second variant only, and when the markup gives it the
    class [active] a click on a tab takes that class away in the second
    variant only. *)
Lemma C9_counterexample :
  (map s_hidden (sections (Detail.page sample_state)) = [false; true; true] /\
   map s_hidden (sections sample_page) = [false; false; false] /\
   sections (Detail.page sample_state) <> sections sample_page) /\
  (submissions (Detail.page (Detail.run [Click_edit; Click_save] sample_state))
   = [ViaRequestSubmit] /\
   submissions (Part000.run [Click_edit; Click_save] sample_page) = []) /\
  (map t_active
     (tabs (Detail.page (Detail.run [Keydown_tab 0 (lit "ArrowRight")] sample_state)))
   = [false; true; false] /\
   map t_active (tabs (Part000.run [Keydown_tab 0 (lit "ArrowRight")] sample_page))
   = [true; false; false]) /\
  (shared_view (Detail.page (Detail.run [Click_tab 3] (loaded (icon_document false))))
   = shared_view (Detail.page (loaded (icon_document false))) /\
   map t_active (tabs (Part000.run [Click_tab 3] (loaded_second (icon_document false))))
   = [false; false; false; true] /\
   map s_active (sections (Part000.run [Click_tab 3] (loaded_second (icon_document false))))
   = [false; true; false]) /\
  (map t_active
     (tabs (Detail.page (Detail.run [Click_tab 1] (loaded (icon_document true)))))
   = [false; true; false; true] /\
   map t_active (tabs (Part000.run [Click_tab 1] (loaded_second (icon_document true))))
   = [false; true; false; false]).
Proof.
  repeat split. intros H. apply (f_equal (map s_hidden)) in H. discriminate H.
Qed.

(* ===================================================================== *)
(** ** Further properties of the text normaliser *)
(* ===================================================================== *)

Lemma visible_cons c t :
  visible (c :: t) = if is_space c then visible t else c :: visible t.
Proof. unfold visible. simpl. destruct (is_space c); reflexivity. Qed.

Arguments visible : simpl never.

Lemma space_CR : is_space CR = true.
Proof. reflexivity. Qed.

Lemma visible_trim_start s : visible (trim_start s) = visible s.
Proof.
  induction s as [|c t IH]; [reflexivity|]. simpl.
  destruct (is_space c) eqn:Hc; [|reflexivity].
  rewrite IH, visible_cons, Hc. reflexivity.
Qed.

Lemma visible_trim_end s : visible (trim_end s) = visible s.
Proof.
  induction s as [|c t IH]; [reflexivity|]. simpl.
  rewrite visible_cons, <- IH.
  destruct (trim_end t) as [|d r].
  - destruct (is_space c) eqn:Hc; [reflexivity|].
    rewrite visible_cons, Hc. reflexivity.
  - rewrite visible_cons. reflexivity.
Qed.

Lemma visible_skip_lf s : visible (skipn (lf_run s) s) = visible s.
Proof.
  induction s as [|c t IH]; [reflexivity|]. rewrite lf_run_cons.
  destruct (N.eqb_spec c LF) as [->|]; [|reflexivity].
  simpl skipn. rewrite IH, visible_cons, space_LF. reflexivity.
Qed.

Lemma visible_unify_newlines s : visible (unify_newlines s) = visible s.
Proof.
  induction s as [s IH] using list_length_ind.
  destruct s as [|c t]; [reflexivity|].
  rewrite unify_newlines_cons.
  destruct ((c =? CR)%N && head_is LF t)%bool eqn:Hm.
  - apply andb_prop in Hm. destruct Hm as [Hc Ht].
    apply N.eqb_eq in Hc. subst c.
    destruct t as [|d u]; [discriminate Ht|]. simpl in Ht.
    apply N.eqb_eq in Ht. subst d. simpl tl.
    rewrite !visible_cons, space_LF, space_CR. apply IH. simpl. lia.
  - rewrite !visible_cons, IH by (simpl; lia). reflexivity.
Qed.

Lemma visible_insert_breaks s : visible (insert_breaks s) = visible s.
Proof.
  induction s as [s IH] using list_length_ind.
  destruct s as [|c t]; [reflexivity|].
  rewrite insert_breaks_cons.
  destruct (N.eqb_spec c COMMA) as [->|Hne].
  - rewrite !visible_cons, space_LF. change (is_space COMMA) with false. cbv iota.
    rewrite IH by (pose proof (length_trim_start t); simpl; lia).
    rewrite visible_trim_start. reflexivity.
  - rewrite !visible_cons, IH by (simpl; lia). reflexivity.
Qed.

Lemma visible_squeeze_blank_lines s : visible (squeeze_blank_lines s) = visible s.
Proof.
  induction s as [s IH] using list_length_ind.
  destruct s as [|c t]; [reflexivity|].
  rewrite squeeze_blank_lines_cons.
  destruct (3 <=? lf_run (c :: t)) eqn:H3.
  - apply Nat.leb_le in H3.
    set (rest := skipn (lf_run (c :: t)) (c :: t)).
    rewrite (visible_cons LF), (visible_cons LF), space_LF.
    rewrite IH by (unfold rest; rewrite length_skipn; cbn [length]; lia).
    apply visible_skip_lf.
  - rewrite !visible_cons, IH by (simpl; lia). reflexivity.
Qed.

Lemma visible_normalize x : visible (normalizeCommaNewlines x) = visible x.
Proof.
  unfold normalizeCommaNewlines, break_after_commas, trim.
  rewrite visible_squeeze_blank_lines, visible_trim_end, visible_trim_start,
    visible_insert_breaks.
  apply visible_unify_newlines.
Qed.

(** X1.  The normaliser only touches white space: the code units of the
    value that are not white space come out unchanged and in the same
    order. *)
Theorem X1_visible_text_kept :
  forall x : jsstring, visible (normalizeCommaNewlines x) = visible x.
Proof.
  exact visible_normalize.
Qed.

Lemma is_empty_visible s : is_empty (visible s) = forallb is_space s.
Proof.
  induction s as [|c t IH]; [reflexivity|].
  rewrite visible_cons. simpl. destruct (is_space c); [exact IH | reflexivity].
Qed.

Lemma is_empty_visible_trimmed s :
  starts_with_space s = false -> is_empty (visible s) = is_empty s.
Proof.
  destruct s as [|c t]; [reflexivity|]. simpl. intros H.
  rewrite visible_cons, H. reflexivity.
Qed.

(** X2.  The value written back is the empty string exactly when the value
    read consists of white space only (the empty value included). *)
Theorem X2_empty_iff_blank :
  forall x : jsstring,
    is_empty (normalizeCommaNewlines x) = forallb is_space x.
Proof.
  intros x. rewrite <- is_empty_visible, <- (visible_normalize x).
  symmetry. apply is_empty_visible_trimmed, trimmed_ends, normalize_trimmed.
Qed.

Lemma match_spaces_run t : match_spaces_not_lf t = Some (spaces_run t).
Proof.
  induction t as [|c t IH]; [reflexivity|]. simpl.
  destruct (is_space c) eqn:Hc.
  - rewrite IH. reflexivity.
  - rewrite (not_space_not_LF _ Hc). reflexivity.
Qed.

Lemma match_comma_is_plain s : match_comma s = match_comma_plain s.
Proof.
  destruct s as [|c t]; [reflexivity|]. simpl.
  destruct (c =? COMMA)%N; [|reflexivity].
  rewrite match_spaces_run. reflexivity.
Qed.

Lemma replace_go_ext (m m' : jsstring -> option nat) rep :
  (forall s, m s = m' s) ->
  forall s k, replace_go m rep k s = replace_go m' rep k s.
Proof.
  intros H. induction s as [|c t IH]; intros k.
  - simpl. rewrite H. reflexivity.
  - simpl. destruct k as [|k]; [|apply IH].
    rewrite H. destruct (m' (c :: t)) as [[|len]|]; rewrite ?IH; reflexivity.
Qed.

(** X3.  The lookahead [(?!\n)] of the comma pattern never rejects a match
    and never makes the star give a code unit back: at every position the
    pattern matches exactly what [/,\s*/] matches, a comma with the whole run
    of white space behind it, so the second assignment computes
    [v.replace(/,\s*/g, ',\n').trim()]. *)
Theorem X3_lookahead_has_no_effect :
  (forall s : jsstring, match_comma s = match_comma_plain s) /\
  (forall v : jsstring,
      break_after_commas v = trim (replace_all match_comma_plain [COMMA; LF] v)).
Proof.
  split; [exact match_comma_is_plain|].
  intros v. unfold break_after_commas, insert_breaks, replace_all.
  rewrite (replace_go_ext _ _ _ match_comma_is_plain). reflexivity.
Qed.

(** *** Carriage returns are never added *)

Lemma count_cr_cons c t :
  count_cr (c :: t) = (if (c =? CR)%N then 1 else 0) + count_cr t.
Proof. unfold count_cr. simpl. destruct (c =? CR)%N; reflexivity. Qed.

Arguments count_cr : simpl never.

Lemma count_cr_skipn k s : count_cr (skipn k s) <= count_cr s.
Proof.
  revert s. induction k as [|k IH]; intros s; [simpl; lia|].
  destruct s as [|c t]; [simpl; lia|]. simpl skipn.
  rewrite count_cr_cons. specialize (IH t). lia.
Qed.

Lemma count_cr_trim_start s : count_cr (trim_start s) <= count_cr s.
Proof.
  induction s as [|c t IH]; [simpl; lia|]. simpl.
  destruct (is_space c); [|lia]. rewrite count_cr_cons. lia.
Qed.

Lemma count_cr_trim_end s : count_cr (trim_end s) <= count_cr s.
Proof.
  induction s as [|c t IH]; [simpl; lia|]. simpl.
  rewrite (count_cr_cons c t).
  destruct (trim_end t) as [|d r].
  - destruct (is_space c); [unfold count_cr; simpl; lia|].
    rewrite count_cr_cons. unfold count_cr at 1. simpl. lia.
  - rewrite (count_cr_cons c (d :: r)). lia.
Qed.

Lemma count_cr_insert_breaks s : count_cr (insert_breaks s) <= count_cr s.
Proof.
  induction s as [s IH] using list_length_ind.
  destruct s as [|c t]; [unfold count_cr; simpl; lia|].
  rewrite insert_breaks_cons.
  destruct (N.eqb_spec c COMMA) as [->|Hne].
  - rewrite !count_cr_cons. change (COMMA =? CR)%N with false.
    change (LF =? CR)%N with false. cbv iota.
    assert (Hlen : length (trim_start t) < length (COMMA :: t))
      by (pose proof (length_trim_start t); simpl; lia).
    specialize (IH _ Hlen). pose proof (count_cr_trim_start t). lia.
  - rewrite !count_cr_cons.
    assert (Hlen : length t < length (c :: t)) by (simpl; lia).
    specialize (IH _ Hlen). lia.
Qed.

Lemma count_cr_squeeze_blank_lines s :
  count_cr (squeeze_blank_lines s) <= count_cr s.
Proof.
  induction s as [s IH] using list_length_ind.
  destruct s as [|c t]; [unfold count_cr; simpl; lia|].
  rewrite squeeze_blank_lines_cons.
  destruct (3 <=? lf_run (c :: t)) eqn:H3.
  - apply Nat.leb_le in H3.
    set (rest := skipn (lf_run (c :: t)) (c :: t)).
    rewrite (count_cr_cons LF), (count_cr_cons LF). change (LF =? CR)%N with false.
    cbv iota.
    assert (Hlen : length rest < length (c :: t))
      by (unfold rest; rewrite length_skipn; cbn [length]; lia).
    specialize (IH _ Hlen).
    pose proof (count_cr_skipn (lf_run (c :: t)) (c :: t)). fold rest in H. lia.
  - rewrite !count_cr_cons.
    assert (Hlen : length t < length (c :: t)) by (simpl; lia).
    specialize (IH _ Hlen). lia.
Qed.

Lemma count_cr_unify_newlines s :
  count_cr (unify_newlines s) <= count_cr s /\
  (crlf_free s = false -> count_cr (unify_newlines s) < count_cr s).
Proof.
  induction s as [s IH] using list_length_ind.
  destruct s as [|c t]; [split; [unfold count_cr; simpl; lia | discriminate]|].
  rewrite unify_newlines_cons, crlf_free_cons.
  destruct ((c =? CR)%N && head_is LF t)%bool eqn:Hm.
  - apply andb_prop in Hm. destruct Hm as [Hc Ht].
    destruct t as [|d u]; [discriminate Ht|]. simpl in Ht. simpl tl.
    apply N.eqb_eq in Ht. subst d.
    assert (Hlen : length u < length (c :: LF :: u)) by (simpl; lia).
    destruct (IH _ Hlen) as [Hle _].
    rewrite !count_cr_cons, Hc. change (LF =? CR)%N with false. cbv iota.
    split; [lia | intros _; lia].
  - assert (Hlen : length t < length (c :: t)) by (simpl; lia).
    destruct (IH _ Hlen) as [Hle Hlt].
    rewrite !count_cr_cons. simpl negb. rewrite andb_true_l.
    split; [lia|]. intros Hf. specialize (Hlt Hf). lia.
Qed.

Lemma count_cr_normalize x :
  count_cr (normalizeCommaNewlines x) <= count_cr (unify_newlines x).
Proof.
  unfold normalizeCommaNewlines, break_after_commas, trim.
  pose proof (count_cr_squeeze_blank_lines
                (trim_end (trim_start (insert_breaks (unify_newlines x))))).
  pose proof (count_cr_trim_end (trim_start (insert_breaks (unify_newlines x)))).
  pose proof (count_cr_trim_start (insert_breaks (unify_newlines x))).
  pose proof (count_cr_insert_breaks (unify_newlines x)).
  lia.
Qed.

Lemma trimmed_of_ends s :
  starts_with_space s = false -> ends_with_space s = false -> trimmed s.
Proof.
  unfold starts_with_space, ends_with_space. intros Hs He. split; intros c H.
  - destruct s as [|d t]; [discriminate H|]. simpl in H. injection H as ->. exact Hs.
  - rewrite H in He. exact He.
Qed.

Lemma normalize_formatted x : formatted (normalizeCommaNewlines x) = true.
Proof.
  unfold formatted.
  destruct (trimmed_ends (normalize_trimmed x)) as [Hs He].
  rewrite normalize_commas_followed, Hs, He. simpl.
  apply no_lf3_squeeze_blank_lines.
Qed.

Lemma list_format_fixed y : list_format y = true -> normalizeCommaNewlines y = y.
Proof.
  unfold list_format, formatted. intros H.
  apply andb_prop in H. destruct H as [Hcr H].
  apply andb_prop in H. destruct H as [H Hbl].
  apply andb_prop in H. destruct H as [H He].
  apply andb_prop in H. destruct H as [Hco Hs].
  apply negb_true_iff in Hs, He.
  apply normal_fixed. split; try assumption.
  apply trimmed_of_ends; assumption.
Qed.

Lemma fixed_list_format y : normalizeCommaNewlines y = y -> list_format y = true.
Proof.
  intros H. unfold list_format.
  pose proof (normalize_formatted y) as Hf. rewrite H in Hf. rewrite Hf, andb_true_r.
  destruct (crlf_free y) eqn:Hc; [reflexivity|]. exfalso.
  pose proof (count_cr_normalize y) as Hle.
  destruct (count_cr_unify_newlines y) as [_ Hlt]. specialize (Hlt Hc).
  rewrite H in Hle. lia.
Qed.

(** X4.  The values the normaliser leaves as they are are exactly the values
    in list format: no carriage return directly before a newline, every
    comma last or followed by one newline and a code unit that is not white
    space, no white space at the ends, no three newlines in a row. *)
Theorem X4_unchanged_iff_list_format :
  forall y : jsstring, eqs (normalizeCommaNewlines y) y = list_format y.
Proof.
  intros y. destruct (list_format y) eqn:Hf.
  - apply eqs_true, list_format_fixed, Hf.
  - destruct (eqs (normalizeCommaNewlines y) y) eqn:He; [|reflexivity].
    apply eqs_true, fixed_list_format in He. congruence.
Qed.

(* ===================================================================== *)
(** ** Further properties of the controller *)
(* ===================================================================== *)

Lemma select_map {B : Type} (test : FieldEl -> bool) (proj : FieldEl -> B) g l :
  (forall f, test (g f) = test f) ->
  (forall f, test f = true -> proj (g f) = proj f) ->
  select test proj (map g l) = select test proj l.
Proof.
  intros Ht Hp. unfold select. induction l as [|f l IH]; [reflexivity|].
  simpl. rewrite Ht. destruct (test f) eqn:E; simpl; [rewrite (Hp _ E)|]; rewrite IH;
    reflexivity.
Qed.

Lemma select_update_at {B : Type} (test : FieldEl -> bool) (proj : FieldEl -> B) g i l :
  (forall f, nth_error l i = Some f ->
             test (g f) = test f /\ (test f = true -> proj (g f) = proj f)) ->
  select test proj (update i g l) = select test proj l.
Proof.
  unfold select. revert i. induction l as [|f l IH]; intros i H;
    [destruct i; reflexivity|].
  destruct i as [|i]; simpl.
  - destruct (H f eq_refl) as [Ht Hp]. rewrite Ht.
    destruct (test f) eqn:E; simpl; [rewrite (Hp eq_refl)|]; reflexivity.
  - assert (Hi : map proj (filter test (update i g l)) = map proj (filter test l))
      by (apply IH; intros f' Hf'; apply H; exact Hf').
    destruct (test f); simpl; rewrite Hi; reflexivity.
Qed.

Lemma select_update {B : Type} (test : FieldEl -> bool) (proj : FieldEl -> B) g i l :
  (forall f, test (g f) = test f) ->
  (forall f, test f = true -> proj (g f) = proj f) ->
  select test proj (update i g l) = select test proj l.
Proof.
  intros Ht Hp. apply select_update_at. intros f _. split; [apply Ht | apply Hp].
Qed.

Ltac step_cases e :=
  destruct e; cbn [Detail.step fst snd];
  unfold Detail.tab_click, Detail.tab_keydown, Detail.tab_keydown_listener,
    Detail.focus_and_activate, Detail.form_input, Detail.edit_click,
    Detail.save_click, Detail.beforeunload, on_paste, on_blur, fire, run_task,
    Detail.submit_now, form_requestSubmit;
  page_cbn;
  repeat (match goal with
          | |- context [match ?x with _ => _ end] => destruct x eqn:?
          end; page_cbn);
  cbn [Detail.activateTab]; page_cbn.

Lemma untracked_disable b f :
  untracked (if tracked f then set_disabled b f else f) = untracked f.
Proof. destruct (tracked f) eqn:E; [|reflexivity]. unfold untracked. rewrite tracked_set_disabled. reflexivity. Qed.

Lemma step_untracked_flags e st :
  select untracked f_disabled (fields (Detail.page (fst (Detail.step e st))))
  = select untracked f_disabled (fields (Detail.page st)).
Proof.
  step_cases e; try reflexivity;
    try (apply select_update; [intros fld | intros fld _]; reflexivity);
    try (apply select_map; [intros fld | intros fld Hf];
         [ first [apply untracked_disable | destruct (is_list_area fld); reflexivity]
         | unfold untracked in Hf; destruct (tracked fld); [discriminate Hf|];
           destruct (is_list_area fld); reflexivity ]).
Qed.

Lemma run_untracked_flags evs st :
  select untracked f_disabled (fields (Detail.page (Detail.run evs st)))
  = select untracked f_disabled (fields (Detail.page st)).
Proof.
  revert st. induction evs as [|e evs IH]; intros st; [reflexivity|].
  simpl. rewrite IH. apply step_untracked_flags.
Qed.

Lemma DOMContentLoaded_fields d fs st :
  doc_form d = Some fs -> Detail.DOMContentLoaded d = Some st ->
  fields (Detail.page st)
  = map (fun f => if tracked f then set_disabled true f else f)
        (map (fun f => if is_list_area f then normalize_el f else f) fs).
Proof.
  unfold Detail.DOMContentLoaded. intros Hf. rewrite Hf.
  intros H. injection H as <-. reflexivity.
Qed.

(** X5.  The script never writes the [disabled] flag of a field outside
    [inputs]: whatever happens after [DOMContentLoaded], the read-only
    inputs keep the flags the markup gave them. *)
Theorem X5_readonly_inputs_keep_disabled_flag :
  forall (d : Document) (fs : list FieldEl) (st : Detail.State) (evs : list Event),
    doc_form d = Some fs ->
    Detail.DOMContentLoaded d = Some st ->
    select untracked f_disabled (fields (Detail.page (Detail.run evs st)))
    = select untracked f_disabled fs.
Proof.
  intros d fs st evs Hf Hd.
  rewrite run_untracked_flags, (DOMContentLoaded_fields d Hf Hd).
  rewrite select_map.
  - apply select_map.
    + intros f. destruct (is_list_area f); reflexivity.
    + intros f _. destruct (is_list_area f); reflexivity.
  - intros f. apply untracked_disable.
  - intros f Hu. unfold untracked in Hu. destruct (tracked f); [discriminate Hu|].
    reflexivity.
Qed.

Lemma X5_readonly_inputs_keep_disabled_flag_witness :
  select untracked f_disabled
    (fields (Detail.page
       (Detail.run [Click_edit; Input 0 (lit "Lee"); Click_save; Click_edit]
          sample_state)))
  = [false].
Proof.
  apply (@X5_readonly_inputs_keep_disabled_flag sample_document sample_fields
           sample_state [Click_edit; Input 0 (lit "Lee"); Click_save; Click_edit]
           eq_refl eq_refl).
Defined.

(** *** Sections and tabs at every stable point *)

Lemma step_mirrors e st :
  forallb mirrors (sections (Detail.page st)) = true ->
  forallb mirrors (sections (Detail.page (fst (Detail.step e st)))) = true.
Proof.
  intros H.
  destruct (step_tabs_sections e st) as [[_ Hs] | [k [t [_ [_ [_ Hs]]]]]]; rewrite Hs.
  - exact H.
  - rewrite activateTab_sections. apply forallb_forall. intros s Hin.
    apply in_map_iff in Hin. destruct Hin as [s0 [<- _]].
    unfold mirrors. simpl. apply eqb_reflx.
Qed.

(** X6.  Whatever the markup, after [DOMContentLoaded] and after every
    event the [hidden] property of every section is the negation of its
    class [active]. *)
Theorem X6_hidden_mirrors_active :
  forall (d : Document) (st : Detail.State) (evs : list Event),
    Detail.DOMContentLoaded d = Some st ->
    forallb mirrors (sections (Detail.page (Detail.run evs st))) = true.
Proof.
  intros d st evs Hd.
  assert (H0 : forallb mirrors (sections (Detail.page st)) = true).
  { destruct (@DOMContentLoaded_page d st Hd) as [_ [Hs _]]. rewrite Hs.
    apply forallb_forall. intros s Hin. apply in_map_iff in Hin.
    destruct Hin as [s0 [<- _]]. unfold mirrors. simpl. apply eqb_reflx. }
  clear Hd. revert st H0. induction evs as [|e evs IH]; intros st H0; [exact H0|].
  simpl. apply IH, step_mirrors, H0.
Qed.

Lemma X6_hidden_mirrors_active_witness :
  forallb mirrors
    (sections (Detail.page
       (Detail.run [Click_tab 2; Keydown_tab 2 (lit "ArrowRight")] sample_state)))
  = true.
Proof.
  apply (@X6_hidden_mirrors_active sample_document sample_state
           [Click_tab 2; Keydown_tab 2 (lit "ArrowRight")] eq_refl).
Defined.

(** *** The tracked fields move together *)

Lemma step_tracked_flags e st :
  select tracked f_disabled (fields (Detail.page (fst (Detail.step e st))))
  = select tracked f_disabled (fields (Detail.page st)) \/
  exists b, fields (Detail.page (fst (Detail.step e st)))
            = fields (disable_inputs b (Detail.page st)).
Proof.
  step_cases e;
    first [ left; reflexivity
          | left; apply select_update; [intros fld | intros fld _]; reflexivity
          | left; apply select_map; [intros fld | intros fld _];
            destruct (is_list_area fld); reflexivity
          | right; eexists; reflexivity ].
Qed.

Lemma uniform_select b fs :
  Forall (fun x => x = b) (select tracked f_disabled fs) <->
  Forall (fun f => f_disabled f = b) (filter tracked fs).
Proof. unfold select. rewrite Forall_map. reflexivity. Qed.

Lemma run_uniform evs st :
  (exists b, Forall (fun f => f_disabled f = b) (inputs (Detail.page st))) ->
  exists b, Forall (fun f => f_disabled f = b) (inputs (Detail.page (Detail.run evs st))).
Proof.
  revert st. induction evs as [|e evs IH]; intros st H; [exact H|].
  simpl. apply IH. destruct H as [b Hb].
  destruct (step_tracked_flags e st) as [Hsame | [b' Hb']].
  - exists b. unfold inputs. apply uniform_select. rewrite Hsame.
    apply uniform_select. exact Hb.
  - exists b'. apply (Forall_after_disable b' (Detail.page st)). exact Hb'.
Qed.

Lemma reachable_uniform d st evs :
  Detail.DOMContentLoaded d = Some st ->
  exists b : bool,
    Forall (fun f => f_disabled f = b) (inputs (Detail.page (Detail.run evs st))).
Proof.
  intros Hd. apply run_uniform. exists true.
  unfold Detail.DOMContentLoaded in Hd. destruct (doc_form d) as [fs|]; [|discriminate Hd].
  injection Hd as <-.
  apply (Forall_after_disable true (normalize_listAreas (open_page d fs))). reflexivity.
Qed.

(** X7.  The tracked fields are enabled and disabled together: at every
    stable point after [DOMContentLoaded] they all carry the same
    [disabled] flag, so the edit mode that the click listener reads from
    [inputs[0]] is the mode of every tracked field. *)
Theorem X7_tracked_fields_share_disabled_flag :
  forall (d : Document) (st : Detail.State) (evs : list Event),
    Detail.DOMContentLoaded d = Some st ->
    exists b : bool,
      Forall (fun f => f_disabled f = b) (inputs (Detail.page (Detail.run evs st))).
Proof.
  intros d st evs Hd. apply (@reachable_uniform d st evs Hd).
Qed.

Lemma X7_tracked_fields_share_disabled_flag_witness :
  exists b : bool,
    Forall (fun f => f_disabled f = b)
      (inputs (Detail.page
         (Detail.run [Click_edit; Input 1 (lit "010"); Blur 2] sample_state))).
Proof.
  apply (@X7_tracked_fields_share_disabled_flag sample_document sample_state
           [Click_edit; Input 1 (lit "010"); Blur 2] eq_refl).
Defined.

Lemma set_disabled_same f : set_disabled (f_disabled f) f = f.
Proof. destruct f; reflexivity. Qed.

Lemma toggle_back b b' fs :
  Forall (fun f => f_disabled f = b) (filter tracked fs) ->
  map (fun f => if tracked f then set_disabled b f else f)
      (map (fun f => if tracked f then set_disabled b' f else f) fs)
  = fs.
Proof.
  induction fs as [|f fs IH]; intros H; [reflexivity|]. simpl in *.
  destruct (tracked f) eqn:Ht.
  - inversion H as [|? ? Hf Hrest]; subst.
    rewrite tracked_set_disabled, Ht. rewrite (IH Hrest). f_equal.
    destruct f; reflexivity.
  - rewrite Ht, (IH H). reflexivity.
Qed.

Lemma edit_click_fields p lbl :
  editBtn p = Some lbl ->
  fields (Part000.edit_click p)
  = fields (disable_inputs
              (negb match inputs p with el :: _ => f_disabled el | [] => true end) p) /\
  exists lbl', editBtn (Part000.edit_click p) = Some lbl'.
Proof.
  intros He. unfold Part000.edit_click. rewrite He.
  destruct (match inputs p with el :: _ => f_disabled el | [] => true end);
    page_cbn; destruct (saveBtn p); page_cbn; (split; [reflexivity | eexists; reflexivity]).
Qed.

Lemma no_inputs_no_toggle b fs :
  filter tracked fs = [] ->
  map (fun f => if tracked f then set_disabled b f else f) fs = fs.
Proof.
  induction fs as [|f fs IH]; intros H; [reflexivity|]. simpl in *.
  destruct (tracked f); [discriminate H|]. rewrite (IH H). reflexivity.
Qed.

Lemma edit_click_twice p :
  (exists b, Forall (fun f => f_disabled f = b) (inputs p)) ->
  fields (Part000.edit_click (Part000.edit_click p)) = fields p.
Proof.
  intros [b Hb].
  destruct (editBtn p) as [lbl|] eqn:He.
  2: { unfold Part000.edit_click. rewrite He. rewrite He. reflexivity. }
  destruct (edit_click_fields p He) as [Hf1 [lbl1 He1]].
  destruct (edit_click_fields (Part000.edit_click p) He1) as [Hf2 _].
  rewrite Hf2. clear Hf2.
  assert (Hin : inputs (Part000.edit_click p)
                = map (set_disabled
                         (negb match inputs p with el :: _ => f_disabled el | [] => true end))
                      (inputs p)).
  { unfold inputs at 1. rewrite Hf1. apply inputs_disable_inputs. }
  rewrite Hin. page_cbn. rewrite Hf1. page_cbn.
  unfold inputs in *.
  destruct (filter tracked (fields p)) as [|el l] eqn:Hp.
  - simpl. rewrite !no_inputs_no_toggle; try reflexivity; try exact Hp.
    rewrite no_inputs_no_toggle by exact Hp. exact Hp.
  - simpl. rewrite negb_involutive.
    inversion Hb as [|? ? Hel _]; subst.
    apply toggle_back. rewrite Hp. exact Hb.
Qed.

(** X8.  Two clicks on the edit control in a row leave every field of the
    form as it was: the second click undoes the first on the [disabled]
    flags, and neither touches a value. *)
Theorem X8_two_edit_clicks_restore_fields :
  forall (d : Document) (st : Detail.State) (evs : list Event),
    Detail.DOMContentLoaded d = Some st ->
    fields (Detail.page (Detail.edit_click (Detail.edit_click (Detail.run evs st))))
    = fields (Detail.page (Detail.run evs st)).
Proof.
  intros d st evs Hd. rewrite <- !edit_click_same_page.
  apply edit_click_twice.
  apply (@reachable_uniform d st evs Hd).
Qed.

Lemma X8_two_edit_clicks_restore_fields_witness :
  fields (Detail.page
            (Detail.edit_click
               (Detail.edit_click (Detail.run [Click_edit; Input 2 (lit "a,b")] sample_state))))
  = fields (Detail.page (Detail.run [Click_edit; Input 2 (lit "a,b")] sample_state)).
Proof.
  apply (@X8_two_edit_clicks_restore_fields sample_document sample_state
           [Click_edit; Input 2 (lit "a,b")] eq_refl).
Defined.

(** *** Timers, values and submissions *)

Lemma area_at_map g l i :
  (forall f, is_list_area (g f) = is_list_area f) ->
  match nth_error (map g l) i with Some f => is_list_area f | None => false end
  = match nth_error l i with Some f => is_list_area f | None => false end.
Proof.
  intros H. rewrite nth_error_map. destruct (nth_error l i); simpl; [apply H | reflexivity].
Qed.

Lemma nth_error_update {A : Type} (g : A -> A) i j l :
  nth_error (update i g l) j
  = if i =? j then option_map g (nth_error l j) else nth_error l j.
Proof.
  revert i j. induction l as [|x l IH]; intros i j.
  - destruct i, j; simpl; try reflexivity; destruct (i =? j); reflexivity.
  - destruct i as [|i], j as [|j]; simpl; try reflexivity. apply IH.
Qed.

Lemma area_at_update g l i j :
  (forall f, is_list_area (g f) = is_list_area f) ->
  match nth_error (update j g l) i with Some f => is_list_area f | None => false end
  = match nth_error l i with Some f => is_list_area f | None => false end.
Proof.
  intros H. rewrite nth_error_update.
  destruct (j =? i); [|reflexivity].
  destruct (nth_error l i); simpl; [apply H | reflexivity].
Qed.

Lemma forallb_pointwise {A : Type} (f g : A -> bool) l :
  (forall x, f x = g x) -> forallb f l = forallb g l.
Proof. intros H. induction l as [|x l IH]; simpl; [|rewrite H, IH]; reflexivity. Qed.

Lemma forallb_remove_first test t l :
  forallb test l = true -> forallb test (remove_first t l) = true.
Proof.
  induction l as [|x l IH]; intros H; [reflexivity|]. simpl in *.
  apply andb_prop in H. destruct H as [Hx Hl].
  destruct (Timer_eqb t x); [exact Hl|]. simpl. rewrite Hx. apply IH, Hl.
Qed.

Lemma pastes_only_fields p q :
  timers q = timers p ->
  (forall i, match nth_error (fields q) i with Some f => is_list_area f | None => false end
             = match nth_error (fields p) i with Some f => is_list_area f | None => false end) ->
  pastes_only q = pastes_only p.
Proof.
  intros Ht Hf. unfold pastes_only. rewrite Ht. apply forallb_pointwise.
  intros t. destruct (task t); [apply Hf | reflexivity].
Qed.

Lemma list_area_kept_disable b f :
  is_list_area (if tracked f then set_disabled b f else f) = is_list_area f.
Proof. destruct (tracked f); reflexivity. Qed.

Lemma list_area_kept_normalize f :
  is_list_area (if is_list_area f then normalize_el f else f) = is_list_area f.
Proof. destruct (is_list_area f) eqn:E; [|exact E]. unfold normalize_el. exact E. Qed.

Lemma pending_is_paste p t :
  pastes_only p = true -> existsb (Timer_eqb t) (timers p) = true ->
  exists i f, task t = NormalizeTask i /\ nth_error (fields p) i = Some f
              /\ is_list_area f = true.
Proof.
  unfold pastes_only. intros Hall Hex.
  apply existsb_exists in Hex. destruct Hex as [x [Hin Heq]].
  apply Timer_eqb_eq in Heq. subst x.
  rewrite forallb_forall in Hall. specialize (Hall t Hin).
  destruct (task t) as [i|] eqn:Ht; [|discriminate Hall].
  destruct (nth_error (fields p) i) as [f|] eqn:Hi; [|discriminate Hall].
  exists i, f. split; [reflexivity | split; [exact Hi | exact Hall]].
Qed.

Lemma step_pastes_only e st :
  pastes_only (Detail.page st) = true ->
  pastes_only (Detail.page (fst (Detail.step e st))) = true.
Proof.
  intros H.
  assert (Hfire : forall t,
             pastes_only (fire t (Detail.page st)) = true).
  { intros t. unfold fire.
    destruct (existsb (Timer_eqb t) (timers (Detail.page st))) eqn:Hex; [|exact H].
    destruct (pending_is_paste _ t H Hex) as [i [f [Htask _]]]. rewrite Htask.
    unfold pastes_only in *. page_cbn.
    rewrite (forallb_pointwise _
               (fun t0 => match task t0 with
                          | NormalizeTask j =>
                              match nth_error (fields (Detail.page st)) j with
                              | Some f0 => is_list_area f0
                              | None => false
                              end
                          | SubmitTask => false
                          end)).
    - apply forallb_remove_first, H.
    - intros t0. destruct (task t0); [|reflexivity].
      apply area_at_update. reflexivity. }
  destruct e as [k|k key|i v|i|i| | | |t|]; cbn [Detail.step fst]; page_cbn.
  - rewrite <- H. apply pastes_only_fields;
      unfold Detail.tab_click;
      destruct (nth_error (tabs (Detail.page st)) k) as [t|]; try reflexivity;
      destruct (is_tab t); reflexivity.
  - rewrite <- H. unfold Detail.tab_keydown, Detail.tab_keydown_listener.
    apply pastes_only_fields;
      repeat match goal with
             | |- context [match ?x with _ => _ end] => destruct x
             end; reflexivity.
  - destruct (nth_error (fields (Detail.page st)) i); [|exact H].
    unfold Detail.form_input.
    destruct (negb (Detail.dirty (Detail.on_page (type_into i v) st))); page_cbn;
      rewrite <- H; (apply pastes_only_fields; [reflexivity|]);
      intros idx; apply area_at_update; reflexivity.
  - unfold on_paste.
    destruct (nth_error (fields (Detail.page st)) i) as [f|] eqn:Hi; [|exact H].
    destruct (is_list_area f) eqn:Hf; [|exact H].
    unfold pastes_only in *. page_cbn. rewrite forallb_app, H. simpl.
    rewrite Hi, Hf. reflexivity.
  - unfold on_blur.
    destruct (nth_error (fields (Detail.page st)) i) as [f|]; [|exact H].
    destruct (is_list_area f); [|exact H].
    rewrite <- H. apply pastes_only_fields; [reflexivity|].
    intros idx. apply area_at_update. reflexivity.
  - rewrite <- edit_click_same_page, <- H. unfold Part000.edit_click.
    destruct (editBtn (Detail.page st)); [|reflexivity].
    destruct (match inputs (Detail.page st) with el :: _ => f_disabled el | [] => true end);
      page_cbn; destruct (saveBtn (Detail.page st));
      (apply pastes_only_fields; [reflexivity|]); intros idx; page_cbn;
      apply area_at_map; intros fld; apply list_area_kept_disable.
  - unfold Detail.save_click. destruct (saveBtn (Detail.page st)); [|exact H].
    page_cbn. rewrite <- H.
    destruct (loading (Detail.page st)); submit_cases;
      (apply pastes_only_fields; [reflexivity|]); intros idx; page_cbn;
      apply area_at_map; intros fld; apply list_area_kept_normalize.
  - unfold Detail.beforeunload. destruct (Detail.dirty st); exact H.
  - apply Hfire.
  - exact H.
Qed.

Lemma run_pastes_only evs st :
  pastes_only (Detail.page st) = true ->
  pastes_only (Detail.page (Detail.run evs st)) = true.
Proof.
  revert st. induction evs as [|e evs IH]; intros st H; [exact H|].
  simpl. apply IH, step_pastes_only, H.
Qed.

Lemma DOMContentLoaded_pastes_only d st :
  Detail.DOMContentLoaded d = Some st -> pastes_only (Detail.page st) = true.
Proof.
  unfold Detail.DOMContentLoaded. destruct (doc_form d); [|discriminate].
  intros H. injection H as <-. reflexivity.
Qed.

Ltac page_frame :=
  repeat match goal with
         | |- context [match ?x with _ => _ end] => destruct x
         end;
  reflexivity.

Lemma not_list_area_kept_disable b f :
  not_list_area (if tracked f then set_disabled b f else f) = not_list_area f.
Proof. unfold not_list_area. rewrite list_area_kept_disable. reflexivity. Qed.

Lemma not_list_area_kept_normalize f :
  not_list_area (if is_list_area f then normalize_el f else f) = not_list_area f.
Proof. unfold not_list_area. rewrite list_area_kept_normalize. reflexivity. Qed.

Lemma plain_values_normalize_at i f l :
  nth_error l i = Some f -> is_list_area f = true ->
  select not_list_area f_value (update i normalize_el l) = select not_list_area f_value l.
Proof.
  intros Hi Hf. apply select_update_at. intros f' Hf'.
  rewrite Hi in Hf'. injection Hf' as <-. unfold not_list_area. split.
  - reflexivity.
  - rewrite Hf. discriminate.
Qed.

Lemma step_plain_values e st :
  pastes_only (Detail.page st) = true -> not_input e = true ->
  select not_list_area f_value (fields (Detail.page (fst (Detail.step e st))))
  = select not_list_area f_value (fields (Detail.page st)).
Proof.
  intros Hp He.
  destruct e as [k|k key|i v|i|i| | | |t|]; cbn [Detail.step fst]; page_cbn;
    try discriminate He.
  - unfold Detail.tab_click. page_frame.
  - unfold Detail.tab_keydown, Detail.tab_keydown_listener. page_frame.
  - unfold on_paste. page_frame.
  - unfold on_blur.
    destruct (nth_error (fields (Detail.page st)) i) as [f|] eqn:Hi; [|reflexivity].
    destruct (is_list_area f) eqn:Hf; [|reflexivity].
    page_cbn. apply (@plain_values_normalize_at i f _ Hi Hf).
  - rewrite <- edit_click_same_page. unfold Part000.edit_click.
    destruct (editBtn (Detail.page st)); [|reflexivity].
    destruct (match inputs (Detail.page st) with el :: _ => f_disabled el | [] => true end);
      page_cbn; destruct (saveBtn (Detail.page st)); page_cbn;
      (apply select_map; [intros fld; apply not_list_area_kept_disable
                         | intros fld _; destruct (tracked fld); reflexivity]).
  - unfold Detail.save_click. destruct (saveBtn (Detail.page st)); [|reflexivity].
    page_cbn. destruct (loading (Detail.page st)); page_cbn;
      rewrite submit_now_fields; page_cbn;
      (apply select_map; [intros fld; apply not_list_area_kept_normalize
                         | intros fld Hf; unfold not_list_area in Hf;
                           destruct (is_list_area fld); [discriminate Hf | reflexivity]]).
  - unfold Detail.beforeunload. destruct (Detail.dirty st); reflexivity.
  - unfold fire.
    destruct (existsb (Timer_eqb t) (timers (Detail.page st))) eqn:Hex; [|reflexivity].
    destruct (pending_is_paste _ t Hp Hex) as [i [f [Htask [Hi Hf]]]].
    rewrite Htask. page_cbn. apply (@plain_values_normalize_at i f _ Hi Hf).
  - reflexivity.
Qed.

(** X9.  The script writes the [value] of list areas only: as long as the
    user makes no input, every field that is not a list area keeps the
    value it had, through tab switches, edit and save clicks, pastes, blurs
    and timers. *)
Theorem X9_only_list_areas_are_rewritten :
  forall (d : Document) (fs : list FieldEl) (st : Detail.State) (evs : list Event),
    doc_form d = Some fs ->
    Detail.DOMContentLoaded d = Some st ->
    select not_list_area f_value
      (fields (Detail.page (Detail.run (filter not_input evs) st)))
    = select not_list_area f_value fs.
Proof.
  intros d fs st evs Hf Hd.
  assert (H0 : select not_list_area f_value (fields (Detail.page st))
               = select not_list_area f_value fs).
  { rewrite (DOMContentLoaded_fields d Hf Hd). rewrite select_map.
    - apply select_map.
      + intros f. apply not_list_area_kept_normalize.
      + intros f Hn. unfold not_list_area in Hn.
        destruct (is_list_area f); [discriminate Hn | reflexivity].
    - intros f. apply not_list_area_kept_disable.
    - intros f _. destruct (tracked f); reflexivity. }
  rewrite <- H0. pose proof (DOMContentLoaded_pastes_only d Hd) as Hp.
  clear Hd Hf H0. revert st Hp.
  induction evs as [|e evs IH]; intros st Hp; [reflexivity|].
  simpl. destruct (not_input e) eqn:He; [|apply IH, Hp].
  simpl. rewrite (IH _ (step_pastes_only e st Hp)).
  apply step_plain_values; assumption.
Qed.

Lemma X9_only_list_areas_are_rewritten_witness :
  select not_list_area f_value
    (fields (Detail.page
       (Detail.run (filter not_input [Click_edit; Paste 2; Blur 1; Click_save])
          sample_state)))
  = [lit "Kim"; lit "010-1234"].
Proof.
  apply (@X9_only_list_areas_are_rewritten sample_document sample_fields sample_state
           [Click_edit; Paste 2; Blur 1; Click_save] eq_refl eq_refl).
Defined.

Ltac save_frame :=
  repeat match goal with
         | |- context [match ?x with _ => _ end] => destruct x eqn:?
         end;
  unfold has_save; page_cbn;
  repeat match goal with
         | H : saveBtn _ = _ |- _ => rewrite H
         end;
  reflexivity.

Lemma step_submissions e st :
  pastes_only (Detail.page st) = true ->
  length (submissions (Detail.page (fst (Detail.step e st))))
  = (if (is_save_click e && has_save (Detail.page st))%bool then 1 else 0)
    + length (submissions (Detail.page st)) /\
  has_save (Detail.page (fst (Detail.step e st))) = has_save (Detail.page st).
Proof.
  intros Hp.
  destruct e as [k|k key|i v|i|i| | | |t|]; cbn [Detail.step fst is_save_click andb];
    page_cbn.
  - unfold Detail.tab_click. split; save_frame.
  - unfold Detail.tab_keydown, Detail.tab_keydown_listener. split; save_frame.
  - unfold Detail.form_input. split; save_frame.
  - unfold on_paste. split; save_frame.
  - unfold on_blur. split; save_frame.
  - rewrite <- edit_click_same_page. unfold Part000.edit_click. split; save_frame.
  - unfold Detail.save_click, has_save.
    destruct (saveBtn (Detail.page st)) eqn:Hs; page_cbn;
      [|rewrite Hs; split; reflexivity].
    destruct (loading (Detail.page st)); page_cbn;
      rewrite submit_now_requests, submit_now_saveBtn; page_cbn;
      rewrite Hs, length_app; simpl; split; (lia || reflexivity).
  - unfold Detail.beforeunload. split; save_frame.
  - unfold fire.
    destruct (existsb (Timer_eqb t) (timers (Detail.page st))) eqn:Hex;
      [|split; reflexivity].
    destruct (pending_is_paste _ t Hp Hex) as [i [f [Htask _]]].
    rewrite Htask. split; reflexivity.
  - split; reflexivity.
Qed.

Lemma run_submissions evs st :
  pastes_only (Detail.page st) = true ->
  length (submissions (Detail.page (Detail.run evs st)))
  = (if has_save (Detail.page st) then length (filter is_save_click evs) else 0)
    + length (submissions (Detail.page st)).
Proof.
  revert st. induction evs as [|e evs IH]; intros st Hp.
  - simpl. destruct (has_save (Detail.page st)); reflexivity.
  - simpl. destruct (step_submissions e st Hp) as [Hlen Hsave].
    rewrite (IH _ (step_pastes_only e st Hp)), Hlen, Hsave.
    destruct (is_save_click e), (has_save (Detail.page st)); simpl; lia.
Qed.

(** X10.  In [employee_detail.js] the form is submitted by clicks on the
    save control and by nothing else: after any sequence of events the
    number of submissions requested equals the number of save clicks in it
    (and is zero on a page without save control). *)
Theorem X10_one_submission_per_save_click :
  forall (d : Document) (st : Detail.State) (evs : list Event),
    Detail.DOMContentLoaded d = Some st ->
    length (submissions (Detail.page (Detail.run evs st)))
    = match doc_save d with
      | Some _ => length (filter is_save_click evs)
      | None => 0
      end.
Proof.
  intros d st evs Hd.
  rewrite (run_submissions evs st (DOMContentLoaded_pastes_only d Hd)).
  unfold Detail.DOMContentLoaded in Hd. destruct (doc_form d); [|discriminate Hd].
  injection Hd as <-. unfold has_save. page_cbn. simpl.
  destruct (doc_save d); lia.
Qed.

Lemma X10_one_submission_per_save_click_witness :
  length (submissions (Detail.page
            (Detail.run [Click_edit; Click_save; Paste 2; Click_save;
                         Timer_fires {| delay := 0; task := NormalizeTask 2 |}]
               sample_state)))
  = 2.
Proof.
  apply (@X10_one_submission_per_save_click sample_document sample_state
           [Click_edit; Click_save; Paste 2; Click_save;
            Timer_fires {| delay := 0; task := NormalizeTask 2 |}] eq_refl).
Defined.

Lemma is_submit_task t :
  is_submit t = match task t with SubmitTask => true | NormalizeTask _ => false end.
Proof. reflexivity. Qed.

Lemma step_submissions_second e p :
  length (submissions (fst (Part000.step e p))) + pending_submits (fst (Part000.step e p))
  = (if (is_save_click e && has_save p)%bool then 1 else 0)
    + (length (submissions p) + pending_submits p) /\
  has_save (fst (Part000.step e p)) = has_save p.
Proof.
  unfold pending_submits.
  destruct e as [k|k key|i v|i|i| | | |t|]; cbn [Part000.step fst is_save_click andb].
  - unfold Part000.tab_click. split; save_frame.
  - split; reflexivity.
  - split; save_frame.
  - unfold on_paste. split; [|save_frame].
    destruct (nth_error (fields p) i) as [f|]; [|reflexivity].
    destruct (is_list_area f); [|reflexivity].
    page_cbn. rewrite filter_snoc. simpl. rewrite app_nil_r. reflexivity.
  - unfold on_blur. split; save_frame.
  - unfold Part000.edit_click. split; save_frame.
  - unfold Part000.save_click, has_save.
    destruct (saveBtn p) eqn:Hs; page_cbn; [|rewrite Hs; split; reflexivity].
    destruct (loading p); page_cbn; rewrite Hs, filter_snoc, length_app;
      simpl; split; (lia || reflexivity).
  - split; reflexivity.
  - unfold fire. destruct (existsb (Timer_eqb t) (timers p)) eqn:Hex;
      [|split; reflexivity].
    pose proof (is_submit_task t) as Hsub.
    destruct (task t) eqn:Htask; page_cbn.
    + rewrite (@pending_after_kept t _ Hsub). split; reflexivity.
    + pose proof (@pending_after_submit t _ Hsub Hex). rewrite length_app. simpl.
      split; [lia | reflexivity].
  - split; reflexivity.
Qed.

(** X11.  In the second variant too the form is submitted by save clicks
    only: after any sequence of events the submissions made, together with
    those still waiting in a 300 ms timer, are as many as the save clicks
    in it (none on a page without save control). *)
Theorem X11_second_variant_one_submission_per_save_click :
  forall (d : Document) (p : Page) (evs : list Event),
    Part000.DOMContentLoaded d = Some p ->
    length (submissions (Part000.run evs p)) + pending_submits (Part000.run evs p)
    = match doc_save d with
      | Some _ => length (filter is_save_click evs)
      | None => 0
      end.
Proof.
  intros d p evs Hd.
  assert (H0 : length (submissions p) + pending_submits p = 0
               /\ has_save p = match doc_save d with Some _ => true | None => false end).
  { unfold Part000.DOMContentLoaded in Hd. destruct (doc_form d) as [fs|]; [|discriminate Hd].
    injection Hd as <-. unfold pending_submits, has_save. page_cbn.
    destruct (querySelector_active (normalize_listAreas (open_page d fs)));
      split; reflexivity. }
  destruct H0 as [Hzero Hsave]. clear Hd.
  assert (Hrun : forall evs q,
             length (submissions (Part000.run evs q)) + pending_submits (Part000.run evs q)
             = (if has_save q then length (filter is_save_click evs) else 0)
               + (length (submissions q) + pending_submits q)).
  { clear. induction evs as [|e evs IH]; intros q.
    - simpl. destruct (has_save q); reflexivity.
    - simpl. destruct (step_submissions_second e q) as [Hlen Hs].
      rewrite IH, Hlen, Hs.
      destruct (is_save_click e), (has_save q); simpl; lia. }
  rewrite Hrun, Hzero, Hsave. destruct (doc_save d); lia.
Qed.

Lemma X11_second_variant_one_submission_per_save_click_witness :
  length (submissions
            (Part000.run [Click_edit; Click_save; Click_save;
                          Timer_fires {| delay := 300; task := SubmitTask |}]
               sample_page))
  + pending_submits
      (Part000.run [Click_edit; Click_save; Click_save;
                    Timer_fires {| delay := 300; task := SubmitTask |}]
         sample_page)
  = 2.
Proof.
  apply (@X11_second_variant_one_submission_per_save_click sample_document sample_page
           [Click_edit; Click_save; Click_save;
            Timer_fires {| delay := 300; task := SubmitTask |}] eq_refl).
Defined.

Lemma step_dirty_kept e st :
  not_edit_click e = true -> Detail.dirty st = true ->
  Detail.dirty (fst (Detail.step e st)) = true.
Proof.
  intros He Hd.
  destruct e as [k|k key|i v|i|i| | | |t|]; cbn [Detail.step fst]; page_cbn;
    try discriminate He; try exact Hd.
  - destruct (nth_error (fields (Detail.page st)) i); [|exact Hd].
    unfold Detail.form_input. page_cbn. rewrite Hd. exact Hd.
  - rewrite dirty_save_click. exact Hd.
  - unfold Detail.beforeunload. rewrite Hd. exact Hd.
Qed.

(** X12.  Once [dirty] is set, only a click on the edit control can clear
    it: tab switches, further input, pastes, blurs, timers, unload attempts
    and save clicks all leave it set. *)
Theorem X12_dirty_cleared_by_edit_click_only :
  forall (st : Detail.State) (evs : list Event),
    Detail.dirty st = true ->
    Detail.dirty (Detail.run (filter not_edit_click evs) st) = true.
Proof.
  intros st evs. revert st. induction evs as [|e evs IH]; intros st Hd; [exact Hd|].
  simpl. destruct (not_edit_click e) eqn:He; [|apply IH, Hd].
  simpl. apply IH, step_dirty_kept; assumption.
Qed.

Lemma X12_dirty_cleared_by_edit_click_only_witness :
  Detail.dirty
    (Detail.run (filter not_edit_click [Click_save; Beforeunload; Click_tab 1; Blur 2])
       (fst (Detail.step (Input 1 (lit "010")) (Detail.edit_click sample_state))))
  = true.
Proof.
  apply (X12_dirty_cleared_by_edit_click_only
           (fst (Detail.step (Input 1 (lit "010")) (Detail.edit_click sample_state)))
           [Click_save; Beforeunload; Click_tab 1; Blur 2]).
  reflexivity.
Defined.

(** *** Tabs *)

Lemma tab_array_by_keys p q :
  map tab_key (tabs q) = map tab_key (tabs p) -> Detail.tab_array q = Detail.tab_array p.
Proof.
  intros H. unfold Detail.tab_array.
  rewrite (same_length_map _ _ _ _ H).
  apply filter_ext. intros j.
  assert (Hj : option_map tab_key (nth_error (tabs q) j)
               = option_map tab_key (nth_error (tabs p) j))
    by (rewrite <- !nth_error_map, H; reflexivity).
  destruct (nth_error (tabs q) j) as [t|], (nth_error (tabs p) j) as [t'|];
    simpl in Hj; try discriminate Hj; [|reflexivity].
  apply is_tab_key. congruence.
Qed.

Lemma tab_array_focus_and_activate k p :
  Detail.tab_array (Detail.focus_and_activate k p) = Detail.tab_array p.
Proof.
  apply tab_array_by_keys. unfold Detail.focus_and_activate.
  rewrite activateTab_tab_keys. reflexivity.
Qed.

Lemma mod_next_previous i n : i < n -> ((i + 1) mod n + n - 1) mod n = i.
Proof.
  intros H. destruct (Nat.eq_dec (i + 1) n) as [E|E].
  - rewrite E, Nat.Div0.mod_same. simpl. rewrite Nat.mod_small by lia. lia.
  - rewrite (Nat.mod_small (i + 1)) by lia.
    replace (i + 1 + n - 1) with (i + 1 * n) by lia.
    rewrite Nat.Div0.mod_add. apply Nat.mod_small, H.
Qed.

Lemma mod_previous_next i n : i < n -> ((i + n - 1) mod n + 1) mod n = i.
Proof.
  intros H. destruct i as [|i].
  - simpl. rewrite (Nat.mod_small (n - 1)) by lia.
    replace (n - 1 + 1) with n by lia. apply Nat.Div0.mod_same.
  - replace (S i + n - 1) with (i + 1 * n) by lia.
    rewrite Nat.Div0.mod_add. rewrite (Nat.mod_small i) by lia.
    rewrite Nat.mod_small by lia. lia.
Qed.

Lemma nth_error_mod_Some (arr : list nat) j :
  0 < length arr -> exists k, nth_error arr (j mod length arr) = Some k.
Proof.
  intros Hn. destruct (nth_error arr (j mod length arr)) as [k|] eqn:E; [eauto|].
  apply nth_error_None in E. pose proof (Nat.mod_upper_bound j (length arr)). lia.
Qed.

(** X13.  The two arrow keys undo each other: ArrowRight on a tab followed
    by ArrowLeft on the tab that then has focus, or the other way round,
    brings focus and the class [active] back to the tab one started from. *)
Theorem X13_arrow_keys_undo_each_other :
  forall (p : Page) (i k : nat),
    nth_error (Detail.tab_array p) i = Some k ->
    exists kr kl : nat,
      nth_error (Detail.tab_array p) ((i + 1) mod length (Detail.tab_array p)) = Some kr /\
      nth_error (Detail.tab_array p)
        ((i + length (Detail.tab_array p) - 1) mod length (Detail.tab_array p)) = Some kl /\
      Detail.tab_keydown kr (lit "ArrowLeft")
        (fst (Detail.tab_keydown k (lit "ArrowRight") p))
      = (Detail.focus_and_activate k (Detail.focus_and_activate kr p), true) /\
      Detail.tab_keydown kl (lit "ArrowRight")
        (fst (Detail.tab_keydown k (lit "ArrowLeft") p))
      = (Detail.focus_and_activate k (Detail.focus_and_activate kl p), true) /\
      focused (Detail.focus_and_activate k (Detail.focus_and_activate kr p)) = Some k /\
      map (fun j => option_map t_active
                      (nth_error
                         (tabs (Detail.focus_and_activate k (Detail.focus_and_activate kr p)))
                         j))
          (Detail.tab_array p)
      = map (fun j => Some (j =? k)) (Detail.tab_array p).
Proof.
  intros p i k Hi.
  set (n := length (Detail.tab_array p)).
  assert (Hlt : i < n) by (apply nth_error_Some; rewrite Hi; discriminate).
  assert (Hn : 0 < n) by lia.
  destruct (nth_error_mod_Some (Detail.tab_array p) (i + 1) Hn) as [kr Hr].
  destruct (nth_error_mod_Some (Detail.tab_array p) (i + n - 1) Hn) as [kl Hl].
  fold n in Hr, Hl.
  exists kr, kl. split; [exact Hr|]. split; [exact Hl|].
  pose proof (@tab_keydown_arrow p i k kr kl Hi Hr Hl) as Hkey.
  (* the listener of the neighbour, on the page after the first key *)
  assert (Hback_r : exists a,
             forall key,
               Detail.tab_keydown kr key (Detail.focus_and_activate kr p) =
               if eqs key (lit "ArrowRight")
               then (Detail.focus_and_activate a (Detail.focus_and_activate kr p), true)
               else if eqs key (lit "ArrowLeft")
                    then (Detail.focus_and_activate k (Detail.focus_and_activate kr p), true)
                    else (Detail.focus_and_activate kr p, false)).
  { destruct (nth_error_mod_Some (Detail.tab_array p) ((i + 1) mod n + 1) Hn) as [a Ha].
    exists a. apply (@tab_keydown_arrow _ ((i + 1) mod n) kr a k);
      rewrite tab_array_focus_and_activate; fold n.
    - exact Hr.
    - exact Ha.
    - rewrite (mod_next_previous Hlt). exact Hi. }
  assert (Hback_l : exists a,
             forall key,
               Detail.tab_keydown kl key (Detail.focus_and_activate kl p) =
               if eqs key (lit "ArrowRight")
               then (Detail.focus_and_activate k (Detail.focus_and_activate kl p), true)
               else if eqs key (lit "ArrowLeft")
                    then (Detail.focus_and_activate a (Detail.focus_and_activate kl p), true)
                    else (Detail.focus_and_activate kl p, false)).
  { destruct (nth_error_mod_Some (Detail.tab_array p) ((i + n - 1) mod n + n - 1) Hn)
      as [a Ha].
    exists a. apply (@tab_keydown_arrow _ ((i + n - 1) mod n) kl k a);
      rewrite tab_array_focus_and_activate; fold n.
    - exact Hl.
    - rewrite (mod_previous_next Hlt). exact Hi.
    - exact Ha. }
  destruct Hback_r as [a Hbr]. destruct Hback_l as [a' Hbl].
  split; [|split; [|split]].
  - rewrite (Hkey (lit "ArrowRight")). cbn [fst].
    change (eqs (lit "ArrowRight") (lit "ArrowRight")) with true. cbv iota. cbn [fst].
    rewrite (Hbr (lit "ArrowLeft")). reflexivity.
  - rewrite (Hkey (lit "ArrowLeft")).
    change (eqs (lit "ArrowLeft") (lit "ArrowRight")) with false.
    change (eqs (lit "ArrowLeft") (lit "ArrowLeft")) with true. cbv iota. cbn [fst].
    rewrite (Hbl (lit "ArrowRight")). reflexivity.
  - reflexivity.
  - assert (Harr : Detail.tab_array (set_focused (Some k) (Detail.focus_and_activate kr p))
                   = Detail.tab_array p).
    { apply tab_array_by_keys. cbn [tabs set_focused]. unfold Detail.focus_and_activate.
      rewrite activateTab_tab_keys. reflexivity. }
    rewrite <- Harr.
    exact (activateTab_tab_flags k (set_focused (Some k) (Detail.focus_and_activate kr p))).
Qed.

Lemma X13_arrow_keys_undo_each_other_witness :
  focused
    (fst (Detail.tab_keydown 0 (lit "ArrowLeft")
            (fst (Detail.tab_keydown 2 (lit "ArrowRight") (Detail.page sample_state)))))
  = Some 2.
Proof.
  destruct (X13_arrow_keys_undo_each_other (Detail.page sample_state) 2 (k := 2) eq_refl)
    as [kr [kl [Hr [_ [Hkey [_ [Hfocus _]]]]]]].
  cbv in Hr. injection Hr as <-. rewrite Hkey. exact Hfocus.
Defined.

Lemma forallb_mapi_from {A B : Type} (test : B -> bool) (f : nat -> A -> B) n l :
  (forall j x, test (f j x) = true) -> forallb test (mapi_from f n l) = true.
Proof.
  intros H. revert n. induction l as [|x l IH]; intros n; [reflexivity|].
  simpl. rewrite H, IH. reflexivity.
Qed.

Lemma activateTab_aria_synced k p :
  aria_synced (tabs (Detail.activateTab k p)) = true.
Proof.
  unfold aria_synced, Detail.activateTab. cbn [tabs set_tabs set_sections
    requestAnimationFrame set_frames]. unfold mapi.
  apply forallb_mapi_from. intros j t.
  destruct (is_tab t) eqn:Ht.
  - change (is_tab (set_aria_selected (String_of_bool (j =? k)) (set_active (j =? k) t)))
      with (is_tab t). rewrite Ht. simpl. apply eqs_refl.
  - rewrite Ht. reflexivity.
Qed.

Lemma tabs_on_head k n x l :
  tabs_on
    (mapi_from (fun j t =>
                  if is_tab t then
                    set_aria_selected (String_of_bool (j =? k)) (set_active (j =? k) t)
                  else t) n (x :: l))
  = (if (is_tab x && (n =? k))%bool
     then [set_aria_selected (String_of_bool (n =? k)) (set_active (n =? k) x)]
     else [])
    ++ tabs_on
         (mapi_from (fun j t =>
                       if is_tab t then
                         set_aria_selected (String_of_bool (j =? k)) (set_active (j =? k) t)
                       else t) (S n) l).
Proof.
  unfold tabs_on. cbn [mapi_from filter].
  destruct (is_tab x) eqn:Hx.
  - change (is_tab (set_aria_selected (String_of_bool (n =? k)) (set_active (n =? k) x)))
      with (is_tab x).
    change (t_active (set_aria_selected (String_of_bool (n =? k)) (set_active (n =? k) x)))
      with (n =? k).
    rewrite Hx. cbn [andb]. destruct (n =? k); reflexivity.
  - rewrite Hx. reflexivity.
Qed.

Lemma tabs_on_behind k n l :
  k < n ->
  tabs_on
    (mapi_from (fun j t =>
                  if is_tab t then
                    set_aria_selected (String_of_bool (j =? k)) (set_active (j =? k) t)
                  else t) n l)
  = [].
Proof.
  revert n. induction l as [|x l IH]; intros n Hk; [reflexivity|].
  rewrite tabs_on_head, (IH (S n)) by lia.
  destruct (Nat.eqb_spec n k); [lia|]. rewrite andb_false_r. reflexivity.
Qed.

Lemma tabs_on_mapi_from k n l j t :
  nth_error l j = Some t -> is_tab t = true -> k = n + j ->
  length (tabs_on
            (mapi_from (fun j t =>
                          if is_tab t then
                            set_aria_selected (String_of_bool (j =? k))
                              (set_active (j =? k) t)
                          else t) n l))
  = 1.
Proof.
  revert n j. induction l as [|x l IH]; intros n j Hj Ht Hk.
  - destruct j; discriminate Hj.
  - rewrite tabs_on_head. destruct j as [|j].
    + simpl in Hj. injection Hj as ->. rewrite Ht.
      replace k with n by lia. rewrite Nat.eqb_refl. cbn [andb].
      rewrite tabs_on_behind by lia. reflexivity.
    + destruct (Nat.eqb_spec n k); [lia|]. rewrite andb_false_r.
      apply (IH (S n) j); [exact Hj | exact Ht | lia].
Qed.

Lemma activateTab_tabs_on k t p :
  nth_error (tabs p) k = Some t -> is_tab t = true ->
  length (tabs_on (tabs (Detail.activateTab k p))) = 1.
Proof.
  intros Hk Ht. unfold Detail.activateTab. cbn [tabs set_tabs set_sections
    requestAnimationFrame set_frames]. unfold mapi.
  apply (@tabs_on_mapi_from k 0 _ k t Hk Ht). reflexivity.
Qed.

Lemma step_one_tab_on e st :
  aria_synced (tabs (Detail.page st)) = true /\
  length (tabs_on (tabs (Detail.page st))) = 1 ->
  aria_synced (tabs (Detail.page (fst (Detail.step e st)))) = true /\
  length (tabs_on (tabs (Detail.page (fst (Detail.step e st))))) = 1.
Proof.
  intros H.
  destruct (step_tabs_sections e st) as [[Ht _] | [k [t [Hk [Htab [Ht _]]]]]]; rewrite Ht.
  - exact H.
  - split; [apply activateTab_aria_synced | apply (@activateTab_tabs_on k t _ Hk Htab)].
Qed.

(** X14.  From the first click on a tab on, at every stable point exactly
    one tab with [role="tab"] has the class [active], and on every such tab
    [aria-selected] is ["true"] or ["false"] according to that class. *)
Theorem X14_one_tab_selected_after_first_click :
  forall (st : Detail.State) (k : nat) (t : TabEl) (evs : list Event),
    nth_error (tabs (Detail.page st)) k = Some t ->
    is_tab t = true ->
    aria_synced (tabs (Detail.page (Detail.run (Click_tab k :: evs) st))) = true /\
    length (tabs_on (tabs (Detail.page (Detail.run (Click_tab k :: evs) st)))) = 1.
Proof.
  intros st k t evs Hk Ht. cbn [Detail.run fold_left].
  change (fold_left (fun s e => fst (Detail.step e s)) evs
            (fst (Detail.step (Click_tab k) st)))
    with (Detail.run evs (fst (Detail.step (Click_tab k) st))).
  assert (H0 : aria_synced (tabs (Detail.page (fst (Detail.step (Click_tab k) st)))) = true /\
               length (tabs_on (tabs (Detail.page (fst (Detail.step (Click_tab k) st))))) = 1).
  { cbn [Detail.step fst]. page_cbn. unfold Detail.tab_click. rewrite Hk, Ht.
    split; [apply activateTab_aria_synced | apply (@activateTab_tabs_on k t _ Hk Ht)]. }
  generalize dependent (fst (Detail.step (Click_tab k) st)). clear.
  intros s H0. revert s H0.
  induction evs as [|e evs IH]; intros s H0; [exact H0|].
  simpl. apply IH, step_one_tab_on, H0.
Qed.

Lemma X14_one_tab_selected_after_first_click_witness :
  length (tabs_on (tabs (Detail.page
            (Detail.run [Click_tab 1; Keydown_tab 1 (lit "ArrowLeft"); Click_edit]
               sample_state))))
  = 1.
Proof.
  apply (@X14_one_tab_selected_after_first_click sample_state 1
           (sample_tab "career" false)
           [Keydown_tab 1 (lit "ArrowLeft"); Click_edit] eq_refl eq_refl).
Defined.

Lemma filter_other_mapi_from k n l :
  filter (fun t => negb (is_tab t))
    (mapi_from (fun j t =>
                  if is_tab t then
                    set_aria_selected (String_of_bool (j =? k)) (set_active (j =? k) t)
                  else t) n l)
  = filter (fun t => negb (is_tab t)) l.
Proof.
  revert n. induction l as [|x l IH]; intros n; [reflexivity|].
  cbn [mapi_from filter]. rewrite IH.
  destruct (is_tab x) eqn:Hx.
  - change (is_tab (set_aria_selected (String_of_bool (n =? k)) (set_active (n =? k) x)))
      with (is_tab x). rewrite Hx. reflexivity.
  - rewrite Hx. reflexivity.
Qed.

(** X15.  Elements of class [tab] whose role is not ["tab"] (the PDF icon
    with [role="button"]) are never touched: no event changes their
    [active] class or gives them an [aria-selected] attribute. *)
Theorem X15_other_tab_elements_untouched :
  forall (st : Detail.State) (evs : list Event),
    filter (fun t => negb (is_tab t)) (tabs (Detail.page (Detail.run evs st)))
    = filter (fun t => negb (is_tab t)) (tabs (Detail.page st)).
Proof.
  intros st evs. revert st. induction evs as [|e evs IH]; intros st; [reflexivity|].
  simpl. rewrite IH.
  destruct (step_tabs_sections e st) as [[Ht _] | [k [t [_ [_ [Ht _]]]]]]; rewrite Ht.
  - reflexivity.
  - unfold Detail.activateTab. cbn [tabs set_tabs set_sections requestAnimationFrame
      set_frames]. apply filter_other_mapi_from.
Qed.

Lemma step_second_never_hides e p :
  map s_hidden (sections (fst (Part000.step e p))) = map s_hidden (sections p) /\
  map t_aria_selected (tabs (fst (Part000.step e p))) = map t_aria_selected (tabs p).
Proof.
  destruct e as [k|k key|i v|i|i| | | |t|]; cbn [Part000.step fst].
  - unfold Part000.tab_click. destruct (nth_error (tabs p) k); [|split; reflexivity].
    page_cbn. split.
    + rewrite map_map. reflexivity.
    + rewrite (map_update t_aria_selected (set_active true)) by reflexivity.
      rewrite map_map. reflexivity.
  - split; reflexivity.
  - split; page_frame.
  - unfold on_paste. split; page_frame.
  - unfold on_blur. split; page_frame.
  - unfold Part000.edit_click. split; page_frame.
  - unfold Part000.save_click. split; page_frame.
  - split; reflexivity.
  - unfold fire, run_task. split; page_frame.
  - split; reflexivity.
Qed.

(** X16.  The second variant never writes the [hidden] property of a
    section nor the [aria-selected] attribute of a tab: both stay as the
    page had them, whatever happens. *)
Theorem X16_second_variant_leaves_hidden_and_aria :
  forall (p : Page) (evs : list Event),
    map s_hidden (sections (Part000.run evs p)) = map s_hidden (sections p) /\
    map t_aria_selected (tabs (Part000.run evs p)) = map t_aria_selected (tabs p).
Proof.
  intros p evs. revert p. induction evs as [|e evs IH]; intros p; [split; reflexivity|].
  simpl. destruct (IH (fst (Part000.step e p))) as [Hs Ht].
  destruct (step_second_never_hides e p) as [Hs' Ht'].
  unfold Part000.run in *. rewrite Hs, Ht, Hs', Ht'. split; reflexivity.
Qed.

(** X17.  A paste is normalised after the pasted text is in the field: the
    paste listener only starts a timer, so when the browser then inserts
    the text and the timer runs, the list area holds the normalised form of
    what was inserted. *)
Theorem X17_paste_normalises_inserted_text :
  forall (st : Detail.State) (i : nat) (f : FieldEl) (v : jsstring),
    nth_error (fields (Detail.page st)) i = Some f ->
    is_list_area f = true ->
    option_map f_value
      (nth_error
         (fields (Detail.page
            (Detail.run [Paste i; Input i v;
                         Timer_fires {| delay := 0; task := NormalizeTask i |}] st)))
         i)
    = Some (normalizeCommaNewlines v).
Proof.
  intros st i f v Hi Hf.
  change (Detail.run [Paste i; Input i v;
                      Timer_fires {| delay := 0; task := NormalizeTask i |}] st)
    with (fst (Detail.step (Timer_fires {| delay := 0; task := NormalizeTask i |})
                 (fst (Detail.step (Input i v) (fst (Detail.step (Paste i) st)))))).
  set (s1 := fst (Detail.step (Paste i) st)).
  assert (H1 : Detail.page s1 = setTimeout (NormalizeTask i) 0 (Detail.page st)).
  { unfold s1. cbn [Detail.step fst Detail.page Detail.on_page]. unfold on_paste.
    rewrite Hi, Hf. reflexivity. }
  assert (Hi1 : nth_error (fields (Detail.page s1)) i = Some f)
    by (rewrite H1; exact Hi).
  set (s2 := fst (Detail.step (Input i v) s1)).
  assert (H2 : Detail.page s2 = type_into i v (Detail.page s1)).
  { unfold s2. cbn [Detail.step]. rewrite Hi1. cbn [fst]. unfold Detail.form_input.
    destruct (negb (Detail.dirty (Detail.on_page (type_into i v) s1))); reflexivity. }
  cbn [Detail.step fst Detail.page Detail.on_page]. rewrite H2, H1.
  unfold fire. cbn [timers type_into set_fields setTimeout set_timers].
  rewrite existsb_snoc_self.
  cbn [task run_task fields set_fields set_timers type_into setTimeout].
  rewrite !nth_error_update, Nat.eqb_refl, Hi. reflexivity.
Qed.

Lemma X17_paste_normalises_inserted_text_witness :
  option_map f_value
    (nth_error
       (fields (Detail.page
          (Detail.run [Paste 2; Input 2 (lit "a, b");
                       Timer_fires {| delay := 0; task := NormalizeTask 2 |}]
             (Detail.edit_click sample_state))))
       2)
  = Some (lit "a," ++ [LF] ++ lit "b").
Proof.
  apply (@X17_paste_normalises_inserted_text (Detail.edit_click sample_state) 2
           {| f_tag := TEXTAREA; f_readonly := false; f_auto_list := true;
              f_auto_grow := true;
              f_value := lit "rocq," ++ [LF] ++ lit "js," ++ [LF] ++ lit "c";
              f_disabled := false |}
           (lit "a, b") eq_refl eq_refl).
Defined.



Lemma find_index_None {A : Type} (test : A -> bool) l :
  find_index test l = None -> filter test l = [].
Proof.
  induction l as [|x l IH]; intros H; [reflexivity|].
  simpl in *. destruct (test x); [discriminate H|].
  destruct (find_index test l); [discriminate H|]. apply IH. reflexivity.
Qed.

Example getElementById_examples :
  getElementById (lit "career") (Detail.page sample_state) = Some (SectionNode 1) /\
  getElementById (lit "edit-btn") (Detail.page sample_state)
  = Some (OtherNode {| o_id := lit "edit-btn"; o_after := 3 |}) /\
  getElementById (lit "awards") (Detail.page sample_state) = None /\
  getElementById [] (Detail.page sample_state) = None.
Proof. repeat split. Qed.





(** X19.  A tab without [data-target] names no section: [activateTab] for it
    leaves every section without the class [active] and hidden, and a click
    on it in the second variant leaves no section active. *)
Theorem X19_tab_without_target_shows_no_section :
  forall (p : Page) (k : nat) (t : TabEl),
    nth_error (tabs p) k = Some t ->
    t_target t = None ->
    forallb (fun s => (negb (s_active s) && s_hidden s)%bool)
      (sections (Detail.activateTab k p)) = true /\
    forallb (fun s => negb (s_active s)) (sections (Part000.tab_click k p)) = true.
Proof.
  intros p k t Hk Ht. split.
  - rewrite activateTab_sections, Hk, Ht. apply forallb_forall.
    intros s Hin. apply in_map_iff in Hin. destruct Hin as [s0 [<- _]]. reflexivity.
  - unfold Part000.tab_click. rewrite Hk, Ht. page_cbn. apply forallb_forall.
    intros s Hin. apply in_map_iff in Hin. destruct Hin as [s0 [<- _]]. reflexivity.
Qed.

Lemma X19_tab_without_target_shows_no_section_witness :
  forallb (fun s => (negb (s_active s) && s_hidden s)%bool)
    (sections (Detail.activateTab 3 untargeted_page)) = true.
Proof.
  exact (proj1 (X19_tab_without_target_shows_no_section untargeted_page 3
                  (t := {| t_role := Some (lit "tab"); t_target := None;
                           t_active := false; t_aria_selected := None |})
                  eq_refl eq_refl)).
Defined.

Lemma areas_formatted_normalized l :
  areas_formatted (map (fun f => if is_list_area f then normalize_el f else f) l) = true.
Proof.
  unfold areas_formatted. apply forallb_forall. intros f Hin.
  apply in_map_iff in Hin. destruct Hin as [f0 [<- _]].
  destruct (is_list_area f0) eqn:E.
  - unfold normalize_el.
    change (is_list_area (set_value (normalizeCommaNewlines (f_value f0)) f0))
      with (is_list_area f0).
    rewrite E. simpl implb. apply normalize_formatted.
  - rewrite E. reflexivity.
Qed.

Lemma areas_formatted_disable b l :
  areas_formatted (map (fun f => if tracked f then set_disabled b f else f) l)
  = areas_formatted l.
Proof.
  unfold areas_formatted. induction l as [|f l IH]; [reflexivity|].
  simpl. rewrite IH. destruct (tracked f); reflexivity.
Qed.

(** X20.  Every list area holds a formatted value (every comma last or
    followed by one newline and a code unit that is not white space, no
    white space at the ends, no three newlines in a row) right after
    [DOMContentLoaded], and again at the moment a save click asks for the
    submission, whatever the user typed before the click. *)
Theorem X20_list_areas_formatted_at_load_and_save :
  forall (d : Document) (st s : Detail.State) (disp : jsstring),
    Detail.DOMContentLoaded d = Some st ->
    saveBtn (Detail.page s) = Some disp ->
    areas_formatted (fields (Detail.page st)) = true /\
    areas_formatted (fields (Detail.page (fst (Detail.step Click_save s)))) = true.
Proof.
  intros d st s disp Hd Hs. split.
  - unfold Detail.DOMContentLoaded in Hd. destruct (doc_form d) as [fs|]; [|discriminate Hd].
    injection Hd as <-. page_cbn. rewrite areas_formatted_disable.
    apply areas_formatted_normalized.
  - cbn [Detail.step]. unfold Detail.save_click. rewrite Hs. page_cbn.
    destruct (loading (Detail.page s)); page_cbn; rewrite submit_now_fields; page_cbn;
      apply areas_formatted_normalized.
Qed.

Lemma X20_list_areas_formatted_at_load_and_save_witness :
  areas_formatted
    (fields (Detail.page
       (fst (Detail.step Click_save
               (Detail.run [Click_edit; Input 2 (lit " x ,y,,")] sample_state)))))
  = true.
Proof.
  apply (@X20_list_areas_formatted_at_load_and_save sample_document sample_state
           (Detail.run [Click_edit; Input 2 (lit " x ,y,,")] sample_state)
           (lit "inline-block") eq_refl eq_refl).
Defined.

Lemma step_second_tabs e p :
  tabs (fst (Part000.step e p)) = tabs p \/
  exists k t, nth_error (tabs p) k = Some t /\
              tabs (fst (Part000.step e p))
              = update k (set_active true) (map (set_active false) (tabs p)).
Proof.
  destruct e as [k|k key|i v|i|i| | | |t|]; cbn [Part000.step fst];
    try (left; reflexivity).
  - unfold Part000.tab_click. destruct (nth_error (tabs p) k) as [t|] eqn:Hk;
      [|left; reflexivity].
    right. exists k, t. split; [exact Hk | reflexivity].
  - left. destruct (nth_error (fields p) i); reflexivity.
  - left. unfold on_paste. page_frame.
  - left. unfold on_blur. page_frame.
  - left. unfold Part000.edit_click. page_frame.
  - left. unfold Part000.save_click. page_frame.
  - left. unfold fire, run_task. page_frame.
Qed.

Lemma one_flag k n len :
  n <= k < n + len ->
  length (filter (fun b : bool => b) (map (fun j => j =? k) (seq n len))) = 1.
Proof.
  revert n. induction len as [|len IH]; intros n H; [lia|].
  simpl. destruct (Nat.eqb_spec n k) as [->|Hne].
  - simpl. f_equal. clear IH H.
    assert (Hz : forall m l, k < m ->
               filter (fun b : bool => b) (map (fun j => j =? k) (seq m l)) = []).
    { intros m l. revert m. induction l as [|l IHl]; intros m Hm; [reflexivity|].
      simpl. destruct (Nat.eqb_spec m k); [lia|]. apply IHl. lia. }
    rewrite Hz by lia. reflexivity.
  - apply IH. lia.
Qed.

Lemma second_tab_click_one_active k t ts :
  nth_error ts k = Some t ->
  length (filter t_active (update k (set_active true) (map (set_active false) ts))) = 1.
Proof.
  intros Hk.
  rewrite <- (length_filter_map t_active (fun b : bool => b)).
  rewrite (tab_flags_update k 0). apply one_flag.
  split; [lia|]. simpl. apply nth_error_Some. rewrite Hk. discriminate.
Qed.

(** X21.  In the second variant, from the first click on a tab on, exactly
    one element of class [tab] has the class [active] at every stable
    point. *)
Theorem X21_second_variant_one_tab_active :
  forall (p : Page) (k : nat) (t : TabEl) (evs : list Event),
    nth_error (tabs p) k = Some t ->
    length (filter t_active (tabs (Part000.run (Click_tab k :: evs) p))) = 1.
Proof.
  intros p k t evs Hk. cbn [Part000.run fold_left].
  assert (H0 : length (filter t_active (tabs (fst (Part000.step (Click_tab k) p)))) = 1).
  { cbn [Part000.step fst]. unfold Part000.tab_click. rewrite Hk. page_cbn.
    apply (@second_tab_click_one_active k t _ Hk). }
  generalize dependent (fst (Part000.step (Click_tab k) p)). clear.
  intros q H0. revert q H0.
  induction evs as [|e evs IH]; intros q H0; [exact H0|].
  simpl. apply IH.
  destruct (step_second_tabs e q) as [Ht | [k [t [Hk Ht]]]]; rewrite Ht.
  - exact H0.
  - apply (@second_tab_click_one_active k t _ Hk).
Qed.

Lemma X21_second_variant_one_tab_active_witness :
  length (filter t_active
            (tabs (Part000.run [Click_tab 2; Click_edit; Click_tab 0] sample_page)))
  = 1.
Proof.
  apply (@X21_second_variant_one_tab_active sample_page 2 (sample_tab "skills" false)
           [Click_edit; Click_tab 0] eq_refl).
Defined.

(* ===================================================================== *)
(** ** The save click *)
(* ===================================================================== *)






